(** * Bed-levelling calibration core: a shallow embedding

    The embedding follows the Python sources under [calibration/]:
    [hardware/screw.py], [hardware/bed.py], [algorithms/screw_solver.py],
    [algorithms/tape_calculator.py], [algorithms/deviation_analyzer.py],
    [workflow/models.py], [workflow/calculators.py] and [workflow/engine.py],
    and the stage selection of the recommendations dialog under
    [flashforge_app/ui/dialogs/].

    Numbers.  Heights, weights and deviations are Python/NumPy floats.  They
    are embedded as exact rationals [Q]: every arithmetic operation is the
    exact one, comparisons are the exact ones, and equality of heights is
    [Qeq] (written [==]).  Rounding of IEEE doubles is outside the model.
    Division by zero raises in Python (or yields inf/nan in NumPy) where
    [Q]'s division returns 0; the embedding is that of the source on the
    configurations the source is written for: a non-zero thread pitch, belt
    tooth pitch and tape thickness, and at least two mesh points per axis.

    Arrays.  A 2-D [numpy.ndarray] is a list of rows, each a list of cells.
    Vectorised NumPy expressions are embedded with [mesh_map], [mesh_zip]
    and [mesh_tab]; they agree with NumPy whenever the operands have the
    same shape, which [has_shape] records.  Grid indices and point counts
    are natural numbers. *)

From Stdlib Require Import Bool Ascii String DecimalString.
From Stdlib Require Import ZArith Lia List.
From Stdlib Require Import QArith Qabs Qminmax Qround Lqa.
From Stdlib Require Import Permutation Sorted.
Import ListNotations.

Local Open Scope Q_scope.

(** ** Comparisons on floats *)

Definition Qltb (x y : Q) : bool := negb (Qle_bool y x).
Definition Qgtb (x y : Q) : bool := Qltb y x.
Definition Qneb (x y : Q) : bool := negb (Qeq_bool x y).

(** ** Exceptions

    The failures that the core raises itself are [ValueError]s, told apart
    by their message; the constructors name the messages.  The last one is
    the interpreter's own failure on reading an attribute of [None]. *)

Inductive PyError :=
| DataNotSetError      (* "Данные сетки не установлены" *)
| ShapeMismatchError   (* "Неверный размер сетки" *)
| UnknownCornerError   (* "Неизвестный угол" *)
| OutOfRangeError      (* "Координаты вне диапазона сетки" *)
| MeshNotAvailable     (* "Mesh data is not available for simulation" *)
| NoneTypeError.       (* an attribute of [None] is read: [AttributeError] *)

Inductive result (A : Type) :=
| Ok (a : A)
| Raise (e : PyError).
Arguments Ok {A} a.
Arguments Raise {A} e.

Definition bind {A B} (r : result A) (k : A -> result B) : result B :=
  match r with
  | Ok a => k a
  | Raise e => Raise e
  end.

Notation "x <- r ;; k" := (bind r (fun x => k))
  (at level 61, r at next level, right associativity).
Notation "' p <- r ;; k" := (bind r (fun p => k))
  (at level 61, p pattern, r at next level, right associativity).

(** ** Python built-ins *)

(** [sorted(l, key=...)]: a stable sort, [ltb a b] being [key a < key b]. *)
Fixpoint insert_sorted {A} (ltb : A -> A -> bool) (x : A) (l : list A) : list A :=
  match l with
  | [] => [x]
  | y :: t => if ltb y x then y :: insert_sorted ltb x t else x :: y :: t
  end.

Definition py_sorted {A} (ltb : A -> A -> bool) (l : list A) : list A :=
  fold_right (insert_sorted ltb) [] l.

(** [min(l, key=...)]: the first element of least key; [None] stands for the
    [ValueError] on an empty sequence. *)
Definition py_min_by {A} (key : A -> Q) (l : list A) : option A :=
  match l with
  | [] => None
  | x :: t => Some (fold_left (fun best y => if Qltb (key y) (key best) then y else best) t x)
  end.

(** Tuples [(int, float)] compared as Python compares them. *)
Definition key_ltb (k1 k2 : Z * Q) : bool :=
  (fst k1 <? fst k2)%Z || ((fst k1 =? fst k2)%Z && Qltb (snd k1) (snd k2)).

(** ** NumPy arrays *)

Module Np.

Definition Mesh := list (list Q).

(** [arr[i, j]]; the default is only met outside the array. *)
Definition get (m : Mesh) (i j : nat) : Q := nth j (nth i m []) 0.

(** [arr.shape == (r, c)] *)
Definition has_shape (r c : nat) (m : Mesh) : Prop :=
  length m = r /\ Forall (fun row => length row = c) m.

Definition has_shapeb (r c : nat) (m : Mesh) : bool :=
  Nat.eqb (length m) r && forallb (fun row => Nat.eqb (length row) c) m.

(** An array given cell by cell: [[f i j for j in range(c)] for i in range(r)]. *)
Definition mesh_tab (r c : nat) (f : nat -> nat -> Q) : Mesh :=
  map (fun i => map (fun j => f i j) (seq 0 c)) (seq 0 r).

(** Elementwise unary and binary operations. *)
Definition mesh_map (f : Q -> Q) (m : Mesh) : Mesh := map (map f) m.

Fixpoint zip_with {A B C} (f : A -> B -> C) (l : list A) (l' : list B) : list C :=
  match l, l' with
  | x :: t, y :: t' => f x y :: zip_with f t t'
  | _, _ => []
  end.

Definition mesh_zip (f : Q -> Q -> Q) (a b : Mesh) : Mesh :=
  zip_with (zip_with f) a b.

Definition add (a b : Mesh) : Mesh := mesh_zip Qplus a b.
Definition sub (a b : Mesh) : Mesh := mesh_zip Qminus a b.
Definition mul (a b : Mesh) : Mesh := mesh_zip Qmult a b.
Definition scale (k : Q) (m : Mesh) : Mesh := mesh_map (Qmult k) m.
Definition sub_scalar (m : Mesh) (k : Q) : Mesh := mesh_map (fun x => x - k) m.
Definition div_scalar (m : Mesh) (k : Q) : Mesh := mesh_map (fun x => x / k) m.

(** [np.full_like(m, v)], [np.zeros_like(m)], [np.ones((r, c))] *)
Definition full_like (m : Mesh) (v : Q) : Mesh := mesh_map (fun _ => v) m.
Definition ones (r c : nat) : Mesh := mesh_tab r c (fun _ _ => 1).

(** [arr[x0:x1, y0:y1]] *)
Definition slice {A} (lo hi : nat) (l : list A) : list A :=
  firstn (hi - lo) (skipn lo l).

Definition block (x0 x1 y0 y1 : nat) (m : Mesh) : Mesh :=
  map (slice y0 y1) (slice x0 x1 m).

(** [arr[x0:x1, y0:y1] += h]; [i] is the index of the head of the list. *)
Definition in_range (lo hi i : nat) : bool := Nat.leb lo i && Nat.ltb i hi.

Fixpoint map_range {A} (f : A -> A) (lo hi : nat) (i : nat) (l : list A) : list A :=
  match l with
  | [] => []
  | x :: t => (if in_range lo hi i then f x else x) :: map_range f lo hi (S i) t
  end.

Definition add_block (x0 x1 y0 y1 : nat) (h : Q) (m : Mesh) : Mesh :=
  map_range (map_range (fun v => v + h) y0 y1 0) x0 x1 0 m.

(** Reductions over all cells. *)
Definition qsum (l : list Q) : Q := fold_right Qplus 0 l.
Definition flat (m : Mesh) : list Q := concat m.
Definition size (m : Mesh) : nat := length (flat m).

Definition list_mean (l : list Q) : Q := qsum l / inject_Z (Z.of_nat (length l)).
Definition mean (m : Mesh) : Q := list_mean (flat m).

Definition list_max (l : list Q) : Q :=
  match l with
  | [] => 0
  | x :: t => fold_left Qmax t x
  end.

Definition list_min (l : list Q) : Q :=
  match l with
  | [] => 0
  | x :: t => fold_left Qmin t x
  end.

Definition max (m : Mesh) : Q := list_max (flat m).
Definition min (m : Mesh) : Q := list_min (flat m).

(** [np.any(arr)]: some cell is non-zero. *)
Definition any (m : Mesh) : bool := existsb (fun v => Qneb v 0) (flat m).

(** [arr.shape], read off the first row. *)
Definition shape (m : Mesh) : nat * nat := (length m, length (hd [] m)).

(** [np.sqrt] on a non-negative rational: the square root rounded down to a
    multiple of [1 / (den * 2^52)].  It is exact on the square of a rational
    ([sqrt(25) = 5], [sqrt(9/4) = 3/2]), as the IEEE square root is exact on
    squares of floats; elsewhere it carries a rounding, as the IEEE one does. *)
Definition sqrt (q : Q) : Q :=
  Z.sqrt (Qnum q * Z.pos (Qden q) * 4 ^ 52) # (Qden q * 2 ^ 52)%positive.

(** [np.linspace(start, stop, num)[i]] *)
Definition linspace (start stop : Q) (num : nat) (i : nat) : Q :=
  start + inject_Z (Z.of_nat i) * ((stop - start) / inject_Z (Z.of_nat num - 1)).

(** Pointwise equality of arrays of one shape. *)
Definition mesh_eq (a b : Mesh) : Prop := Forall2 (Forall2 Qeq) a b.

End Np.

Abbreviation Mesh := Np.Mesh.

(** ** hardware/screw.py *)

Module Screw.

Inductive RotationDirection := CLOCKWISE | COUNTERCLOCKWISE.

Definition RotationDirection_eqb (a b : RotationDirection) : bool :=
  match a, b with
  | CLOCKWISE, CLOCKWISE | COUNTERCLOCKWISE, COUNTERCLOCKWISE => true
  | _, _ => false
  end.

Record ScrewConfig := mkScrewConfig {
  pitch : Q;
  min_adjust : Q;
  max_adjust : Q
}.

(** [ScrewConfig()]: M4 screw, pitch 0.7, min 0.1, max 2.0 *)
Definition default_config : ScrewConfig := mkScrewConfig (7 # 10) (1 # 10) 2.

Definition MM_PER_MINUTE (cfg : ScrewConfig) : Q := pitch cfg / 60.
Definition MM_PER_DEGREE (cfg : ScrewConfig) : Q := pitch cfg / 360.

Definition calculate_adjustment (cfg : ScrewConfig) (current_height target_height : Q)
  : Q * RotationDirection :=
  let diff := current_height - target_height in
  if Qltb (Qabs diff) (min_adjust cfg) then (0, CLOCKWISE)
  else
    let direction := if Qgtb diff 0 then CLOCKWISE else COUNTERCLOCKWISE in
    let minutes := Qmin (Qabs diff / MM_PER_MINUTE cfg)
                        (max_adjust cfg / MM_PER_MINUTE cfg) in
    (minutes, direction).

Definition minutes_to_degrees (minutes : Q) : Q := minutes * 6.

Definition height_change_from_minutes (cfg : ScrewConfig) (minutes : Q)
  (direction : RotationDirection) : Q :=
  let height_change := minutes * MM_PER_MINUTE cfg in
  if RotationDirection_eqb direction CLOCKWISE then - height_change else height_change.

Definition height_change_from_degrees (cfg : ScrewConfig) (degrees : Q)
  (direction : RotationDirection) : Q :=
  let height_change := degrees * MM_PER_DEGREE cfg in
  if RotationDirection_eqb direction CLOCKWISE then - height_change else height_change.

End Screw.

(** ** hardware/bed.py *)

Module Bed.

Record BedConfig := mkBedConfig {
  size_x : Q;
  size_y : Q;
  mesh_points_x : nat;
  mesh_points_y : nat
}.

Inductive Corner := front_left | front_right | back_left | back_right.

Definition Corner_eqb (a b : Corner) : bool :=
  match a, b with
  | front_left, front_left | front_right, front_right
  | back_left, back_left | back_right, back_right => true
  | _, _ => false
  end.

(** The keys of [Bed.corners], in the dictionary's insertion order. *)
Definition corner_keys : list Corner := [front_left; front_right; back_left; back_right].

Definition corner_of_name (s : string) : option Corner :=
  if String.eqb s "front_left" then Some front_left
  else if String.eqb s "front_right" then Some front_right
  else if String.eqb s "back_left" then Some back_left
  else if String.eqb s "back_right" then Some back_right
  else None.

(** [Bed.corners[corner]] *)
Definition corners (cfg : BedConfig) (c : Corner) : nat * nat :=
  match c with
  | front_left => (0, 0)%nat
  | front_right => (0, mesh_points_y cfg - 1)%nat
  | back_left => (mesh_points_x cfg - 1, 0)%nat
  | back_right => (mesh_points_x cfg - 1, mesh_points_y cfg - 1)%nat
  end.

Record Bed := mkBed {
  config : BedConfig;
  mesh_data : option Mesh
}.

(** [Bed(config)] *)
Definition init (cfg : BedConfig) : Bed := mkBed cfg None.

Definition set_mesh_data (b : Bed) (data : Mesh) : result Bed :=
  if Np.has_shapeb (mesh_points_x (config b)) (mesh_points_y (config b)) data
  then Ok (mkBed (config b) (Some data))
  else Raise ShapeMismatchError.

(** The body of [get_corner_height] once the mesh and the corner are known. *)
Definition corner_height (cfg : BedConfig) (m : Mesh) (c : Corner) (area_size : nat) : Q :=
  let '(x, y) := corners cfg c in
  let x_start := Nat.max 0 (x - area_size) in
  let x_end := Nat.min (mesh_points_x cfg) (x + area_size + 1) in
  let y_start := Nat.max 0 (y - area_size) in
  let y_end := Nat.min (mesh_points_y cfg) (y + area_size + 1) in
  Np.mean (Np.block x_start x_end y_start y_end m).

Definition get_corner_height (b : Bed) (corner : string) (area_size : nat) : result Q :=
  match mesh_data b with
  | None => Raise DataNotSetError
  | Some m =>
      match corner_of_name corner with
      | None => Raise UnknownCornerError
      | Some c => Ok (corner_height (config b) m c area_size)
      end
  end.

Definition get_mesh_stats (b : Bed) : result (Q * Q * Q) :=
  match mesh_data b with
  | None => Raise DataNotSetError
  | Some m => Ok (Np.mean m, Np.min m, Np.max m)
  end.

Definition get_point_height (b : Bed) (x y : Z) : result Q :=
  match mesh_data b with
  | None => Raise DataNotSetError
  | Some m =>
      if ((0 <=? x)%Z && (x <? Z.of_nat (mesh_points_x (config b)))%Z
          && (0 <=? y)%Z && (y <? Z.of_nat (mesh_points_y (config b)))%Z)%bool
      then Ok (Np.get m (Z.to_nat x) (Z.to_nat y))
      else Raise OutOfRangeError
  end.

Definition get_mm_per_point (cfg : BedConfig) : Q * Q :=
  (size_x cfg / inject_Z (Z.of_nat (mesh_points_x cfg) - 1),
   size_y cfg / inject_Z (Z.of_nat (mesh_points_y cfg) - 1)).

(** The body of [generate_ideal_plane] once the mesh is known. *)
Definition ideal_plane (m : Mesh) : Mesh := Np.full_like m (Np.mean m).

Definition generate_ideal_plane (b : Bed) : result Mesh :=
  match mesh_data b with
  | None => Raise DataNotSetError
  | Some m => Ok (ideal_plane m)
  end.

Definition calculate_deviation_map (b : Bed) : result Mesh :=
  match mesh_data b with
  | None => Raise DataNotSetError
  | Some m => Ok (Np.sub m (ideal_plane m))
  end.

(** The influence matrix that [simulate_adjustment] fills for a corner. *)
Definition adjustment_influence (cfg : BedConfig) (c : Corner) : Mesh :=
  let '(x, y) := corners cfg c in
  Np.mesh_tab (mesh_points_x cfg) (mesh_points_y cfg)
    (fun i j =>
       let distance :=
         Np.sqrt (inject_Z ((Z.of_nat i - Z.of_nat x) ^ 2 + (Z.of_nat j - Z.of_nat y) ^ 2)) in
       let max_distance :=
         Np.sqrt (inject_Z ((Z.of_nat (mesh_points_x cfg) - 1) ^ 2
                            + (Z.of_nat (mesh_points_y cfg) - 1) ^ 2)) in
       Qmax 0 (1 - distance / max_distance)).

(** [corner_adjustments] is the dictionary [{corner name: height change}],
    in insertion order. *)
Definition simulate_adjustment (b : Bed) (corner_adjustments : list (string * Q))
  : result Mesh :=
  match mesh_data b with
  | None => Raise DataNotSetError
  | Some m =>
      Ok (fold_left
            (fun adjusted_mesh '(corner, adjustment) =>
               match corner_of_name corner with
               | None => adjusted_mesh
               | Some c =>
                   Np.add adjusted_mesh
                     (Np.scale adjustment (adjustment_influence (config b) c))
               end)
            corner_adjustments m)
  end.

End Bed.

(** ** algorithms/screw_solver.py *)

Module ScrewSolver.
Import Bed Screw.

Record ScrewAdjustment := mkScrewAdjustment {
  corner : Corner;
  minutes : Q;
  degrees : Q;
  direction : RotationDirection;
  current_height : Q;
  target_height : Q;
  priority : Z;
  turns : Q
}.

(** The solver holds its bed and the screw configuration; [screws] holds one
    [Screw] of that configuration per corner, and [corner_weights] is rebuilt
    from the bed's configuration by [_compute_corner_weights]. *)
Record ScrewSolver := mkScrewSolver {
  bed : Bed.Bed;
  screw_config : ScrewConfig
}.

Definition row_factors (rows : nat) : list Q := map (Np.linspace 0 1 rows) (seq 0 rows).
Definition col_factors (cols : nat) : list Q := map (Np.linspace 0 1 cols) (seq 0 cols).

(** A column vector times a row vector, as broadcasting computes it. *)
Definition outer (f : Q -> Q -> Q) (rf cf : list Q) : Mesh :=
  map (fun r => map (fun c => f r c) cf) rf.

Definition bilinear (cfg : BedConfig) (c : Corner) : Mesh :=
  let rf := row_factors (mesh_points_x cfg) in
  let cf := col_factors (mesh_points_y cfg) in
  match c with
  | front_left => outer (fun r c => (1 - r) * (1 - c)) rf cf
  | front_right => outer (fun r c => (1 - r) * c) rf cf
  | back_left => outer (fun r c => r * (1 - c)) rf cf
  | back_right => outer (fun r c => r * c) rf cf
  end.

Definition total_weight (cfg : BedConfig) : Mesh :=
  Np.add (Np.add (Np.add (Np.mesh_map (Qplus 0) (bilinear cfg front_left))
                         (bilinear cfg front_right))
                 (bilinear cfg back_left))
         (bilinear cfg back_right).

Definition correction (cfg : BedConfig) : Mesh :=
  Np.mesh_map (fun t => if Qneb t 0 then 1 / t else 0) (total_weight cfg).

Definition _compute_corner_weights (cfg : BedConfig) (c : Corner) : Mesh :=
  let rows := mesh_points_x cfg in
  let cols := mesh_points_y cfg in
  if Nat.ltb rows 2 || Nat.ltb cols 2 then Np.ones rows cols
  else Np.mul (bilinear cfg c) (correction cfg).

Definition corner_weights (s : ScrewSolver) (c : Corner) : Mesh :=
  _compute_corner_weights (config (bed s)) c.

Definition _calculate_priority (deviation : Q) : Z :=
  if Qgtb deviation (4 # 10) then 1%Z
  else if Qgtb deviation (3 # 10) then 2%Z
  else if Qgtb deviation (2 # 10) then 3%Z
  else 4%Z.

Definition sort_key (a : ScrewAdjustment) : Z * Q :=
  (priority a, - Qabs (current_height a - target_height a)).

(** One turn of the loop of [calculate_adjustments]. *)
Definition adjustment_for (s : ScrewSolver) (m ideal_plane : Mesh) (c : Corner)
  : list ScrewAdjustment :=
  let '(x, y) := corners (config (bed s)) c in
  let current_height := corner_height (config (bed s)) m c 1 in
  let target_height := Np.get ideal_plane x y in
  let '(minutes, direction) :=
    calculate_adjustment (screw_config s) current_height target_height in
  if Qgtb minutes 0 then
    let deviation := Qabs (current_height - target_height) in
    [mkScrewAdjustment c minutes (minutes_to_degrees minutes) direction
       current_height target_height (_calculate_priority deviation) (minutes / 60)]
  else [].

Definition calculate_adjustments (s : ScrewSolver) (ideal_plane : Mesh)
  : result (list ScrewAdjustment) :=
  match mesh_data (bed s) with
  | None => Raise DataNotSetError
  | Some m =>
      Ok (py_sorted (fun a b => key_ltb (sort_key a) (sort_key b))
            (flat_map (adjustment_for s m ideal_plane) corner_keys))
  end.

(** [base_mesh=None] falls back on the bed's mesh. *)
Definition mesh_source (s : ScrewSolver) (base_mesh : option Mesh) : result Mesh :=
  match base_mesh with
  | Some m => Ok m
  | None =>
      match mesh_data (bed s) with
      | Some m => Ok m
      | None => Raise MeshNotAvailable
      end
  end.

Definition simulate_adjustment (s : ScrewSolver) (adjustment : ScrewAdjustment)
  (base_mesh : option Mesh) : result Mesh :=
  simulated_mesh <- mesh_source s base_mesh ;;
  let height_change :=
    height_change_from_minutes (screw_config s) (minutes adjustment) (direction adjustment) in
  let weight_map := corner_weights s (corner adjustment) in
  Ok (Np.add simulated_mesh (Np.scale height_change weight_map)).

(** The mesh that [simulate_adjustment] returns for the mesh [mesh]. *)
Definition adjusted (s : ScrewSolver) (mesh : Mesh) (adjustment : ScrewAdjustment) : Mesh :=
  Np.add mesh
    (Np.scale (height_change_from_minutes (screw_config s) (minutes adjustment)
                 (direction adjustment))
              (corner_weights s (corner adjustment))).

Definition simulate_sequence (s : ScrewSolver) (adjustments : list ScrewAdjustment)
  (base_mesh : option Mesh) : result Mesh :=
  simulated_mesh <- mesh_source s base_mesh ;;
  fold_left
    (fun acc adjustment => mesh <- acc ;; simulate_adjustment s adjustment (Some mesh))
    adjustments (Ok simulated_mesh).

(** [np.max(np.abs(mesh - np.mean(mesh)))] *)
Definition max_abs_deviation (mesh : Mesh) : Q :=
  Np.max (Np.mesh_map Qabs (Np.sub_scalar mesh (Np.mean mesh))).

Definition estimate_total_improvement (s : ScrewSolver) (adjustments : list ScrewAdjustment)
  : result Q :=
  let current_mesh := mesh_data (bed s) in
  simulated_mesh <- simulate_sequence s adjustments current_mesh ;;
  match current_mesh with
  | None => Raise MeshNotAvailable
  | Some current =>
      let current_deviation := max_abs_deviation current in
      let simulated_deviation := max_abs_deviation simulated_mesh in
      Ok (current_deviation - simulated_deviation)
  end.

End ScrewSolver.

(** ** algorithms/tape_calculator.py *)

Module TapeCalculator.
Import Bed.

Record TapeSpot := mkTapeSpot {
  x : nat;
  y : nat;
  layers : Z;
  height_diff : Q;
  priority : Z;
  area_size : Q
}.

Record TapeCalculator := mkTapeCalculator {
  bed : Bed.Bed;
  tape_thickness : Q;
  min_height_diff : Q
}.

Definition _calculate_priority (height_diff : Q) : Z :=
  if Qgtb height_diff (3 # 10) then 1%Z
  else if Qgtb height_diff (2 # 10) then 2%Z
  else 3%Z.

Definition _is_near_screw (t : TapeCalculator) (x y : nat) : bool :=
  existsb (fun c => let '(corner_x, corner_y) := corners (config (bed t)) c in
                    Nat.eqb x corner_x && Nat.eqb y corner_y) corner_keys.

Definition _calculate_area_size (t : TapeCalculator) (x y : nat) (height_diff : Q) : Q :=
  let '(x_step, y_step) := get_mm_per_point (config (bed t)) in
  let base_area := x_step * y_step in
  if Qgtb height_diff (3 # 10) then base_area * (15 # 10) else base_area.

(** [max(1, int(np.ceil(diff / tape_thickness)))] *)
Definition layers_for (t : TapeCalculator) (diff : Q) : Z :=
  Z.max 1 (Qceiling (diff / tape_thickness t)).

(** The body of the double loop of [find_low_spots] at one cell. *)
Definition spot_at (t : TapeCalculator) (simulated_mesh : Mesh) (mean_height : Q)
  (cell : nat * nat) : list TapeSpot :=
  let '(x, y) := cell in
  if _is_near_screw t x y then []
  else
    let height := Np.get simulated_mesh x y in
    let diff := mean_height - height in
    if Qgtb diff (min_height_diff t) then
      [mkTapeSpot x y (layers_for t diff) diff (_calculate_priority diff)
         (_calculate_area_size t x y diff)]
    else [].

(** [for x in range(rows): for y in range(cols)] *)
Definition grid_cells (cfg : BedConfig) : list (nat * nat) :=
  list_prod (seq 0 (mesh_points_x cfg)) (seq 0 (mesh_points_y cfg)).

Definition sort_key (s : TapeSpot) : Z * Q := (priority s, - height_diff s).

Definition find_low_spots (t : TapeCalculator) (simulated_mesh : Mesh) : list TapeSpot :=
  let mean_height := Np.mean simulated_mesh in
  let spots := flat_map (spot_at t simulated_mesh mean_height) (grid_cells (config (bed t))) in
  py_sorted (fun a b => key_ltb (sort_key a) (sort_key b)) spots.

Definition coord_eqb (a b : nat * nat) : bool :=
  Nat.eqb (fst a) (fst b) && Nat.eqb (snd a) (snd b).

Definition in_used (used : list (nat * nat)) (s : TapeSpot) : bool :=
  existsb (coord_eqb (x s, y s)) used.

(** [abs(a - b) <= 1] on grid indices *)
Definition adjacent (a b : nat) : bool := Nat.leb (a - b) 1 && Nat.leb (b - a) 1.

Definition nat_mean (l : list nat) : Q :=
  Np.list_mean (map (fun n => inject_Z (Z.of_nat n)) l).

Definition z_min (l : list Z) (d : Z) : Z :=
  match l with
  | [] => d
  | p :: t => fold_left Z.min t p
  end.

(** One turn of the loop of [optimize_tape_layout]; the state is
    [(optimized, used)]. *)
Definition optimize_step (t : TapeCalculator) (spots : list TapeSpot)
  (st : list TapeSpot * list (nat * nat)) (spot : TapeSpot)
  : list TapeSpot * list (nat * nat) :=
  let '(optimized, used) := st in
  if in_used used spot then st
  else
    let nearby :=
      filter (fun s => adjacent (x s) (x spot) && adjacent (y s) (y spot)
                       && negb (in_used used s)) spots in
    match nearby with
    | [] => (optimized ++ [spot], used ++ [(x spot, y spot)])
    | _ :: _ =>
        let avg_diff := Np.list_mean (map height_diff nearby) in
        let avg_layers := layers_for t avg_diff in
        let total_area := fold_left Qplus (map area_size nearby) 0 in
        let center :=
          if Nat.ltb 1 (length nearby) then
            match py_min_by
                    (fun s => Qabs (inject_Z (Z.of_nat (x s)) - nat_mean (map x nearby))
                              + Qabs (inject_Z (Z.of_nat (y s)) - nat_mean (map y nearby)))
                    nearby with
            | Some c => c
            | None => spot
            end
          else spot in
        (optimized ++ [mkTapeSpot (x center) (y center) avg_layers avg_diff
                         (z_min (map priority nearby) (priority spot)) total_area],
         used ++ map (fun s => (x s, y s)) nearby)
    end.

Definition optimize_tape_layout (t : TapeCalculator) (spots : list TapeSpot) : list TapeSpot :=
  fst (fold_left (optimize_step t spots) spots ([], [])).

(** The body of the loop of [apply_spots]. *)
Definition apply_spot (t : TapeCalculator) (simulated_mesh : Mesh) (spot : TapeSpot) : Mesh :=
  let height_increase := inject_Z (layers spot) * tape_thickness t in
  let x_start := Nat.max 0 (x spot - 1) in
  let x_end := Nat.min (mesh_points_x (config (bed t))) (x spot + 2) in
  let y_start := Nat.max 0 (y spot - 1) in
  let y_end := Nat.min (mesh_points_y (config (bed t))) (y spot + 2) in
  Np.add_block x_start x_end y_start y_end height_increase simulated_mesh.

Definition apply_spots (t : TapeCalculator) (base_mesh : Mesh) (spots : list TapeSpot) : Mesh :=
  fold_left (apply_spot t) spots base_mesh.

(** The grid cell of a spot. *)
Definition coord (s : TapeSpot) : nat * nat := (x s, y s).

(** [mean_height - height] at a cell, and the two tests that a cell passes
    before [find_low_spots] records a spot for it. *)
Definition deficit (mesh : Mesh) (cell : nat * nat) : Q :=
  Np.mean mesh - Np.get mesh (fst cell) (snd cell).

Definition is_low (t : TapeCalculator) (mesh : Mesh) (cell : nat * nat) : bool :=
  negb (_is_near_screw t (fst cell) (snd cell))
  && Qgtb (deficit mesh cell) (min_height_diff t).

(** The order of the returned list: priority ascending, then deficit
    descending. *)
Definition before (a b : TapeSpot) : Prop :=
  (priority a < priority b)%Z \/
  (priority a = priority b /\ height_diff b <= height_diff a).

(** The cells [x_start:x_end, y_start:y_end] of a spot: its 3x3
    neighbourhood clamped to the grid. *)
Definition in_neighbourhood (t : TapeCalculator) (spot : TapeSpot) (i j : nat) : Prop :=
  (Nat.max 0 (x spot - 1) <= i < Nat.min (mesh_points_x (config (bed t))) (x spot + 2))%nat /\
  (Nat.max 0 (y spot - 1) <= j < Nat.min (mesh_points_y (config (bed t))) (y spot + 2))%nat.

(** The test behind [in_neighbourhood]: the cell lies in the slice that
    [apply_spots] raises for the spot. *)
Definition covers (t : TapeCalculator) (spot : TapeSpot) (i j : nat) : bool :=
  Np.in_range (Nat.max 0 (x spot - 1))
              (Nat.min (mesh_points_x (config (bed t))) (x spot + 2)) i
  && Np.in_range (Nat.max 0 (y spot - 1))
                 (Nat.min (mesh_points_y (config (bed t))) (y spot + 2)) j.

End TapeCalculator.

(** ** algorithms/deviation_analyzer.py *)

Module DeviationAnalyzer.
Import Bed Screw.

Record DeviationAnalyzer := mkDeviationAnalyzer {
  bed : Bed.Bed;
  corner_averaging_size : nat;
  screw_threshold : Q;
  tape_threshold : Q;
  screw_config : ScrewConfig
}.

Definition get_ideal_plane (a : DeviationAnalyzer) : result Mesh :=
  generate_ideal_plane (bed a).

(** [np.sqrt((i - x)**2 + (j - y)**2)] on grid indices *)
Definition grid_distance (i j x y : nat) : Q :=
  Np.sqrt (inject_Z ((Z.of_nat i - Z.of_nat x) ^ 2 + (Z.of_nat j - Z.of_nat y) ^ 2)).

Definition max_distance (cfg : BedConfig) : Q :=
  Np.sqrt (inject_Z ((Z.of_nat (mesh_points_x cfg) - 1) ^ 2
                     + (Z.of_nat (mesh_points_y cfg) - 1) ^ 2)).

(** [max(0, 1 - (distance / max_distance))] at the cell [(i, j)], for the
    corner [c]. *)
Definition radial (cfg : BedConfig) (c : Corner) (i j : nat) : Q :=
  let '(x, y) := corners cfg c in
  Qmax 0 (1 - grid_distance i j x y / max_distance cfg).

(** The influence matrix filled by the inner double loop. *)
Definition influence (cfg : BedConfig) (c : Corner) : Mesh :=
  Np.mesh_tab (mesh_points_x cfg) (mesh_points_y cfg) (radial cfg c).

(** [actions[corner] = (minutes, direction)] *)
Definition corner_action (a : DeviationAnalyzer) (m ideal_plane : Mesh) (c : Corner)
  : Q * RotationDirection :=
  let '(x, y) := corners (config (bed a)) c in
  let current_height := corner_height (config (bed a)) m c 1 in
  let target_height := Np.get ideal_plane x y in
  calculate_adjustment (screw_config a) current_height target_height.

Definition estimate_bed_after_screw_adjustment (a : DeviationAnalyzer) : result Mesh :=
  match mesh_data (bed a) with
  | None => Raise DataNotSetError
  | Some m =>
      ideal_plane <- get_ideal_plane a ;;
      let actions := map (fun c => (c, corner_action a m ideal_plane c)) corner_keys in
      Ok (fold_left
            (fun simulated_mesh '(c, (minutes, direction)) =>
               let height_change :=
                 height_change_from_minutes (screw_config a) minutes direction in
               Np.add simulated_mesh (Np.scale height_change (influence (config (bed a)) c)))
            actions m)
  end.

(** The height change that the second loop applies for a corner of a bed
    whose mesh is [m]. *)
Definition corner_height_change (a : DeviationAnalyzer) (m : Mesh) (c : Corner) : Q :=
  let '(minutes, direction) := corner_action a m (ideal_plane m) c in
  height_change_from_minutes (screw_config a) minutes direction.

(** [np.max(np.abs(mesh - np.mean(mesh)))] *)
Definition max_abs_deviation (m : Mesh) : Q :=
  Np.max (Np.mesh_map Qabs (Np.sub_scalar m (Np.mean m))).

Record Strategy := mkStrategy {
  original_deviation : Q;
  deviation_after_screws : Q;
  needs_screws : bool;
  needs_tape : bool;
  expected_final_deviation : Q;
  simulated_bed_after_screws : Mesh
}.

Definition find_optimal_strategy (a : DeviationAnalyzer) : result Strategy :=
  match mesh_data (bed a) with
  | None => Raise DataNotSetError
  | Some m =>
      let original_deviation := max_abs_deviation m in
      bed_after_screws <- estimate_bed_after_screw_adjustment a ;;
      let deviation_after_screws := max_abs_deviation bed_after_screws in
      let needs_tape := Qgtb deviation_after_screws (tape_threshold a) in
      Ok (mkStrategy original_deviation deviation_after_screws
            (Qgtb original_deviation (screw_threshold a))
            needs_tape
            (if negb needs_tape then deviation_after_screws else tape_threshold a)
            bed_after_screws)
  end.

Record DeviationStats := mkDeviationStats {
  mean_height : Q;
  max_deviation : Q;
  corner_deviations : list (Corner * Q);
  has_critical_deviation : bool
}.

Record LevelingStage := mkLevelingStage {
  needs_screw_adjustment : bool;
  can_use_screws : bool;
  stage_needs_tape : bool;
  max_corner_diff : Q;
  problematic_corners : list Corner
}.

Definition get_stats (a : DeviationAnalyzer) : result DeviationStats :=
  match mesh_data (bed a) with
  | None => Raise DataNotSetError
  | Some m =>
      let mean_height := Np.mean m in
      let corner_deviations :=
        map (fun c =>
               let height := corner_height (config (bed a)) m c (corner_averaging_size a) in
               (c, Qabs (height - mean_height)))
            corner_keys in
      let max_deviation := Np.list_max (map snd corner_deviations) in
      let has_critical := Qgtb max_deviation (screw_threshold a) in
      Ok (mkDeviationStats mean_height max_deviation corner_deviations has_critical)
  end.

Definition analyze_leveling_stage (a : DeviationAnalyzer) : result LevelingStage :=
  stats <- get_stats a ;;
  match mesh_data (bed a) with
  | None => Raise DataNotSetError
  | Some m =>
      let heights :=
        map (fun c => corner_height (config (bed a)) m c (corner_averaging_size a))
            corner_keys in
      let max_corner_diff := Np.list_max heights - Np.list_min heights in
      let problematic :=
        map fst (filter (fun cd => Qgtb (snd cd) (tape_threshold a))
                        (corner_deviations stats)) in
      let can_use_screws := Qle_bool max_corner_diff (max_adjust (screw_config a)) in
      let needs_screw_adjustment := Qgtb (max_deviation stats) (screw_threshold a) in
      let needs_tape := Qgtb (max_deviation stats) (tape_threshold a) in
      Ok (mkLevelingStage needs_screw_adjustment can_use_screws needs_tape
            max_corner_diff problematic)
  end.

Definition get_corner_actions (a : DeviationAnalyzer)
  : result (list (Corner * (Q * RotationDirection))) :=
  ideal_plane <- get_ideal_plane a ;;
  match mesh_data (bed a) with
  | None => Raise DataNotSetError
  | Some m =>
      Ok (map (fun c =>
                 let '(x, y) := corners (config (bed a)) c in
                 let current_height :=
                   corner_height (config (bed a)) m c (corner_averaging_size a) in
                 let target_height := Np.get ideal_plane x y in
                 (c, calculate_adjustment (screw_config a) current_height target_height))
              corner_keys)
  end.

(** The post-screw simulation as the specification words it: the Screw
    Solver's influence model applied to the adjustments the solver computes
    against the ideal plane.  It is not part of the source; it is what
    [estimate_bed_after_screw_adjustment] is compared with. *)
Definition spec_estimate_bed_after_screw_adjustment (a : DeviationAnalyzer)
  (solver : ScrewSolver.ScrewSolver) : result Mesh :=
  ideal_plane <- get_ideal_plane a ;;
  adjustments <- ScrewSolver.calculate_adjustments solver ideal_plane ;;
  ScrewSolver.simulate_sequence solver adjustments None.

End DeviationAnalyzer.

(** ** workflow/models.py *)

Module Models.

Inductive MetaValue :=
| MFloat (q : Q)
| MInt (z : Z)
| MStr (s : string).

Definition Metadata := list (string * MetaValue).

Fixpoint meta_get (d : Metadata) (key : string) : option MetaValue :=
  match d with
  | [] => None
  | (k, v) :: t => if String.eqb k key then Some v else meta_get t key
  end.

(** [d[key] = v] *)
Fixpoint meta_set (d : Metadata) (key : string) (v : MetaValue) : Metadata :=
  match d with
  | [] => [(key, v)]
  | (k, w) :: t => if String.eqb k key then (k, v) :: t else (k, w) :: meta_set t key v
  end.

(** [d.get(key, default)] read as a float *)
Definition meta_get_float (d : Metadata) (key : string) (default : Q) : Q :=
  match meta_get d key with
  | Some (MFloat q) => q
  | Some (MInt z) => inject_Z z
  | _ => default
  end.

Record StageAction := mkStageAction {
  kind : string;
  identifier : string;
  label : string;
  direction : option string;
  magnitude_mm : option Q;
  teeth : option Z;
  minutes : option Q;
  degrees : option Q;
  metadata : Metadata
}.

Record StageResult := mkStageResult {
  key : string;
  stage_label : string;
  description : string;
  enabled : bool;
  deviation : Q;
  baseline : option Q;
  mesh : Mesh;
  actions : list StageAction;
  warnings : list string;
  help_key : option string
}.

End Models.

(** ** workflow/calculators.py *)

Module Calculators.
Import Bed Models.

Definition FRONT_SHAFT_GAIN : Q := 16 # 10.
Definition BACK_SHAFT_GAIN : Q := 4 # 10.

(** The recognised groups of the settings dictionary.  A key that the source
    reads with [d[key]] is a field, one that it reads with [d.get(key, default)]
    is an optional field. *)
Record Thresholds := mkThresholds {
  belt_threshold : option Q;
  screw_threshold : Q
}.

Record Hardware := mkHardware {
  belt_tooth_mm : option Q;
  tape_thickness : Q
}.

Record WorkflowFlags := mkWorkflowFlags {
  enable_belt : option bool;
  enable_screws : option bool;
  enable_tape : option bool
}.

Record Environment := mkEnvironment {
  env_measurement_temp : option Q;
  env_target_temp : option Q;
  thermal_expansion_coeff : option Q
}.

Record ThermalModel := mkThermalModel {
  name : option string;
  measurement_temp : option Q;
  target_temp : option Q;
  chamber_factor : option Q;
  pei_thickness : option Q;
  steel_thickness : option Q;
  alpha_pei : option Q;
  alpha_steel : option Q;
  beta_uniform : option Q
}.

Record Settings := mkSettings {
  thresholds : Thresholds;
  hardware : Hardware;
  workflow : WorkflowFlags;
  environment : Environment;
  thermal_model : option ThermalModel
}.

(** [d.get(key, default)] *)
Definition get_or {A} (o : option A) (default : A) : A :=
  match o with
  | Some v => v
  | None => default
  end.

Definition compute_stage_deviation (mesh : Mesh) : Q := Np.max mesh - Np.min mesh.

Definition compute_initial_stage (mesh : Mesh) : StageResult :=
  let deviation := compute_stage_deviation mesh in
  mkStageResult "initial" "visual_rec.stage_initial" "visual_rec.stage_initial_details"
    true deviation None mesh [] [] (Some "visual_rec.help.initial"%string).

Definition _format_corner_name (side : string) : string :=
  if String.eqb side "front_left" then "visual_rec.front_left"
  else if String.eqb side "front_right" then "visual_rec.front_right"
  else if String.eqb side "back_left" then "visual_rec.back_left"
  else if String.eqb side "back_right" then "visual_rec.back_right"
  else if String.eqb side "back_center" then "visual_rec.back_center"
  else side.

(** The solver's weight dictionary always holds its four corners, so the
    first branch of the source is the one taken. *)
Definition _build_corner_weights (solver : ScrewSolver.ScrewSolver) : Corner -> Mesh :=
  ScrewSolver.corner_weights solver.

Definition _normalise_mesh_load (base_mesh adjusted_mesh : Mesh) : Mesh :=
  let offset := Np.mean (Np.sub adjusted_mesh base_mesh) in
  if Qltb (Qabs offset) (1 # 1000000000) then adjusted_mesh
  else Np.sub_scalar adjusted_mesh offset.

Definition belt_teeth (diff tooth_mm : Q) : Z :=
  Z.max 1 (Qceiling (Qabs diff / tooth_mm)).

Definition _calculate_belt_adjustments (bed : Bed.Bed) (solver : ScrewSolver.ScrewSolver)
  (threshold tooth_mm : Q) : result (list (string * StageAction)) :=
  match mesh_data bed with
  | None => Raise NoneTypeError
  | Some mesh =>
      let '(rows, cols) := Np.shape mesh in
      let left_front := Np.get mesh 0 0 in
      let right_front := Np.get mesh 0 (cols - 1) in
      let back_center := Np.get mesh (rows - 1) (cols / 2) in
      let front_avg := (left_front + right_front) / 2 in
      let lr_diff := right_front - left_front in
      let adjustments1 :=
        if Qgtb (Qabs lr_diff) threshold then
          let teeth := belt_teeth lr_diff tooth_mm in
          let delta_mm := inject_Z teeth * tooth_mm in
          let target_corner := (if Qgtb lr_diff 0 then "front_left" else "front_right")%string in
          [(target_corner,
            mkStageAction "belt" target_corner (_format_corner_name target_corner)
              (Some "up") (Some delta_mm) (Some teeth) None None
              [("sign", MFloat 1); ("gain", MFloat FRONT_SHAFT_GAIN);
               ("raw_difference", MFloat lr_diff); ("load_bias", MStr "front")])]%string
        else [] in
      let back_diff := back_center - front_avg in
      let adjustments2 :=
        if Qgtb (Qabs back_diff) threshold then
          let teeth := belt_teeth back_diff tooth_mm in
          let delta_mm := inject_Z teeth * tooth_mm in
          let direction := (if Qltb back_diff 0 then "up" else "down")%string in
          let sign := if String.eqb direction "up" then 1 else -1 in
          [("back",
            mkStageAction "belt" "back" (_format_corner_name "back_center")
              (Some direction) (Some delta_mm) (Some teeth) None None
              [("sign", MFloat sign); ("gain", MFloat BACK_SHAFT_GAIN);
               ("raw_difference", MFloat back_diff); ("load_bias", MStr "support")])]%string
        else [] in
      Ok (adjustments1 ++ adjustments2)
  end.

(** The influence map picked for an identifier; [None] is the [continue]. *)
Definition belt_influence (weights : Corner -> Mesh) (identifier : string) : option Mesh :=
  if String.eqb identifier "front_left" then Some (weights front_left)
  else if String.eqb identifier "front_right" then Some (weights front_right)
  else if String.eqb identifier "back" then
    Some (Np.div_scalar (Np.add (weights back_left) (weights back_right)) 2)
  else None.

(** The closure [apply_to_corner]: the new value of [result]. *)
Definition apply_to_corner (result : Mesh) (delta_mm : Q) (influence : Mesh) : Mesh :=
  let scaled :=
    if Qneb (Np.max influence) 0 then Np.div_scalar influence (Np.max influence)
    else influence in
  Np.add result (Np.scale delta_mm scaled).

Definition belt_step (weights : Corner -> Mesh) (result : Mesh)
  (item : string * StageAction) : Mesh :=
  let '(identifier, action) := item in
  match belt_influence weights identifier with
  | None => result
  | Some influence =>
      let delta := get_or (magnitude_mm action) 0
                   * meta_get_float (metadata action) "sign" 1 in
      let delta := delta * meta_get_float (metadata action) "gain" 1 in
      apply_to_corner result delta influence
  end.

(** Returns the balanced mesh and the actions with the two diagnostics that
    the source writes into their metadata. *)
Definition _apply_belt_adjustments (base_mesh : Mesh) (solver : ScrewSolver.ScrewSolver)
  (actions : list (string * StageAction)) : Mesh * list (string * StageAction) :=
  match actions with
  | [] => (base_mesh, actions)
  | _ :: _ =>
      let weights := _build_corner_weights solver in
      let result := fold_left (belt_step weights) actions base_mesh in
      let offset_removed := Np.mean (Np.sub result base_mesh) in
      let balanced := _normalise_mesh_load base_mesh result in
      let balanced_delta := Np.sub balanced base_mesh in
      let load_range := Np.max balanced_delta - Np.min balanced_delta in
      (balanced,
       map (fun '(k, a) =>
              (k, mkStageAction (kind a) (identifier a) (label a) (direction a)
                    (magnitude_mm a) (teeth a) (minutes a) (degrees a)
                    (meta_set (meta_set (metadata a) "removed_offset" (MFloat offset_removed))
                       "load_range" (MFloat load_range))))
           actions)
  end.

Fixpoint dict_get {A} (d : list (string * A)) (k : string) : option A :=
  match d with
  | [] => None
  | (k', v) :: t => if String.eqb k' k then Some v else dict_get t k
  end.

Definition build_belt_stage (bed : Bed.Bed) (solver : ScrewSolver.ScrewSolver)
  (settings : Settings) (mesh_before : Mesh) (enabled_flag : bool)
  : result (StageResult * Mesh) :=
  let baseline := compute_stage_deviation mesh_before in
  if negb enabled_flag then
    Ok (mkStageResult "after_belts" "visual_rec.belt_stage_title"
          "visual_rec.belt_stage_description" false baseline (Some baseline) mesh_before
          [] ["visual_rec.stage_disabled"%string] (Some "visual_rec.help.belts"%string),
        mesh_before)
  else
    let belt_threshold :=
      get_or (belt_threshold (thresholds settings)) (screw_threshold (thresholds settings)) in
    let tooth_mm := get_or (belt_tooth_mm (hardware settings)) (4 # 10) in
    actions_dict <- _calculate_belt_adjustments bed solver belt_threshold tooth_mm ;;
    let '(mesh_after, actions_dict) := _apply_belt_adjustments mesh_before solver actions_dict in
    let deviation_after := compute_stage_deviation mesh_after in
    let actions :=
      flat_map (fun k => match dict_get actions_dict k with
                         | Some a => [a]
                         | None => []
                         end)
               ["front_left"; "front_right"; "back"]%string in
    let warnings :=
      match actions with
      | [] => ["visual_rec.belt_no_adjustments"%string]
      | _ => []
      end in
    Ok (mkStageResult "after_belts" "visual_rec.belt_stage_title"
          "visual_rec.belt_stage_description" true deviation_after (Some baseline) mesh_after
          actions warnings (Some "visual_rec.help.belts"%string),
        mesh_after).

Definition corner_name (c : Corner) : string :=
  match c with
  | front_left => "front_left"
  | front_right => "front_right"
  | back_left => "back_left"
  | back_right => "back_right"
  end.

Definition _build_screw_actions (adjustments : list ScrewSolver.ScrewAdjustment)
  : list StageAction :=
  map (fun adj =>
         mkStageAction "screw" (corner_name (ScrewSolver.corner adj))
           (_format_corner_name (corner_name (ScrewSolver.corner adj)))
           (Some (match ScrewSolver.direction adj with
                  | Screw.COUNTERCLOCKWISE => "counterclockwise"
                  | Screw.CLOCKWISE => "clockwise"
                  end)%string)
           (Some (Qabs (ScrewSolver.current_height adj - ScrewSolver.target_height adj)))
           None
           (Some (ScrewSolver.minutes adj))
           (Some (ScrewSolver.degrees adj))
           [("turns"%string, MFloat (ScrewSolver.turns adj))])
      adjustments.

Definition build_screw_stage (analyzer : DeviationAnalyzer.DeviationAnalyzer)
  (solver : ScrewSolver.ScrewSolver) (base_mesh : Mesh) (enabled_flag : bool)
  : result (StageResult * Mesh) :=
  let baseline := compute_stage_deviation base_mesh in
  if negb enabled_flag then
    Ok (mkStageResult "after_screws" "visual_rec.screw_header"
          "visual_rec.stage_screw_details" false baseline (Some baseline) base_mesh
          [] ["visual_rec.stage_disabled"%string] (Some "visual_rec.help.screws"%string),
        base_mesh)
  else
    ideal_plane <- DeviationAnalyzer.get_ideal_plane analyzer ;;
    adjustments <- ScrewSolver.calculate_adjustments solver ideal_plane ;;
    mesh_after <-
      match adjustments with
      | [] => Ok base_mesh
      | _ :: _ => ScrewSolver.simulate_sequence solver adjustments (Some base_mesh)
      end ;;
    let deviation_after := compute_stage_deviation mesh_after in
    let actions := _build_screw_actions adjustments in
    let warnings :=
      match actions with
      | [] => ["visual_rec.screw_no_adjustments"%string]
      | _ => []
      end in
    Ok (mkStageResult "after_screws" "visual_rec.screw_header"
          "visual_rec.stage_screw_details" true deviation_after (Some baseline) mesh_after
          actions warnings (Some "visual_rec.help.screws"%string),
        mesh_after).

(** [f"{spot.x + 1}{chr(65 + spot.y)}"] *)
Definition tape_position (spot : TapeCalculator.TapeSpot) : string :=
  (NilEmpty.string_of_uint (Nat.to_uint (TapeCalculator.x spot + 1))
   ++ String (ascii_of_nat (65 + TapeCalculator.y spot)) EmptyString)%string.

Definition _build_tape_actions (spots : list TapeCalculator.TapeSpot) (tape_thickness : Q)
  : list StageAction :=
  map (fun spot =>
         let position := tape_position spot in
         mkStageAction "tape" position position None
           (Some (TapeCalculator.height_diff spot)) None None None
           [("layers"%string, MInt (TapeCalculator.layers spot));
            ("thickness"%string,
             MFloat (inject_Z (TapeCalculator.layers spot) * tape_thickness))])
      spots.

Definition build_tape_stage (tape_calculator : TapeCalculator.TapeCalculator)
  (base_mesh : Mesh) (settings : Settings) (enabled_flag : bool) : StageResult * Mesh :=
  let baseline := compute_stage_deviation base_mesh in
  if negb enabled_flag then
    (mkStageResult "after_tape" "visual_rec.tape_header"
       "visual_rec.stage_tape_details" false baseline (Some baseline) base_mesh
       [] ["visual_rec.stage_disabled"%string] (Some "visual_rec.help.tape"%string),
     base_mesh)
  else
    let spots :=
      TapeCalculator.optimize_tape_layout tape_calculator
        (TapeCalculator.find_low_spots tape_calculator base_mesh) in
    let mesh_after :=
      match spots with
      | [] => base_mesh
      | _ :: _ => TapeCalculator.apply_spots tape_calculator base_mesh spots
      end in
    let deviation_after := compute_stage_deviation mesh_after in
    let actions := _build_tape_actions spots (tape_thickness (hardware settings)) in
    let warnings :=
      match actions with
      | [] => ["visual_rec.tape_no_adjustments"%string]
      | _ => []
      end in
    (mkStageResult "after_tape" "visual_rec.tape_header"
       "visual_rec.stage_tape_details" true deviation_after (Some baseline) mesh_after
       actions warnings (Some "visual_rec.help.tape"%string),
     mesh_after).

(** [not thermal_model]: the dictionary is absent or empty. *)
Definition thermal_model_is_empty (tm : ThermalModel) : bool :=
  match name tm, measurement_temp tm, target_temp tm, chamber_factor tm, pei_thickness tm,
        steel_thickness tm, alpha_pei tm, alpha_steel tm, beta_uniform tm with
  | None, None, None, None, None, None, None, None, None => true
  | _, _, _, _, _, _, _, _, _ => false
  end.

Definition empty_thermal_model : ThermalModel :=
  mkThermalModel None None None None None None None None None.

(** [radius_sq = X ** 2 + Y ** 2] *)
Definition radius_sq (cfg : BedConfig) (mesh : Mesh) : Mesh :=
  let '(x_step, y_step) := get_mm_per_point cfg in
  let '(rows, cols) := Np.shape mesh in
  let center_x := size_x cfg / 2 in
  let center_y := size_y cfg / 2 in
  Np.mesh_tab rows cols
    (fun i j =>
       let X := inject_Z (Z.of_nat i) * x_step - center_x in
       let Y := inject_Z (Z.of_nat j) * y_step - center_y in
       X ^ 2 + Y ^ 2).

(** Returns the mesh only; the dictionary [info] of diagnostics that the
    source returns beside it is display data and is left out. *)
Definition _apply_temperature_effect (bed : Bed.Bed) (mesh : Mesh)
  (env_settings : Environment) (thermal_model : option ThermalModel) : Mesh :=
  let thermal_model := get_or thermal_model empty_thermal_model in
  let no_model := thermal_model_is_empty thermal_model in
  let measurement_temp :=
    get_or (measurement_temp thermal_model) (get_or (env_measurement_temp env_settings) 25) in
  let target_temp :=
    get_or (target_temp thermal_model) (get_or (env_target_temp env_settings) measurement_temp) in
  if Qltb (Qabs (target_temp - measurement_temp)) (1 # 1000) && no_model then mesh
  else
    let chamber_factor := get_or (chamber_factor thermal_model) 0 in
    let pei_thickness := get_or (pei_thickness thermal_model) (55 # 100) in
    let steel_thickness := get_or (steel_thickness thermal_model) (150 # 100) in
    let alpha_pei :=
      get_or (alpha_pei thermal_model) (get_or (thermal_expansion_coeff env_settings) 0) in
    let alpha_steel :=
      get_or (alpha_steel thermal_model) (get_or (thermal_expansion_coeff env_settings) 0) in
    let beta_uniform := get_or (beta_uniform thermal_model) (2 # 10) in
    let total_top_delta := target_temp - measurement_temp in
    let chamber_temp := measurement_temp + chamber_factor * total_top_delta in
    let delta_through := target_temp - chamber_temp in
    let delta_uniform := chamber_temp - measurement_temp in
    if Qltb (Qabs delta_through) (1 # 1000000) && Qltb (Qabs delta_uniform) (1 # 1000000)
       && no_model then mesh
    else
      let center_x := size_x (config bed) / 2 in
      let center_y := size_y (config bed) / 2 in
      let radius_sq := radius_sq (config bed) mesh in
      let warp := Np.full_like mesh 0 in
      let total_thickness := Qmax (pei_thickness + steel_thickness) (1 # 1000000) in
      let warp :=
        if Qgtb (Qabs delta_through) (1 # 1000000) && Qgtb pei_thickness 0
           && Qgtb steel_thickness 0
           && Qgtb (Qabs (alpha_pei - alpha_steel)) (1 # 1000000000000) then
          let rho := pei_thickness / steel_thickness in
          let n := 3300000000 / 200000000000 in
          let stiffness := 1 + 4 * rho + 6 * rho ^ 2 + 4 * rho ^ 3 + rho ^ 4 in
          let coupling := 1 + (n * rho ^ 2 * (1 + rho) ^ 2) / Qmax stiffness (1 # 1000000) in
          let numerator := 6 * (alpha_pei - alpha_steel) * delta_through in
          let denom := steel_thickness * (1 + rho) ^ 2 * Qmax stiffness (1 # 1000000) in
          let kappa_bimetal := (numerator / denom) / coupling in
          Np.add warp (Np.scale ((1 # 2) * kappa_bimetal) radius_sq)
        else warp in
      let warp :=
        if Qgtb (Qabs delta_uniform) (1 # 1000000)
           && Qgtb (Qabs alpha_steel) (1 # 1000000000000) then
          let kappa_uniform := beta_uniform * alpha_steel * delta_uniform / total_thickness in
          Np.add warp (Np.scale ((1 # 2) * kappa_uniform) radius_sq)
        else warp in
      if negb (Np.any warp) then
        let expansion_coeff := get_or (thermal_expansion_coeff env_settings) 0 in
        let delta_temp := target_temp - measurement_temp in
        if Qltb (Qabs delta_temp) (1 # 1000) || Qltb (Qabs expansion_coeff) (1 # 1000000000)
        then mesh
        else
          let max_radius_sq := center_x ^ 2 + center_y ^ 2 in
          if Qle_bool max_radius_sq 0 then mesh
          else
            let warp :=
              Np.scale (expansion_coeff * delta_temp) (Np.div_scalar radius_sq max_radius_sq) in
            let warp := Np.sub_scalar warp (Np.mean warp) in
            Np.add mesh warp
      else
        let warp := Np.sub_scalar warp (Np.mean warp) in
        Np.add mesh warp.

Definition build_temperature_stage (bed : Bed.Bed) (base_mesh : Mesh)
  (env_settings : Environment) (enabled_flag : bool) (thermal_model : option ThermalModel)
  : StageResult * Mesh :=
  let baseline := compute_stage_deviation base_mesh in
  let mesh_after := _apply_temperature_effect bed base_mesh env_settings thermal_model in
  let deviation_after := compute_stage_deviation mesh_after in
  let enabled := enabled_flag && Qgtb (Qabs (deviation_after - baseline)) (1 # 1000000) in
  let warnings :=
    if negb enabled then ["visual_rec.temperature_no_adjustments"%string] else [] in
  (mkStageResult "after_temperature" "visual_rec.stage_temperature"
     "visual_rec.stage_temperature_details" enabled deviation_after (Some baseline) mesh_after
     [] warnings (Some "visual_rec.help.temperature"%string),
   mesh_after).

(** What a stage built from [base_mesh] under the flag [flag] and handing
    on [mesh_after] records, for the three builders that take a flag. *)
Definition stage_of (stage : StageResult) (base_mesh mesh_after : Mesh) (flag : bool) : Prop :=
  mesh stage = mesh_after /\
  deviation stage = compute_stage_deviation mesh_after /\
  baseline stage = Some (compute_stage_deviation base_mesh) /\
  (flag = false ->
   mesh_after = base_mesh /\ enabled stage = false /\ actions stage = [] /\
   warnings stage = ["visual_rec.stage_disabled"%string]) /\
  (flag = true -> enabled stage = true).

End Calculators.

(** ** workflow/engine.py *)

Module Engine.
Import Bed Models Calculators.

Record WorkflowData := mkWorkflowData {
  stages : list StageResult;
  best_stage : StageResult;
  active_thermal_model : option ThermalModel
}.

(** [min(enabled_stages, key=...) if enabled_stages else stages[0]], for a
    list of stages whose head is [first]. *)
Definition select_best_stage (first : StageResult) (rest : list StageResult) : StageResult :=
  let stages := first :: rest in
  let enabled_stages := filter enabled stages in
  match py_min_by deviation enabled_stages with
  | Some best => best
  | None => first
  end.

Definition compute_workflow (bed : Bed.Bed) (analyzer : DeviationAnalyzer.DeviationAnalyzer)
  (screw_solver : ScrewSolver.ScrewSolver) (tape_calculator : TapeCalculator.TapeCalculator)
  (settings : Settings) : result WorkflowData :=
  let workflow_flags := workflow settings in
  let env_settings := environment settings in
  match mesh_data bed with
  | None => Raise NoneTypeError
  | Some mesh_state =>
      let initial_stage := compute_initial_stage mesh_state in
      '(belt_stage, mesh_state) <-
        build_belt_stage bed screw_solver settings mesh_state
          (get_or (enable_belt workflow_flags) true) ;;
      '(screw_stage, mesh_state) <-
        build_screw_stage analyzer screw_solver mesh_state
          (get_or (enable_screws workflow_flags) true) ;;
      let '(tape_stage, mesh_state) :=
        build_tape_stage tape_calculator mesh_state settings
          (get_or (enable_tape workflow_flags) true) in
      let '(temperature_stage, mesh_state) :=
        build_temperature_stage bed mesh_state env_settings true (thermal_model settings) in
      let rest := [belt_stage; screw_stage; tape_stage; temperature_stage] in
      Ok (mkWorkflowData (initial_stage :: rest)
            (select_best_stage initial_stage rest)
            (thermal_model settings))
  end.

End Engine.

(** ** flashforge_app/ui/dialogs/visual_recommendations.py

    The dialog does not read [WorkflowData.best_stage]; it selects the stage
    it presents with a helper of its own. *)

Module Dialog.
Import Models Engine.

Definition not_initial (stage : StageResult) : bool := negb (String.eqb (key stage) "initial").

Definition has_actions (stage : StageResult) : bool :=
  match actions stage with
  | [] => false
  | _ :: _ => true
  end.

Definition _best_stage (workflow : WorkflowData) : option StageResult :=
  let actionable :=
    filter (fun stage => not_initial stage && enabled stage && has_actions stage)
           (stages workflow) in
  match actionable with
  | _ :: _ => py_min_by deviation actionable
  | [] =>
      let candidates :=
        filter (fun stage => not_initial stage && enabled stage) (stages workflow) in
      match candidates with
      | _ :: _ => py_min_by deviation candidates
      | [] => find not_initial (stages workflow)
      end
  end.

End Dialog.

(** ** Sample inputs *)

(** A 3x3 bed whose front-right corner sits 1 mm high; the screw and tape
    stages are switched off and no temperature change is configured. *)
Module Example1.
Import Bed Models Calculators Engine.

Definition cfg : BedConfig := mkBedConfig 220 220 3 3.
Definition mesh0 : Mesh := [[0; 0; 1]; [0; 0; 0]; [0; 0; 0]].
Definition bed0 : Bed.Bed := mkBed cfg (Some mesh0).
Definition solver : ScrewSolver.ScrewSolver :=
  ScrewSolver.mkScrewSolver bed0 Screw.default_config.
Definition analyzer : DeviationAnalyzer.DeviationAnalyzer :=
  DeviationAnalyzer.mkDeviationAnalyzer bed0 1 (19 # 100) (1 # 100) Screw.default_config.
Definition tape : TapeCalculator.TapeCalculator :=
  TapeCalculator.mkTapeCalculator bed0 (6 # 100) (1 # 100).
Definition settings : Settings :=
  mkSettings (mkThresholds None (19 # 100)) (mkHardware None (6 # 100))
    (mkWorkflowFlags None (Some false) (Some false)) (mkEnvironment None None None) None.

Definition run : result WorkflowData := compute_workflow bed0 analyzer solver tape settings.

End Example1.

(** A 4x5 bed (grid diagonal 5) whose front-left cell sits 4 mm high. *)
Module Example3.
Import Bed.

Definition cfg : BedConfig := mkBedConfig 220 220 4 5.
Definition mesh0 : Mesh :=
  [[4; 0; 0; 0; 0]; [0; 0; 0; 0; 0]; [0; 0; 0; 0; 0]; [0; 0; 0; 0; 0]].
Definition bed0 : Bed.Bed := mkBed cfg (Some mesh0).
Definition solver : ScrewSolver.ScrewSolver :=
  ScrewSolver.mkScrewSolver bed0 Screw.default_config.
Definition analyzer : DeviationAnalyzer.DeviationAnalyzer :=
  DeviationAnalyzer.mkDeviationAnalyzer bed0 1 (19 # 100) (1 # 100) Screw.default_config.

End Example3.

(** The scenario of a single low cell: a flat 5x5 mesh whose centre lies
    0.13 mm below the mean, tape of 0.06 mm, threshold 0.01 mm. *)
Module Example2.
Import Bed.

Definition cfg : BedConfig := mkBedConfig 220 220 5 5.
Definition mesh0 : Mesh :=
  [[0; 0; 0; 0; 0]; [0; 0; 0; 0; 0]; [0; 0; - (13 # 96); 0; 0];
   [0; 0; 0; 0; 0]; [0; 0; 0; 0; 0]].
Definition bed0 : Bed.Bed := mkBed cfg (Some mesh0).
Definition tape : TapeCalculator.TapeCalculator :=
  TapeCalculator.mkTapeCalculator bed0 (6 # 100) (1 # 100).

End Example2.

(** A workflow as the dialog receives it: the initial stage at 1 mm, a belt
    stage with one action that overshoots to 2 mm, and the level mesh and
    the single spot used with the tape calculator of [Example2]. *)
Module Example4.
Import Models Engine.

Definition level_mesh : Mesh := Np.mesh_tab 5 5 (fun _ _ => 0).

Definition spot : TapeCalculator.TapeSpot :=
  TapeCalculator.mkTapeSpot 2 2 3 (13 # 100) 2 1936.

Definition belt_action : StageAction :=
  mkStageAction "belt" "front_right" "visual_rec.belt.front_right" (Some "up"%string)
    (Some 2) (Some 1%Z) None None [].

Definition initial_stage : StageResult :=
  mkStageResult "initial" "visual_rec.stage_initial" "visual_rec.stage_initial_desc"
    true 1 None Example1.mesh0 [] [] None.

Definition belt_stage : StageResult :=
  mkStageResult "after_belts" "visual_rec.belt_header" "visual_rec.stage_belts_details"
    true 2 (Some 1) Example1.mesh0 [belt_action] [] None.

Definition workflow : WorkflowData :=
  mkWorkflowData [initial_stage; belt_stage] initial_stage None.

End Example4.
(** * Properties *)

(** ** Comparisons *)

Lemma Qltb_lt (x y : Q) : Qltb x y = true <-> x < y.
Proof.
  unfold Qltb. rewrite negb_true_iff, <- not_true_iff_false, Qle_bool_iff.
  split; [apply Qnot_le_lt | apply Qlt_not_le].
Qed.

Lemma Qltb_ge (x y : Q) : Qltb x y = false <-> y <= x.
Proof.
  unfold Qltb. rewrite negb_false_iff. apply Qle_bool_iff.
Qed.

Lemma Qgtb_gt (x y : Q) : Qgtb x y = true <-> y < x.
Proof. apply Qltb_lt. Qed.

Lemma Qgtb_le (x y : Q) : Qgtb x y = false <-> x <= y.
Proof. apply Qltb_ge. Qed.

Lemma Qneb_neq (x y : Q) : Qneb x y = true <-> ~ x == y.
Proof.
  unfold Qneb. rewrite negb_true_iff, <- not_true_iff_false, Qeq_bool_iff. tauto.
Qed.

Lemma Qneb_eq (x y : Q) : Qneb x y = false <-> x == y.
Proof.
  unfold Qneb. rewrite negb_false_iff. apply Qeq_bool_iff.
Qed.

(** ** hardware/screw.py *)

Section ScrewFacts.
Import Screw.
Variable cfg : ScrewConfig.

Lemma calculate_adjustment_below (current target : Q) :
  Qabs (current - target) < min_adjust cfg ->
  calculate_adjustment cfg current target = (0, CLOCKWISE).
Proof.
  intros H. unfold calculate_adjustment.
  apply Qltb_lt in H. now rewrite H.
Qed.

Lemma calculate_adjustment_above (current target : Q) :
  min_adjust cfg <= Qabs (current - target) ->
  calculate_adjustment cfg current target =
    (Qmin (Qabs (current - target) / MM_PER_MINUTE cfg) (max_adjust cfg / MM_PER_MINUTE cfg),
     if Qgtb (current - target) 0 then CLOCKWISE else COUNTERCLOCKWISE).
Proof.
  intros H. unfold calculate_adjustment.
  apply Qltb_ge in H. now rewrite H.
Qed.

(** A clockwise turn lowers the corner, a counter-clockwise turn raises it. *)
Lemma clockwise_lowers (minutes : Q) :
  0 < pitch cfg -> 0 < minutes ->
  height_change_from_minutes cfg minutes CLOCKWISE < 0 /\
  0 < height_change_from_minutes cfg minutes COUNTERCLOCKWISE.
Proof.
  intros Hp Hm. unfold height_change_from_minutes, MM_PER_MINUTE. simpl.
  assert (0 < minutes * (pitch cfg / 60)).
  { apply Qmult_lt_0_compat; [exact Hm|]. apply Qlt_shift_div_l; lra. }
  lra.
Qed.

(** C2. With [diff = current - target] and a positive pitch,
    [calculate_adjustment] returns amount 0 when [|diff| < min_adjust];
    otherwise the direction is clockwise (lower) for [diff > 0] and
    counter-clockwise (raise) for [diff < 0], and the amount in minutes is
    [min(|diff| / (pitch/60), max_adjust / (pitch/60))]. *)
Theorem calculate_adjustment_spec (current target : Q) :
  0 < pitch cfg ->
  let diff := current - target in
  let amount := fst (calculate_adjustment cfg current target) in
  let direction := snd (calculate_adjustment cfg current target) in
  (Qabs diff < min_adjust cfg -> amount == 0) /\
  (~ Qabs diff < min_adjust cfg ->
   (0 < diff -> direction = CLOCKWISE) /\
   (diff < 0 -> direction = COUNTERCLOCKWISE) /\
   amount == Qmin (Qabs diff / (pitch cfg / 60)) (max_adjust cfg / (pitch cfg / 60))).
Proof.
  intros _ diff amount direction. subst diff amount direction. split.
  - intros H. rewrite (calculate_adjustment_below _ _ H). reflexivity.
  - intros H. apply Qnot_lt_le in H.
    rewrite (calculate_adjustment_above _ _ H). simpl. split; [|split].
    + intros Hd. apply Qgtb_gt in Hd. now rewrite Hd.
    + intros Hd. assert (Hle : current - target <= 0) by lra.
      apply Qgtb_le in Hle. now rewrite Hle.
    + reflexivity.
Qed.

End ScrewFacts.

Lemma calculate_adjustment_spec_witness :
  0 < Screw.pitch Screw.default_config /\
  snd (Screw.calculate_adjustment Screw.default_config (1 # 2) 0) = Screw.CLOCKWISE /\
  fst (Screw.calculate_adjustment Screw.default_config (1 # 2) 0)
  == Qmin ((1 # 2) / ((7 # 10) / 60)) (2 / ((7 # 10) / 60)).
Proof.
  assert (Hp : 0 < Screw.pitch Screw.default_config) by reflexivity.
  destruct (calculate_adjustment_spec Screw.default_config (1 # 2) 0 Hp) as [_ H].
  assert (Hn : ~ Qabs ((1 # 2) - 0) < Screw.min_adjust Screw.default_config).
  { vm_compute. discriminate. }
  destruct (H Hn) as (Hc & _ & Ha).
  split; [exact Hp | split; [apply Hc; reflexivity | exact Ha]].
Defined.

(** ** hardware/bed.py *)

Section BedFacts.
Import Bed.

Lemma has_shapeb_spec (r c : nat) (m : Mesh) :
  Np.has_shapeb r c m = true <-> Np.has_shape r c m.
Proof.
  unfold Np.has_shapeb, Np.has_shape.
  rewrite andb_true_iff, Nat.eqb_eq, forallb_forall, Forall_forall.
  split; intros [H1 H2]; split; auto; intros row Hr.
  - apply Nat.eqb_eq. auto.
  - apply Nat.eqb_eq. auto.
Qed.

(** C9. Before a mesh is assigned every query that needs the mesh raises
    [DataNotSetError], whatever its other arguments; assigning a mesh whose
    shape is not the configured [(mesh_points_x, mesh_points_y)] raises
    [ShapeMismatchError]; in both cases no value is returned. *)
Theorem bed_fails_fast (b : Bed) :
  (mesh_data b = None ->
   (forall corner area_size, get_corner_height b corner area_size = Raise DataNotSetError) /\
   generate_ideal_plane b = Raise DataNotSetError /\
   get_mesh_stats b = Raise DataNotSetError /\
   (forall x y, get_point_height b x y = Raise DataNotSetError) /\
   calculate_deviation_map b = Raise DataNotSetError) /\
  (forall data,
     ~ Np.has_shape (mesh_points_x (config b)) (mesh_points_y (config b)) data ->
     set_mesh_data b data = Raise ShapeMismatchError).
Proof.
  split.
  - intros H.
    unfold get_corner_height, generate_ideal_plane, get_mesh_stats, get_point_height,
      calculate_deviation_map.
    rewrite H. repeat split.
  - intros data H. unfold set_mesh_data.
    destruct (Np.has_shapeb _ _ data) eqn:E; [|reflexivity].
    apply has_shapeb_spec in E. contradiction.
Qed.

(** A mesh of the configured shape is accepted and stored as it is. *)
Lemma set_mesh_data_ok (b : Bed) (data : Mesh) :
  Np.has_shape (mesh_points_x (config b)) (mesh_points_y (config b)) data ->
  set_mesh_data b data = Ok (mkBed (config b) (Some data)).
Proof.
  intros H. unfold set_mesh_data. apply has_shapeb_spec in H. now rewrite H.
Qed.

End BedFacts.

Lemma bed_fails_fast_witness :
  let b := Bed.init (Bed.mkBedConfig 220 220 3 3) in
  Bed.mesh_data b = None /\
  ~ Np.has_shape 3 3 [[0; 0]; [0; 0]] /\
  Bed.get_corner_height b "front_left" 1 = Raise DataNotSetError /\
  Bed.generate_ideal_plane b = Raise DataNotSetError /\
  Bed.set_mesh_data b [[0; 0]; [0; 0]] = Raise ShapeMismatchError.
Proof.
  intros b.
  assert (Hn : Bed.mesh_data b = None) by reflexivity.
  assert (Hs : ~ Np.has_shape (Bed.mesh_points_x (Bed.config b))
                   (Bed.mesh_points_y (Bed.config b)) [[0; 0]; [0; 0]]).
  { intros [Hl _]. discriminate Hl. }
  destruct (bed_fails_fast b) as [H1 H2].
  destruct (H1 Hn) as (Hc & Hi & _).
  split; [exact Hn|]. split; [exact Hs|].
  split; [apply Hc|]. split; [exact Hi | apply H2; exact Hs].
Defined.

(** ** Python built-ins *)

Section MinBy.
Context {A : Type} (key : A -> Q).

Let pick (best y : A) : A := if Qltb (key y) (key best) then y else best.

Lemma fold_pick_first (t : list A) (x : A) :
  exists pre post,
    x :: t = pre ++ fold_left pick t x :: post /\
    (forall y, In y pre -> key (fold_left pick t x) < key y) /\
    (forall y, In y post -> key (fold_left pick t x) <= key y).
Proof.
  revert x. induction t as [|y t IH]; intros x.
  - exists [], []. simpl. repeat split; intros ? [].
  - simpl. unfold pick at 2 4 6. destruct (Qltb (key y) (key x)) eqn:E.
    + apply Qltb_lt in E.
      destruct (IH y) as (pre & post & Heq & Hpre & Hpost).
      remember (fold_left pick t y) as r eqn:Hr. clear Hr.
      assert (Hle : key r <= key y).
      { destruct pre as [|p pre]; simpl in Heq; inversion Heq; subst.
        - apply Qle_refl.
        - apply Qlt_le_weak, Hpre. now left. }
      exists (x :: pre), post. rewrite Heq. repeat split; auto.
      intros z [<-|Hz]; [lra | auto].
    + apply Qltb_ge in E.
      destruct (IH x) as (pre & post & Heq & Hpre & Hpost).
      remember (fold_left pick t x) as r eqn:Hr. clear Hr.
      destruct pre as [|p pre]; simpl in Heq; inversion Heq; subst.
      * eexists [], _. simpl. split; [reflexivity|]. split.
        -- intros ? [].
        -- intros z [<-|Hz]; [exact E | now apply Hpost].
      * exists (p :: y :: pre), post. simpl. repeat split; auto.
        intros z [Hz|[Hz|Hz]].
        -- apply Hpre. now left.
        -- assert (key r < key p) by (apply Hpre; now left). subst z. lra.
        -- apply Hpre. now right.
Qed.

(** [min(l, key=...)] returns the first element of least key. *)
Lemma py_min_by_first (l : list A) (b : A) :
  py_min_by key l = Some b ->
  exists pre post,
    l = pre ++ b :: post /\
    (forall y, In y pre -> key b < key y) /\
    (forall y, In y post -> key b <= key y).
Proof.
  destruct l as [|x t]; simpl; [discriminate|].
  intros H. injection H as <-. apply fold_pick_first.
Qed.

Lemma py_min_by_least (l : list A) (b : A) :
  py_min_by key l = Some b -> In b l /\ forall y, In y l -> key b <= key y.
Proof.
  intros H. destruct (py_min_by_first l b H) as (pre & post & -> & Hpre & Hpost).
  split; [apply in_elt|].
  intros y Hy. apply in_app_or in Hy. destruct Hy as [Hy|[<-|Hy]].
  - apply Qlt_le_weak. auto.
  - lra.
  - auto.
Qed.

Lemma py_min_by_nonempty (l : list A) :
  l <> [] -> exists b, py_min_by key l = Some b.
Proof.
  destruct l; [contradiction|]. intros _. simpl. eauto.
Qed.

End MinBy.

Lemma filter_split {A} (f : A -> bool) (l pre' post' : list A) (b : A) :
  filter f l = pre' ++ b :: post' ->
  exists pre post,
    l = pre ++ b :: post /\ filter f pre = pre' /\ filter f post = post' /\ f b = true.
Proof.
  revert pre'. induction l as [|x l IH]; intros pre' H; simpl in H.
  - destruct pre'; discriminate.
  - destruct (f x) eqn:E.
    + destruct pre' as [|p pre']; simpl in H; injection H as -> H.
      * exists [], l. simpl. auto.
      * destruct (IH _ H) as (pre & post & -> & H1 & H2 & H3).
        exists (p :: pre), post. simpl. rewrite E, H1. auto.
    + destruct (IH _ H) as (pre & post & -> & H1 & H2 & H3).
      exists (x :: pre), post. simpl. rewrite E. auto.
Qed.

(** ** workflow/engine.py *)

Section EngineFacts.
Import Bed Models Calculators Engine.

Lemma bind_ok {A B} (r : result A) (k : A -> result B) (b : B) :
  bind r k = Ok b -> exists a, r = Ok a /\ k a = Ok b.
Proof.
  destruct r; simpl; [eauto | discriminate].
Qed.

(** With an enabled first stage the selection is [min] over the enabled
    stages: the fallback [stages[0]] is never taken. *)
Lemma select_best_stage_first (first : StageResult) (rest : list StageResult) :
  enabled first = true ->
  exists pre post,
    first :: rest = pre ++ select_best_stage first rest :: post /\
    enabled (select_best_stage first rest) = true /\
    (forall s, In s pre -> enabled s = true ->
               deviation (select_best_stage first rest) < deviation s) /\
    (forall s, In s post -> enabled s = true ->
               deviation (select_best_stage first rest) <= deviation s).
Proof.
  intros Hen. unfold select_best_stage.
  destruct (py_min_by deviation (filter enabled (first :: rest))) as [b|] eqn:E.
  - destruct (py_min_by_first _ _ _ E) as (pre' & post' & Hf & Hpre & Hpost).
    destruct (filter_split _ _ _ _ _ Hf) as (pre & post & Hl & H1 & H2 & H3).
    exists pre, post. split; [exact Hl|]. split; [exact H3|]. split.
    + intros s Hs He. apply Hpre. rewrite <- H1. apply filter_In. auto.
    + intros s Hs He. apply Hpost. rewrite <- H2. apply filter_In. auto.
  - simpl in E. rewrite Hen in E. discriminate.
Qed.

Lemma select_best_stage_least (first : StageResult) (rest : list StageResult) :
  enabled first = true ->
  forall s, In s (first :: rest) -> enabled s = true ->
            deviation (select_best_stage first rest) <= deviation s.
Proof.
  intros Hen s Hs He.
  destruct (select_best_stage_first first rest Hen) as (pre & post & Hl & _ & Hpre & Hpost).
  rewrite Hl in Hs. apply in_app_or in Hs. destruct Hs as [Hs|[<-|Hs]].
  - apply Qlt_le_weak. auto.
  - apply Qle_refl.
  - auto.
Qed.

Lemma build_belt_stage_key bed solver settings mesh flag stage mesh' :
  build_belt_stage bed solver settings mesh flag = Ok (stage, mesh') ->
  key stage = "after_belts"%string.
Proof.
  unfold build_belt_stage. destruct (negb flag).
  - intros H. now inversion H.
  - intros H. apply bind_ok in H. destruct H as (d & _ & H).
    destruct (_apply_belt_adjustments mesh solver d). now inversion H.
Qed.

Lemma build_screw_stage_key analyzer solver mesh flag stage mesh' :
  build_screw_stage analyzer solver mesh flag = Ok (stage, mesh') ->
  key stage = "after_screws"%string.
Proof.
  unfold build_screw_stage. destruct (negb flag).
  - intros H. now inversion H.
  - intros H.
    apply bind_ok in H. destruct H as (p & _ & H).
    apply bind_ok in H. destruct H as (adj & _ & H).
    apply bind_ok in H. destruct H as (m & _ & H).
    now inversion H.
Qed.

Lemma build_tape_stage_key tc mesh settings flag :
  key (fst (build_tape_stage tc mesh settings flag)) = "after_tape"%string.
Proof.
  unfold build_tape_stage. now destruct (negb flag).
Qed.

Lemma build_temperature_stage_key bed mesh env flag tm :
  key (fst (build_temperature_stage bed mesh env flag tm)) = "after_temperature"%string.
Proof. reflexivity. Qed.

(** What a workflow computation that returns has computed: the five stages
    in their fixed order, the first being the (enabled) initial stage of the
    bed's mesh, and the best stage selected among them. *)
Lemma compute_workflow_inv bed analyzer solver tc settings wd :
  compute_workflow bed analyzer solver tc settings = Ok wd ->
  exists m rest,
    mesh_data bed = Some m /\
    stages wd = compute_initial_stage m :: rest /\
    map key rest = ["after_belts"; "after_screws"; "after_tape"; "after_temperature"]%string /\
    best_stage wd = select_best_stage (compute_initial_stage m) rest.
Proof.
  unfold compute_workflow. destruct (mesh_data bed) as [m|]; [|discriminate].
  intros H.
  apply bind_ok in H. destruct H as ([belt m1] & Hb & H).
  apply bind_ok in H. destruct H as ([screw m2] & Hs & H).
  pose proof (build_tape_stage_key tc m2 settings
                (get_or (enable_tape (workflow settings)) true)) as Ht.
  destruct (build_tape_stage tc m2 settings _) as [tape m3].
  pose proof (build_temperature_stage_key bed m3 (environment settings) true
                (thermal_model settings)) as Hte.
  destruct (build_temperature_stage bed m3 _ true _) as [temp m4].
  inversion H; subst; clear H. simpl in *.
  exists m, [belt; screw; tape; temp]. repeat split. simpl.
  rewrite (build_belt_stage_key _ _ _ _ _ _ _ Hb), (build_screw_stage_key _ _ _ _ _ _ Hs),
    Ht, Hte. reflexivity.
Qed.

(** C6. The best stage of a returned [WorkflowData] never has a larger
    deviation than the initial stage. *)
Theorem best_stage_le_initial bed analyzer solver tc settings wd :
  compute_workflow bed analyzer solver tc settings = Ok wd ->
  exists initial rest,
    stages wd = initial :: rest /\
    key initial = "initial"%string /\
    deviation (best_stage wd) <= deviation initial.
Proof.
  intros H. destruct (compute_workflow_inv _ _ _ _ _ _ H) as (m & rest & _ & Hst & _ & Hbest).
  exists (compute_initial_stage m), rest. split; [exact Hst|]. split; [reflexivity|].
  rewrite Hbest. apply select_best_stage_least; [reflexivity | now left | reflexivity].
Qed.

(** C1, as the engine computes it. The best stage of a returned
    [WorkflowData] is the first stage, in pipeline order, of least deviation
    among all the enabled stages, the initial stage included; the initial
    stage is always enabled, so no fallback applies, and whether a stage has
    actions plays no part. *)
Theorem best_stage_first_least_enabled bed analyzer solver tc settings wd :
  compute_workflow bed analyzer solver tc settings = Ok wd ->
  exists pre post,
    stages wd = pre ++ best_stage wd :: post /\
    enabled (best_stage wd) = true /\
    (forall s, In s pre -> enabled s = true -> deviation (best_stage wd) < deviation s) /\
    (forall s, In s post -> enabled s = true -> deviation (best_stage wd) <= deviation s) /\
    (exists initial, hd_error (stages wd) = Some initial /\
                     key initial = "initial"%string /\ enabled initial = true).
Proof.
  intros H. destruct (compute_workflow_inv _ _ _ _ _ _ H) as (m & rest & _ & Hst & _ & Hbest).
  destruct (select_best_stage_first (compute_initial_stage m) rest eq_refl)
    as (pre & post & Hl & He & Hpre & Hpost).
  exists pre, post. rewrite Hbest, Hst. repeat split; auto.
  exists (compute_initial_stage m). repeat split.
Qed.

End EngineFacts.

Lemma best_stage_le_initial_witness :
  exists wd,
    Example1.run = Ok wd /\
    exists initial rest,
      Engine.stages wd = initial :: rest /\
      Models.key initial = "initial"%string /\
      Models.deviation (Engine.best_stage wd) <= Models.deviation initial.
Proof.
  assert (H : exists wd, Example1.run = Ok wd) by (vm_compute; eauto).
  destruct H as [wd Hwd]. exists wd. split; [exact Hwd|].
  exact (best_stage_le_initial _ _ _ _ _ wd Hwd).
Defined.

Lemma best_stage_first_least_enabled_witness :
  exists wd,
    Example1.run = Ok wd /\
    exists pre post,
      Engine.stages wd = pre ++ Engine.best_stage wd :: post /\
      Models.enabled (Engine.best_stage wd) = true /\
      (forall s, In s pre -> Models.enabled s = true ->
                 Models.deviation (Engine.best_stage wd) < Models.deviation s) /\
      (forall s, In s post -> Models.enabled s = true ->
                 Models.deviation (Engine.best_stage wd) <= Models.deviation s) /\
      (exists initial, hd_error (Engine.stages wd) = Some initial /\
                       Models.key initial = "initial"%string /\
                       Models.enabled initial = true).
Proof.
  assert (H : exists wd, Example1.run = Ok wd) by (vm_compute; eauto).
  destruct H as [wd Hwd]. exists wd. split; [exact Hwd|].
  exact (best_stage_first_least_enabled _ _ _ _ _ wd Hwd).
Defined.

(** C1, as it is stated, fails on [Example1]: the belt stage is enabled, is
    not the initial stage and has two actions, so it is the stage the claim
    designates (and the one the dialog's [_best_stage] returns); its
    deviation 1.76 exceeds the initial 1.0, and the engine's best stage is
    the initial stage. *)
Lemma best_stage_counterexample :
  exists wd,
    Example1.run = Ok wd /\
    (exists s, In s (Engine.stages wd) /\
               Models.key s = "after_belts"%string /\
               Models.enabled s = true /\
               length (Models.actions s) = 2%nat /\
               Models.deviation s == 176 # 100) /\
    (forall s, In s (Engine.stages wd) ->
               Dialog.not_initial s && Models.enabled s && Dialog.has_actions s = true ->
               Models.key s = "after_belts"%string) /\
    option_map Models.key (Dialog._best_stage wd) = Some "after_belts"%string /\
    Models.key (Engine.best_stage wd) = "initial"%string /\
    Models.deviation (Engine.best_stage wd) == 1.
Proof.
  assert (H : exists wd, Example1.run = Ok wd) by (vm_compute; eauto).
  destruct H as [wd Hwd]. exists wd. split; [exact Hwd|].
  vm_compute in Hwd. injection Hwd as <-.
  split; [|split; [|split; [|split]]].
  - eexists. split; [right; left; reflexivity|]. vm_compute. repeat split.
  - intros s Hs. repeat destruct Hs as [<-|Hs]; try contradiction; vm_compute;
      intros; try discriminate; reflexivity.
  - vm_compute. reflexivity.
  - vm_compute. reflexivity.
  - vm_compute. reflexivity.
Qed.

(** ** NumPy arrays *)

Section NpFacts.
Import Np.

Lemma nth_tab {A} (f : nat -> A) (n i : nat) (d : A) :
  (i < n)%nat -> nth i (map f (seq 0 n)) d = f i.
Proof.
  intros H. rewrite (nth_indep _ d (f 0%nat)) by now rewrite length_map, length_seq.
  rewrite map_nth, seq_nth by exact H. reflexivity.
Qed.

Lemma get_mesh_tab (r c : nat) (f : nat -> nat -> Q) (i j : nat) :
  (i < r)%nat -> (j < c)%nat -> get (mesh_tab r c f) i j = f i j.
Proof.
  intros Hi Hj. unfold get, mesh_tab.
  rewrite (nth_tab (fun i => map (fun j => f i j) (seq 0 c))) by exact Hi.
  now rewrite (nth_tab (f i)).
Qed.

Lemma has_shape_mesh_tab (r c : nat) (f : nat -> nat -> Q) : has_shape r c (mesh_tab r c f).
Proof.
  unfold has_shape, mesh_tab. split.
  - now rewrite length_map, length_seq.
  - apply Forall_forall. intros row Hrow. apply in_map_iff in Hrow.
    destruct Hrow as (i & <- & _). now rewrite length_map, length_seq.
Qed.

Lemma has_shape_row (r c : nat) (m : Mesh) (i : nat) :
  has_shape r c m -> (i < r)%nat -> length (nth i m []) = c.
Proof.
  intros [Hl Hf] Hi. rewrite Forall_forall in Hf. apply Hf, nth_In. lia.
Qed.

Lemma length_zip_with {A B C} (f : A -> B -> C) (l : list A) (l' : list B) :
  length (zip_with f l l') = Nat.min (length l) (length l').
Proof.
  revert l'. induction l as [|x l IH]; intros [|y l']; simpl; auto.
Qed.

Lemma nth_zip_with {A B C} (f : A -> B -> C) (l : list A) (l' : list B) (i : nat) da db dc :
  (i < length l)%nat -> (i < length l')%nat ->
  nth i (zip_with f l l') dc = f (nth i l da) (nth i l' db).
Proof.
  revert l' i. induction l as [|x l IH]; intros [|y l'] [|i]; simpl; intros; try lia; auto.
  apply IH; lia.
Qed.

Lemma has_shape_mesh_zip (f : Q -> Q -> Q) (r c : nat) (a b : Mesh) :
  has_shape r c a -> has_shape r c b -> has_shape r c (mesh_zip f a b).
Proof.
  unfold has_shape, mesh_zip. intros [Ha Fa] [Hb Fb]. split.
  - rewrite length_zip_with. lia.
  - clear Ha Hb. revert b Fb. induction Fa as [|x a Hx Fa IH]; intros [|y b] Fb; simpl; auto.
    inversion Fb; subst. constructor; [|auto].
    rewrite length_zip_with. lia.
Qed.

Lemma get_mesh_zip (f : Q -> Q -> Q) (r c : nat) (a b : Mesh) (i j : nat) :
  has_shape r c a -> has_shape r c b -> (i < r)%nat -> (j < c)%nat ->
  get (mesh_zip f a b) i j = f (get a i j) (get b i j).
Proof.
  intros Ha Hb Hi Hj. unfold get, mesh_zip.
  pose proof (has_shape_row _ _ _ _ Ha Hi) as Ra.
  pose proof (has_shape_row _ _ _ _ Hb Hi) as Rb.
  destruct Ha as [La _], Hb as [Lb _].
  rewrite (nth_zip_with _ a b i [] []) by lia.
  apply nth_zip_with; lia.
Qed.

Lemma has_shape_mesh_map (f : Q -> Q) (r c : nat) (m : Mesh) :
  has_shape r c m -> has_shape r c (mesh_map f m).
Proof.
  unfold has_shape, mesh_map. intros [Hl Hf]. split.
  - now rewrite length_map.
  - apply Forall_map. eapply Forall_impl; [|exact Hf].
    intros row Hr. simpl. now rewrite length_map.
Qed.

Lemma get_mesh_map (f : Q -> Q) (r c : nat) (m : Mesh) (i j : nat) :
  has_shape r c m -> (i < r)%nat -> (j < c)%nat ->
  get (mesh_map f m) i j = f (get m i j).
Proof.
  intros Hm Hi Hj. unfold get, mesh_map.
  pose proof (has_shape_row _ _ _ _ Hm Hi) as Rm. destruct Hm as [Lm _].
  rewrite (nth_indep _ [] (map f [])) by (rewrite length_map; lia).
  rewrite map_nth.
  rewrite (nth_indep _ 0 (f 0)) by (rewrite length_map; lia).
  now rewrite map_nth.
Qed.

End NpFacts.

(** ** algorithms/screw_solver.py *)

Section WeightFacts.
Import Np Bed ScrewSolver.
Variable cfg : BedConfig.
Let rows := mesh_points_x cfg.
Let cols := mesh_points_y cfg.

Lemma outer_tab (f : Q -> Q -> Q) (g h : nat -> Q) (r c : nat) :
  outer f (map g (seq 0 r)) (map h (seq 0 c)) = mesh_tab r c (fun i j => f (g i) (h j)).
Proof.
  unfold outer, mesh_tab. rewrite map_map. apply map_ext. intros i. now rewrite map_map.
Qed.

Lemma bilinear_shape (c : Corner) : has_shape rows cols (bilinear cfg c).
Proof.
  destruct c; unfold bilinear, row_factors, col_factors; rewrite outer_tab;
    apply has_shape_mesh_tab.
Qed.

Lemma get_bilinear (c : Corner) (i j : nat) :
  (i < rows)%nat -> (j < cols)%nat ->
  get (bilinear cfg c) i j =
  let r := linspace 0 1 rows i in
  let k := linspace 0 1 cols j in
  match c with
  | front_left => (1 - r) * (1 - k)
  | front_right => (1 - r) * k
  | back_left => r * (1 - k)
  | back_right => r * k
  end.
Proof.
  intros Hi Hj.
  destruct c; unfold bilinear, row_factors, col_factors; rewrite outer_tab;
    now rewrite get_mesh_tab.
Qed.

Lemma total_weight_shape : has_shape rows cols (total_weight cfg).
Proof.
  unfold total_weight, add.
  repeat apply has_shape_mesh_zip; try apply bilinear_shape.
  apply has_shape_mesh_map, bilinear_shape.
Qed.

Lemma get_total_weight (i j : nat) :
  (i < rows)%nat -> (j < cols)%nat -> get (total_weight cfg) i j == 1.
Proof.
  intros Hi Hj. unfold total_weight, add.
  pose proof bilinear_shape as Hs.
  assert (H0 : has_shape rows cols (mesh_map (Qplus 0) (bilinear cfg front_left)))
    by apply has_shape_mesh_map, Hs.
  rewrite (get_mesh_zip _ rows cols); auto using has_shape_mesh_zip.
  rewrite (get_mesh_zip _ rows cols); auto using has_shape_mesh_zip.
  rewrite (get_mesh_zip _ rows cols); auto.
  rewrite (get_mesh_map _ rows cols); auto.
  rewrite !get_bilinear by assumption. simpl. ring.
Qed.

Lemma get_correction (i j : nat) :
  (i < rows)%nat -> (j < cols)%nat -> get (correction cfg) i j == 1.
Proof.
  intros Hi Hj. unfold correction.
  rewrite (get_mesh_map _ rows cols) by (auto using total_weight_shape).
  pose proof (get_total_weight i j Hi Hj) as Ht.
  destruct (Qneb (get (total_weight cfg) i j) 0) eqn:E.
  - rewrite Ht. reflexivity.
  - apply Qneb_eq in E. rewrite Ht in E. discriminate E.
Qed.

Lemma corner_weights_shape (c : Corner) :
  has_shape rows cols (_compute_corner_weights cfg c).
Proof.
  unfold _compute_corner_weights. fold rows cols.
  destruct (_ || _).
  - apply has_shape_mesh_tab.
  - apply has_shape_mesh_zip; [apply bilinear_shape|].
    apply has_shape_mesh_map, total_weight_shape.
Qed.

(** On a grid of at least 2x2 points the weight of a corner is its bilinear
    interpolation factor. *)
Lemma get_corner_weight (c : Corner) (i j : nat) :
  (2 <= rows)%nat -> (2 <= cols)%nat -> (i < rows)%nat -> (j < cols)%nat ->
  get (_compute_corner_weights cfg c) i j == get (bilinear cfg c) i j.
Proof.
  intros Hr Hc Hi Hj. unfold _compute_corner_weights. fold rows cols.
  destruct (Nat.ltb_spec rows 2); [lia|]. destruct (Nat.ltb_spec cols 2); [lia|]. simpl.
  unfold mul. rewrite (get_mesh_zip _ rows cols); auto using bilinear_shape.
  - rewrite get_correction by assumption. ring.
  - apply has_shape_mesh_map, total_weight_shape.
Qed.

(** C4. On a grid with at least 2 rows and 2 columns the four corner weight
    maps sum to 1 at every grid point (exactly, hence within 1e-9); on a
    grid with fewer than 2 rows or fewer than 2 columns every corner's map
    has the grid's shape and is 1 at every point. *)
Theorem corner_weights_normalised :
  ((2 <= rows)%nat -> (2 <= cols)%nat ->
   forall i j, (i < rows)%nat -> (j < cols)%nat ->
     let total := get (_compute_corner_weights cfg front_left) i j
                  + get (_compute_corner_weights cfg front_right) i j
                  + get (_compute_corner_weights cfg back_left) i j
                  + get (_compute_corner_weights cfg back_right) i j in
     total == 1 /\ Qabs (total - 1) <= 1 # 1000000000) /\
  ((rows < 2)%nat \/ (cols < 2)%nat ->
   forall c, has_shape rows cols (_compute_corner_weights cfg c) /\
             forall i j, (i < rows)%nat -> (j < cols)%nat ->
                         get (_compute_corner_weights cfg c) i j = 1).
Proof.
  split.
  - intros Hr Hc i j Hi Hj total.
    assert (Ht : total == 1).
    { subst total. rewrite !get_corner_weight, !get_bilinear by assumption. simpl. ring. }
    split; [exact Ht|]. rewrite Ht. vm_compute. discriminate.
  - intros Hd c. split; [apply corner_weights_shape|].
    intros i j Hi Hj. unfold _compute_corner_weights. fold rows cols.
    assert (E : Nat.ltb rows 2 || Nat.ltb cols 2 = true).
    { apply orb_true_iff. destruct Hd; [left | right]; now apply Nat.ltb_lt. }
    rewrite E. unfold ones. now rewrite get_mesh_tab.
Qed.

End WeightFacts.

Lemma corner_weights_normalised_witness :
  let cfg := Bed.mkBedConfig 220 220 3 3 in
  let cfg1 := Bed.mkBedConfig 220 220 1 3 in
  Np.get (ScrewSolver._compute_corner_weights cfg Bed.front_left) 1 2
  + Np.get (ScrewSolver._compute_corner_weights cfg Bed.front_right) 1 2
  + Np.get (ScrewSolver._compute_corner_weights cfg Bed.back_left) 1 2
  + Np.get (ScrewSolver._compute_corner_weights cfg Bed.back_right) 1 2 == 1 /\
  Np.get (ScrewSolver._compute_corner_weights cfg1 Bed.back_right) 0 2 = 1.
Proof.
  intros cfg cfg1. split.
  - apply (proj1 (corner_weights_normalised cfg)); simpl; lia.
  - apply (proj2 (corner_weights_normalised cfg1)); simpl; lia.
Defined.

(** *** Order of the simulated adjustments *)

Section MeshEq.
Import Np.

Lemma Forall2_refl {A} (R : A -> A -> Prop) (l : list A) :
  (forall x, R x x) -> Forall2 R l l.
Proof. intros H. induction l; constructor; auto. Qed.

Lemma Forall2_trans {A} (R : A -> A -> Prop) (l1 l2 l3 : list A) :
  (forall x y z, R x y -> R y z -> R x z) ->
  Forall2 R l1 l2 -> Forall2 R l2 l3 -> Forall2 R l1 l3.
Proof.
  intros HR H12. revert l3. induction H12; intros l3 H23; inversion H23; subst;
    constructor; eauto.
Qed.

Lemma row_eq_refl (r : list Q) : Forall2 Qeq r r.
Proof. apply Forall2_refl, Qeq_refl. Qed.

Lemma mesh_eq_refl (m : Mesh) : mesh_eq m m.
Proof. apply Forall2_refl, row_eq_refl. Qed.

Lemma mesh_eq_trans (a b c : Mesh) : mesh_eq a b -> mesh_eq b c -> mesh_eq a c.
Proof.
  apply Forall2_trans. intros x y z. apply Forall2_trans. intros ? ? ?. apply Qeq_trans.
Qed.

Lemma row_eq_nth (r r' : list Q) (j : nat) : Forall2 Qeq r r' -> nth j r 0 == nth j r' 0.
Proof.
  intros H. revert j. induction H; intros [|j]; simpl; auto; reflexivity.
Qed.

(** Cells of pointwise equal arrays are equal. *)
Lemma mesh_eq_get (a b : Mesh) (i j : nat) : mesh_eq a b -> get a i j == get b i j.
Proof.
  intros H. unfold get. revert i. induction H as [|ra rb a b Hr _ IH]; intros [|i]; simpl.
  - reflexivity.
  - reflexivity.
  - now apply row_eq_nth.
  - apply IH.
Qed.

Lemma zip_with_proper {A B} (R : A -> A -> Prop) (f : A -> B -> A) (l l' : list A)
  (k : list B) :
  (forall x x' y, R x x' -> R (f x y) (f x' y)) ->
  Forall2 R l l' -> Forall2 R (zip_with f l k) (zip_with f l' k).
Proof.
  intros Hf H. revert k.
  induction H as [|p q l l' Hpq _ IH]; intros [|y k]; simpl; constructor; auto.
Qed.

Lemma zip_with_swap {A B} (R : A -> A -> Prop) (f : A -> B -> A) (l : list A)
  (a b : list B) :
  (forall x y z, R (f (f x y) z) (f (f x z) y)) ->
  Forall2 R (zip_with f (zip_with f l a) b) (zip_with f (zip_with f l b) a).
Proof.
  intros Hf. revert a b. induction l as [|x l IH]; intros [|y a] [|z b]; simpl;
    try constructor; auto.
Qed.

Lemma add_proper (a a' w : Mesh) : mesh_eq a a' -> mesh_eq (add a w) (add a' w).
Proof.
  apply zip_with_proper. intros x x' y. apply zip_with_proper.
  intros p p' q Hp. now rewrite Hp.
Qed.

Lemma add_swap (m a b : Mesh) : mesh_eq (add (add m a) b) (add (add m b) a).
Proof.
  apply zip_with_swap. intros x y z. apply zip_with_swap.
  intros p q r. ring.
Qed.

End MeshEq.

Section SequenceFacts.
Import Np Bed Screw ScrewSolver.
Variable s : ScrewSolver.

Lemma simulate_adjustment_some (a : ScrewAdjustment) (m : Mesh) :
  simulate_adjustment s a (Some m) = Ok (adjusted s m a).
Proof. reflexivity. Qed.

(** With a base mesh at hand the simulation cannot fail. *)
Lemma simulate_sequence_some (l : list ScrewAdjustment) (m : Mesh) :
  simulate_sequence s l (Some m) = Ok (fold_left (adjusted s) l m).
Proof.
  unfold simulate_sequence. simpl. revert m.
  induction l as [|a l IH]; intros m; simpl; [reflexivity|]. apply IH.
Qed.

Lemma fold_adjusted_proper (l : list ScrewAdjustment) (m m' : Mesh) :
  mesh_eq m m' -> mesh_eq (fold_left (adjusted s) l m) (fold_left (adjusted s) l m').
Proof.
  revert m m'. induction l as [|a l IH]; intros m m' H; simpl; [exact H|].
  apply IH. now apply add_proper.
Qed.

Lemma fold_adjusted_perm (l l' : list ScrewAdjustment) :
  Permutation l l' ->
  forall m m', mesh_eq m m' -> mesh_eq (fold_left (adjusted s) l m) (fold_left (adjusted s) l' m').
Proof.
  induction 1 as [|a l l' _ IH|a b l|l1 l2 l3 _ IH1 _ IH2]; intros m m' Hm; simpl.
  - exact Hm.
  - apply IH. now apply add_proper.
  - apply fold_adjusted_proper.
    eapply mesh_eq_trans; [apply add_swap|].
    unfold adjusted. now do 2 apply add_proper.
  - eapply mesh_eq_trans; [apply IH1, Hm | apply IH2, mesh_eq_refl].
Qed.

(** C8. Simulating any permutation of a list of adjustments on a base mesh
    gives the same mesh as simulating the list itself. *)
Theorem simulate_sequence_permutation (l l' : list ScrewAdjustment) (base_mesh : Mesh) :
  Permutation l l' ->
  exists r r',
    simulate_sequence s l (Some base_mesh) = Ok r /\
    simulate_sequence s l' (Some base_mesh) = Ok r' /\
    mesh_eq r r' /\
    forall i j, get r i j == get r' i j.
Proof.
  intros H. exists (fold_left (adjusted s) l base_mesh), (fold_left (adjusted s) l' base_mesh).
  rewrite !simulate_sequence_some.
  pose proof (fold_adjusted_perm l l' H base_mesh base_mesh (mesh_eq_refl _)) as E.
  repeat split; [exact E|]. intros i j. now apply mesh_eq_get.
Qed.

End SequenceFacts.

Lemma simulate_sequence_permutation_witness :
  let a := ScrewSolver.mkScrewAdjustment Bed.front_left 30 180 Screw.CLOCKWISE 1 0 1 (1 # 2) in
  let b := ScrewSolver.mkScrewAdjustment Bed.back_right 12 72 Screw.COUNTERCLOCKWISE 0 1 1 (1 # 5) in
  Permutation [a; b] [b; a] /\
  exists r r',
    ScrewSolver.simulate_sequence Example1.solver [a; b] (Some Example1.mesh0) = Ok r /\
    ScrewSolver.simulate_sequence Example1.solver [b; a] (Some Example1.mesh0) = Ok r' /\
    Np.mesh_eq r r' /\
    forall i j, Np.get r i j == Np.get r' i j.
Proof.
  intros a b.
  assert (H : Permutation [a; b] [b; a]) by apply perm_swap.
  split; [exact H|].
  exact (simulate_sequence_permutation Example1.solver _ _ Example1.mesh0 H).
Defined.

(** ** algorithms/tape_calculator.py *)

Section BlockFacts.
Import Np.

Lemma length_map_range {A} (f : A -> A) (lo hi i : nat) (l : list A) :
  length (map_range f lo hi i l) = length l.
Proof.
  revert i. induction l as [|x l IH]; intros i; simpl; auto.
Qed.

Lemma nth_map_range {A} (f : A -> A) (lo hi i k : nat) (l : list A) (d : A) :
  nth k (map_range f lo hi i l) d =
  if Nat.ltb k (length l) && in_range lo hi (i + k) then f (nth k l d) else nth k l d.
Proof.
  revert i k. induction l as [|x l IH]; intros i k; simpl.
  - now destruct k.
  - destruct k as [|k]; simpl.
    + rewrite Nat.add_0_r. now destruct (in_range lo hi i).
    + rewrite IH. replace (S i + k)%nat with (i + S k)%nat by lia. reflexivity.
Qed.

(** A cell of [m] after [m[x0:x1, y0:y1] += h]. *)
Lemma get_add_block (x0 x1 y0 y1 : nat) (h : Q) (m : Mesh) (i j : nat) :
  get (add_block x0 x1 y0 y1 h m) i j =
  if Nat.ltb i (length m) && in_range x0 x1 i
     && (Nat.ltb j (length (nth i m [])) && in_range y0 y1 j)
  then get m i j + h else get m i j.
Proof.
  unfold get, add_block. rewrite nth_map_range. simpl.
  destruct (Nat.ltb i (length m) && in_range x0 x1 i); simpl; [|reflexivity].
  rewrite nth_map_range. simpl. reflexivity.
Qed.

Lemma add_block_rows (x0 x1 y0 y1 : nat) (h : Q) (m : Mesh) :
  length (add_block x0 x1 y0 y1 h m) = length m /\
  forall i, length (nth i (add_block x0 x1 y0 y1 h m) []) = length (nth i m []).
Proof.
  unfold add_block. split; [apply length_map_range|].
  intros i. rewrite nth_map_range. destruct (_ && _); [|reflexivity].
  apply length_map_range.
Qed.

End BlockFacts.

Section TapeFacts.
Import Np Bed TapeCalculator.
Variable t : TapeCalculator.

Lemma in_range_spec (lo hi i : nat) : in_range lo hi i = true <-> (lo <= i < hi)%nat.
Proof.
  unfold in_range. rewrite andb_true_iff, Nat.leb_le, Nat.ltb_lt. tauto.
Qed.

Lemma apply_spot_outside (m : Mesh) (spot : TapeSpot) (i j : nat) :
  ~ in_neighbourhood t spot i j -> get (apply_spot t m spot) i j = get m i j.
Proof.
  intros H. unfold apply_spot. rewrite get_add_block.
  destruct (in_range _ _ i) eqn:Ei; [|now rewrite andb_false_r].
  destruct (in_range _ _ j) eqn:Ej; [|now rewrite !andb_false_r].
  apply in_range_spec in Ei, Ej. exfalso. apply H. split; assumption.
Qed.

Lemma apply_spot_increases (m : Mesh) (spot : TapeSpot) (i j : nat) :
  (1 <= layers spot)%Z -> 0 <= tape_thickness t ->
  get m i j <= get (apply_spot t m spot) i j.
Proof.
  intros Hl Ht. unfold apply_spot. rewrite get_add_block.
  destruct (_ && _); [|apply Qle_refl].
  assert (0 <= inject_Z (layers spot) * tape_thickness t); [|lra].
  apply Qmult_le_0_compat; [|exact Ht].
  change 0 with (inject_Z 0). rewrite <- Zle_Qle. lia.
Qed.

Lemma apply_spot_rows (m : Mesh) (spot : TapeSpot) :
  length (apply_spot t m spot) = length m /\
  forall i, length (nth i (apply_spot t m spot) []) = length (nth i m []).
Proof. apply add_block_rows. Qed.

(** C10. With layer counts of at least 1 and a non-negative tape thickness,
    [apply_spots] returns a mesh of the shape of its input in which no cell
    is lower than in the input, and every cell outside the clamped 3x3
    neighbourhoods of all the spots is unchanged. *)
Theorem apply_spots_monotone (base_mesh : Mesh) (spots : list TapeSpot) :
  (forall s, In s spots -> (1 <= layers s)%Z) ->
  0 <= tape_thickness t ->
  let out := apply_spots t base_mesh spots in
  (length out = length base_mesh /\
   forall i, length (nth i out []) = length (nth i base_mesh [])) /\
  (forall i j, get base_mesh i j <= get out i j) /\
  (forall i j, (forall s, In s spots -> ~ in_neighbourhood t s i j) ->
               get out i j = get base_mesh i j).
Proof.
  intros Hl Ht. unfold apply_spots. revert base_mesh.
  induction spots as [|s spots IH]; intros base_mesh; simpl.
  - repeat split; intros; apply Qle_refl.
  - destruct (IH (fun s' H => Hl s' (or_intror H)) (apply_spot t base_mesh s))
      as ((IHl & IHr) & IHm & IHu).
    destruct (apply_spot_rows base_mesh s) as [Sl Sr].
    split; [|split].
    + split; [congruence|]. intros i. rewrite IHr. apply Sr.
    + intros i j. eapply Qle_trans; [|apply IHm].
      apply apply_spot_increases; [apply Hl; now left | exact Ht].
    + intros i j H. rewrite IHu by (intros s' Hs'; apply H; now right).
      apply apply_spot_outside, H. now left.
Qed.

End TapeFacts.

Lemma apply_spots_monotone_witness :
  let spots := [TapeCalculator.mkTapeSpot 1 1 3 (13 # 100) 3 12100;
                TapeCalculator.mkTapeSpot 0 1 1 (5 # 100) 3 12100] in
  let out := TapeCalculator.apply_spots Example1.tape Example1.mesh0 spots in
  (forall s, In s spots -> (1 <= TapeCalculator.layers s)%Z) /\
  0 <= TapeCalculator.tape_thickness Example1.tape /\
  (forall i j, Np.get Example1.mesh0 i j <= Np.get out i j).
Proof.
  intros spots out.
  assert (Hl : forall s, In s spots -> (1 <= TapeCalculator.layers s)%Z).
  { intros s [<-|[<-|[]]]; simpl; lia. }
  assert (Ht : 0 <= TapeCalculator.tape_thickness Example1.tape) by (vm_compute; discriminate).
  split; [exact Hl|]. split; [exact Ht|].
  apply (apply_spots_monotone Example1.tape Example1.mesh0 spots Hl Ht).
Defined.

(** *** Sorting *)

Section SortedFacts.
Context {A : Type} (ltb : A -> A -> bool).

(** [le a b]: [a] may stand before [b], that is, not [key b < key a]. *)
Let le (a b : A) : Prop := ltb b a = false.

Hypothesis ltb_asym : forall a b, ltb a b = true -> ltb b a = false.
Hypothesis le_trans : forall a b c, le a b -> le b c -> le a c.

Lemma insert_sorted_perm (x : A) (l : list A) : Permutation (x :: l) (insert_sorted ltb x l).
Proof.
  induction l as [|y l IH]; simpl; [reflexivity|].
  destruct (ltb y x); [|reflexivity].
  rewrite perm_swap. now constructor.
Qed.

Lemma py_sorted_perm (l : list A) : Permutation l (py_sorted ltb l).
Proof.
  induction l as [|x l IH]; simpl; [reflexivity|].
  rewrite <- insert_sorted_perm. now constructor.
Qed.

Lemma insert_sorted_sorted (x : A) (l : list A) :
  StronglySorted le l -> StronglySorted le (insert_sorted ltb x l).
Proof.
  induction 1 as [|y l Hs IH Hy]; simpl.
  - repeat constructor.
  - destruct (ltb y x) eqn:E.
    + constructor; [exact IH|].
      rewrite Forall_forall in *. intros z Hz.
      apply (Permutation_in _ (Permutation_sym (insert_sorted_perm x l))) in Hz.
      destruct Hz as [<-|Hz]; [now apply ltb_asym | now apply Hy].
    + constructor; [now constructor|].
      constructor; [exact E|].
      eapply Forall_impl; [|exact Hy]. intros z Hz. now apply (le_trans x y z).
Qed.

Lemma py_sorted_sorted (l : list A) : StronglySorted le (py_sorted ltb l).
Proof.
  induction l as [|x l IH]; simpl; [constructor | now apply insert_sorted_sorted].
Qed.

End SortedFacts.

Lemma key_ltb_true (k1 k2 : Z * Q) :
  key_ltb k1 k2 = true <->
  (fst k1 < fst k2)%Z \/ (fst k1 = fst k2 /\ snd k1 < snd k2).
Proof.
  unfold key_ltb. rewrite orb_true_iff, andb_true_iff, Z.ltb_lt, Z.eqb_eq, Qltb_lt. tauto.
Qed.

Lemma key_ltb_false (k1 k2 : Z * Q) :
  key_ltb k1 k2 = false <->
  (fst k2 < fst k1)%Z \/ (fst k1 = fst k2 /\ snd k2 <= snd k1).
Proof.
  unfold key_ltb. rewrite orb_false_iff, andb_false_iff, Z.ltb_ge, Z.eqb_neq, Qltb_ge.
  split.
  - intros [H1 [H2|H2]]; [left; lia|].
    destruct (Z.eq_dec (fst k1) (fst k2)); [right; auto | left; lia].
  - intros [H|[H1 H2]]; (split; [lia|]); [left; lia | now right].
Qed.

Lemma key_ltb_asym (k1 k2 : Z * Q) : key_ltb k1 k2 = true -> key_ltb k2 k1 = false.
Proof.
  rewrite key_ltb_true, key_ltb_false.
  intros [H|[H1 H2]]; [left; exact H | right; split; [symmetry; exact H1 | lra]].
Qed.

Lemma key_le_trans (k1 k2 k3 : Z * Q) :
  key_ltb k2 k1 = false -> key_ltb k3 k2 = false -> key_ltb k3 k1 = false.
Proof.
  rewrite !key_ltb_false.
  intros [H|[H1 H2]] [H'|[H1' H2']]; try (left; lia).
  right. split; [congruence | lra].
Qed.

Lemma NoDup_list_prod {A B} (l : list A) (l' : list B) :
  NoDup l -> NoDup l' -> NoDup (list_prod l l').
Proof.
  intros Hl Hl'. induction Hl as [|x l Hx Hl IH]; simpl; [constructor|].
  apply NoDup_app; [|exact IH|].
  - clear -Hl'. induction Hl' as [|y l' Hy Hl' IH]; simpl; constructor; [|exact IH].
    intros H. apply in_map_iff in H. destruct H as (z & E & Hz). congruence.
  - intros [a b] H1 H2. apply in_map_iff in H1. destruct H1 as (z & E & _).
    apply in_prod_iff in H2. destruct H2 as [H2 _]. congruence.
Qed.

(** *** [find_low_spots] *)

Section LowSpotFacts.
Import Np Bed TapeCalculator.
Variable t : TapeCalculator.
Variable mesh : Mesh.

Lemma _is_near_screw_spec (i j : nat) :
  _is_near_screw t i j = true <-> exists c, corners (config (bed t)) c = (i, j).
Proof.
  unfold _is_near_screw. rewrite existsb_exists. split.
  - intros (c & _ & H). exists c. destruct (corners _ c) as [cx cy].
    apply andb_true_iff in H. destruct H as [H1 H2].
    apply Nat.eqb_eq in H1, H2. congruence.
  - intros (c & H). exists c. split; [destruct c; simpl; tauto|].
    rewrite H. now rewrite !Nat.eqb_refl.
Qed.

Lemma spot_at_coords (cells : list (nat * nat)) :
  map coord (flat_map (spot_at t mesh (mean mesh)) cells) = filter (is_low t mesh) cells.
Proof.
  induction cells as [|[i j] cells IH]; simpl; [reflexivity|].
  rewrite map_app, IH. unfold is_low at 2, deficit. simpl.
  destruct (_is_near_screw t i j); simpl; [reflexivity|].
  now destruct (Qgtb _ _).
Qed.

Lemma spot_at_fields (cells : list (nat * nat)) (s : TapeSpot) :
  In s (flat_map (spot_at t mesh (mean mesh)) cells) ->
  height_diff s = deficit mesh (coord s) /\
  layers s = Z.max 1 (Qceiling (height_diff s / tape_thickness t)) /\
  priority s = _calculate_priority (height_diff s) /\
  area_size s = _calculate_area_size t (x s) (y s) (height_diff s).
Proof.
  intros H. apply in_flat_map in H. destruct H as ([i j] & _ & H).
  unfold spot_at in H. destruct (_is_near_screw t i j); [contradiction|].
  destruct (Qgtb _ _); [|contradiction].
  destruct H as [<-|[]]. simpl. repeat split.
Qed.

Lemma _calculate_priority_spec (d : Q) :
  (3 # 10 < d -> _calculate_priority d = 1%Z) /\
  (~ 3 # 10 < d -> 2 # 10 < d -> _calculate_priority d = 2%Z) /\
  (~ 3 # 10 < d -> ~ 2 # 10 < d -> _calculate_priority d = 3%Z).
Proof.
  unfold _calculate_priority.
  destruct (Qgtb d (3 # 10)) eqn:E1; [apply Qgtb_gt in E1 | apply Qgtb_le in E1];
    (destruct (Qgtb d (2 # 10)) eqn:E2; [apply Qgtb_gt in E2 | apply Qgtb_le in E2]);
    repeat split; intros; try reflexivity; try lra.
Qed.

(** C5. [find_low_spots] returns exactly one spot for each grid cell that is
    not a corner screw position and lies below the mesh mean by more than
    [min_height_diff]; each spot carries that deficit, the layer count
    [max(1, ceil(diff / tape_thickness))] and the priority 1 for
    [diff > 0.3], 2 for [diff > 0.2] and 3 otherwise; the list is sorted by
    priority ascending, then deficit descending; a deficit of 0.13 with a
    tape thickness of 0.06 gives 3 layers. *)
Theorem find_low_spots_spec :
  let out := find_low_spots t mesh in
  Permutation (map coord out) (filter (is_low t mesh) (grid_cells (config (bed t)))) /\
  NoDup (map coord out) /\
  (forall s, In s out ->
     height_diff s = deficit mesh (coord s) /\
     layers s = Z.max 1 (Qceiling (height_diff s / tape_thickness t)) /\
     (3 # 10 < height_diff s -> priority s = 1%Z) /\
     (~ 3 # 10 < height_diff s -> 2 # 10 < height_diff s -> priority s = 2%Z) /\
     (~ 3 # 10 < height_diff s -> ~ 2 # 10 < height_diff s -> priority s = 3%Z)) /\
  StronglySorted before out /\
  (tape_thickness t == 6 # 100 ->
   forall s, In s out -> height_diff s == 13 # 100 -> layers s = 3%Z).
Proof.
  intros out. unfold find_low_spots in out.
  set (ltb := fun a b => key_ltb (sort_key a) (sort_key b)) in out.
  set (spots := flat_map (spot_at t mesh (mean mesh)) (grid_cells (config (bed t)))) in out.
  assert (Hperm : Permutation spots out) by apply py_sorted_perm.
  assert (Hcoords : Permutation (map coord out) (filter (is_low t mesh) (grid_cells (config (bed t))))).
  { rewrite <- Hperm. unfold spots. now rewrite spot_at_coords. }
  assert (Hfields : forall s, In s out ->
            height_diff s = deficit mesh (coord s) /\
            layers s = Z.max 1 (Qceiling (height_diff s / tape_thickness t)) /\
            priority s = _calculate_priority (height_diff s)).
  { intros s Hs. apply (Permutation_in _ (Permutation_sym Hperm)) in Hs.
    destruct (spot_at_fields _ _ Hs) as (H1 & H2 & H3 & _). auto. }
  split; [exact Hcoords|]. split; [|split; [|split]].
  - apply (Permutation_NoDup (Permutation_sym Hcoords)).
    apply NoDup_filter, NoDup_list_prod; apply seq_NoDup.
  - intros s Hs. destruct (Hfields s Hs) as (H1 & H2 & H3).
    split; [exact H1|]. split; [exact H2|]. rewrite H3. apply _calculate_priority_spec.
  - assert (Hs : StronglySorted (fun a b => ltb b a = false) out).
    { apply py_sorted_sorted.
      - intros a b. apply key_ltb_asym.
      - intros a b c. unfold ltb. apply key_le_trans. }
    clear -Hs. induction Hs as [|a l _ IH Ha]; constructor; [exact IH|].
    eapply Forall_impl; [|exact Ha]. intros b Hb. unfold ltb in Hb.
    apply key_ltb_false in Hb. unfold sort_key in Hb. simpl in Hb. unfold before.
    destruct Hb as [Hb|[Hb1 Hb2]]; [left; exact Hb | right; split; [auto | lra]].
  - intros Ht s Hs Hd. destruct (Hfields s Hs) as (_ & H2 & _).
    rewrite H2, Hd, Ht. reflexivity.
Qed.

End LowSpotFacts.

Lemma find_low_spots_spec_witness :
  TapeCalculator.tape_thickness Example2.tape == 6 # 100 /\
  exists s,
    TapeCalculator.find_low_spots Example2.tape Example2.mesh0 = [s] /\
    TapeCalculator.coord s = (2, 2)%nat /\
    TapeCalculator.height_diff s == 13 # 100 /\
    TapeCalculator.layers s = 3%Z.
Proof.
  assert (Ht : TapeCalculator.tape_thickness Example2.tape == 6 # 100) by reflexivity.
  split; [exact Ht|].
  destruct (find_low_spots_spec Example2.tape Example2.mesh0) as (_ & _ & _ & _ & H).
  destruct (TapeCalculator.find_low_spots Example2.tape Example2.mesh0) as [|s l] eqn:E;
    vm_compute in E; [discriminate|].
  injection E as <- <-. eexists. split; [reflexivity|].
  split; [reflexivity|]. split; [reflexivity|].
  apply (H Ht); [now left | reflexivity].
Defined.

(** ** Means of arrays *)

Section MeanFacts.
Import Np.

Lemma qsum_app (l l' : list Q) : qsum (l ++ l') == qsum l + qsum l'.
Proof.
  induction l as [|x l IH]; simpl; [ring|]. rewrite IH. ring.
Qed.

Lemma qsum_zip_minus (l l' : list Q) :
  length l = length l' -> qsum (zip_with Qminus l l') == qsum l - qsum l'.
Proof.
  revert l'. induction l as [|x l IH]; intros [|y l'] H; simpl in *; try discriminate.
  - ring.
  - rewrite IH by lia. ring.
Qed.

Lemma qsum_map_minus (l : list Q) (k : Q) :
  qsum (map (fun v => v - k) l) == qsum l - inject_Z (Z.of_nat (length l)) * k.
Proof.
  induction l as [|x l IH]; [simpl; ring|].
  change (length (x :: l)) with (S (length l)).
  rewrite Nat2Z.inj_succ. unfold Z.succ. rewrite inject_Z_plus. simpl qsum.
  rewrite IH. ring.
Qed.

Lemma size_has_shape (r c : nat) (m : Mesh) : has_shape r c m -> size m = (r * c)%nat.
Proof.
  unfold size, flat. intros [Hl Hf]. subst r.
  induction Hf as [|row m Hrow _ IH]; simpl; [reflexivity|].
  rewrite length_app, IH, Hrow. reflexivity.
Qed.

Lemma qsum_sub (r c : nat) (a b : Mesh) :
  has_shape r c a -> has_shape r c b ->
  qsum (flat (sub a b)) == qsum (flat a) - qsum (flat b).
Proof.
  unfold flat, sub, mesh_zip. intros [La Fa] [Lb Fb]. subst r. revert b Lb Fb.
  induction Fa as [|ra a Hra _ IH]; intros [|rb b] Lb Fb; simpl in *; try discriminate.
  - ring.
  - inversion Fb; subst. rewrite !qsum_app, qsum_zip_minus by congruence.
    rewrite IH by (auto; lia). ring.
Qed.

Lemma qsum_sub_scalar (m : Mesh) (k : Q) :
  qsum (flat (sub_scalar m k)) == qsum (flat m) - inject_Z (Z.of_nat (size m)) * k.
Proof.
  unfold sub_scalar, mesh_map, size, flat.
  rewrite <- concat_map. apply qsum_map_minus.
Qed.

Lemma mean_sub (r c : nat) (a b : Mesh) :
  has_shape r c a -> has_shape r c b -> mean (sub a b) == mean a - mean b.
Proof.
  intros Ha Hb. unfold mean, list_mean. fold (size (sub a b)) (size a) (size b).
  rewrite (size_has_shape r c (sub a b)) by now apply has_shape_mesh_zip.
  rewrite (size_has_shape r c a), (size_has_shape r c b) by assumption.
  rewrite (qsum_sub r c) by assumption.
  unfold Qdiv. ring.
Qed.

Lemma mean_sub_scalar (r c : nat) (m : Mesh) (k : Q) :
  has_shape r c m -> (0 < r)%nat -> (0 < c)%nat -> mean (sub_scalar m k) == mean m - k.
Proof.
  intros Hm Hr Hc. unfold mean, list_mean. fold (size (sub_scalar m k)) (size m).
  rewrite (size_has_shape r c (sub_scalar m k)) by now apply has_shape_mesh_map.
  rewrite qsum_sub_scalar, (size_has_shape r c m) by assumption.
  assert (Hn : ~ inject_Z (Z.of_nat (r * c)) == 0).
  { change 0 with (inject_Z 0). rewrite inject_Z_injective. nia. }
  field. exact Hn.
Qed.

End MeanFacts.

(** ** workflow/calculators.py: the belt stage *)

Section BeltFacts.
Import Np Bed Models Calculators.
Variable solver : ScrewSolver.ScrewSolver.
Let rows := mesh_points_x (config (ScrewSolver.bed solver)).
Let cols := mesh_points_y (config (ScrewSolver.bed solver)).
Hypothesis rows_pos : (0 < rows)%nat.
Hypothesis cols_pos : (0 < cols)%nat.

Lemma _normalise_mesh_load_shape (base adjusted : Mesh) :
  has_shape rows cols adjusted -> has_shape rows cols (_normalise_mesh_load base adjusted).
Proof.
  intros H. unfold _normalise_mesh_load. destruct (Qltb _ _); [exact H|].
  now apply has_shape_mesh_map.
Qed.

(** Re-centring leaves the mean of the base mesh, up to the offsets below
    1e-9 that the source does not remove. *)
Lemma _normalise_mesh_load_mean (base adjusted : Mesh) :
  has_shape rows cols base -> has_shape rows cols adjusted ->
  Qabs (mean (_normalise_mesh_load base adjusted) - mean base) <= 1 # 1000000000.
Proof.
  intros Hb Ha. unfold _normalise_mesh_load.
  pose proof (mean_sub rows cols adjusted base Ha Hb) as Hoff.
  destruct (Qltb _ _) eqn:E.
  - apply Qltb_lt in E. rewrite Hoff in E. now apply Qlt_le_weak.
  - rewrite (mean_sub_scalar rows cols) by assumption. rewrite Hoff.
    setoid_replace (mean adjusted - (mean adjusted - mean base) - mean base) with 0 by ring.
    vm_compute. discriminate.
Qed.

Lemma belt_influence_shape (identifier : string) (influence : Mesh) :
  belt_influence (_build_corner_weights solver) identifier = Some influence ->
  has_shape rows cols influence.
Proof.
  unfold belt_influence, _build_corner_weights, ScrewSolver.corner_weights.
  repeat (destruct (String.eqb identifier _)); intros H; inversion H; subst;
    try apply corner_weights_shape.
  apply has_shape_mesh_map, has_shape_mesh_zip; apply corner_weights_shape.
Qed.

Lemma belt_step_shape (result : Mesh) (item : string * StageAction) :
  has_shape rows cols result ->
  has_shape rows cols (belt_step (_build_corner_weights solver) result item).
Proof.
  intros H. destruct item as [identifier action]. unfold belt_step.
  destruct (belt_influence _ identifier) as [influence|] eqn:E; [|exact H].
  apply belt_influence_shape in E. unfold apply_to_corner.
  apply has_shape_mesh_zip; [exact H|]. apply has_shape_mesh_map.
  destruct (Qneb _ _); [now apply has_shape_mesh_map | exact E].
Qed.

Lemma belt_fold_shape (actions : list (string * StageAction)) (result : Mesh) :
  has_shape rows cols result ->
  has_shape rows cols (fold_left (belt_step (_build_corner_weights solver)) actions result).
Proof.
  revert result. induction actions as [|a actions IH]; intros result H; simpl; [exact H|].
  now apply IH, belt_step_shape.
Qed.

Lemma _apply_belt_adjustments_mean (base : Mesh) (actions : list (string * StageAction)) :
  has_shape rows cols base ->
  let balanced := fst (_apply_belt_adjustments base solver actions) in
  has_shape rows cols balanced /\
  Qabs (mean balanced - mean base) <= 1 # 1000000000.
Proof.
  intros Hb. unfold _apply_belt_adjustments. destruct actions as [|a actions]; cbn [fst].
  - split; [exact Hb|].
    assert (E : mean base - mean base == 0) by ring.
    rewrite E. vm_compute. discriminate.
  - pose proof (belt_fold_shape actions _ (belt_step_shape base a Hb)) as Hr.
    split; [now apply _normalise_mesh_load_shape | now apply _normalise_mesh_load_mean].
Qed.

(** C3. With the belt stage enabled, the mesh of the stage (which is the
    mesh handed to the next stage) has the shape of the mesh the stage
    received and its mean differs from the mean of that mesh by at most
    1e-9. *)
Theorem belt_stage_keeps_mean (bed : Bed.Bed) (settings : Settings)
  (mesh_before mesh_after : Mesh) (stage : StageResult) :
  has_shape rows cols mesh_before ->
  build_belt_stage bed solver settings mesh_before true = Ok (stage, mesh_after) ->
  enabled stage = true /\
  mesh stage = mesh_after /\
  has_shape rows cols mesh_after /\
  Qabs (mean mesh_after - mean mesh_before) <= 1 # 1000000000.
Proof.
  intros Hb H. unfold build_belt_stage in H. simpl in H.
  apply bind_ok in H. destruct H as (actions & _ & H).
  pose proof (_apply_belt_adjustments_mean mesh_before actions Hb) as Hm.
  destruct (_apply_belt_adjustments mesh_before solver actions) as [m acts].
  inversion H; subst; clear H. simpl in *. tauto.
Qed.

(** The belt stage of a bed whose mesh is set always returns. *)
Lemma build_belt_stage_returns (bed : Bed.Bed) (settings : Settings)
  (mesh_before m : Mesh) (flag : bool) :
  mesh_data bed = Some m ->
  exists stage mesh_after,
    build_belt_stage bed solver settings mesh_before flag = Ok (stage, mesh_after).
Proof.
  intros Hm. unfold build_belt_stage. destruct (negb flag); [eauto|].
  unfold _calculate_belt_adjustments. rewrite Hm.
  destruct (shape m) as [r c]. simpl.
  destruct (_apply_belt_adjustments _ _ _). eauto.
Qed.

End BeltFacts.

Lemma belt_stage_keeps_mean_witness :
  exists stage mesh_after,
    (0 < 3)%nat /\
    Np.has_shape 3 3 Example1.mesh0 /\
    Calculators.build_belt_stage Example1.bed0 Example1.solver Example1.settings
      Example1.mesh0 true = Ok (stage, mesh_after) /\
    length (Models.actions stage) = 2%nat /\
    Qabs (Np.mean mesh_after - Np.mean Example1.mesh0) <= 1 # 1000000000.
Proof.
  assert (Hs : Np.has_shape 3 3 Example1.mesh0) by (apply has_shapeb_spec; reflexivity).
  assert (Hp : (0 < 3)%nat) by lia.
  destruct (Calculators.build_belt_stage Example1.bed0 Example1.solver Example1.settings
              Example1.mesh0 true) as [[stage mesh_after]|] eqn:E;
    [|vm_compute in E; discriminate].
  exists stage, mesh_after. split; [exact Hp|]. split; [exact Hs|]. split; [reflexivity|].
  split.
  - vm_compute in E. injection E as <- <-. reflexivity.
  - exact (proj2 (proj2 (proj2
      (belt_stage_keeps_mean Example1.solver Hp Hp Example1.bed0 Example1.settings
         Example1.mesh0 mesh_after stage Hs E)))).
Defined.

(** ** algorithms/deviation_analyzer.py *)

Section AnalyzerFacts.
Import Np Bed Screw DeviationAnalyzer.
Variable a : DeviationAnalyzer.
Variable m : Mesh.
Let cfg := config (bed a).
Let rows := mesh_points_x cfg.
Let cols := mesh_points_y cfg.
Hypothesis mesh_set : mesh_data (bed a) = Some m.
Hypothesis mesh_shape : has_shape rows cols m.

Lemma influence_shape (c : Corner) : has_shape rows cols (influence cfg c).
Proof.
  apply has_shape_mesh_tab.
Qed.

Lemma get_influence (c : Corner) (i j : nat) :
  (i < rows)%nat -> (j < cols)%nat -> get (influence cfg c) i j = radial cfg c i j.
Proof.
  intros Hi Hj. unfold influence. now rewrite get_mesh_tab.
Qed.

Lemma estimate_bed_after_screw_adjustment_eq :
  estimate_bed_after_screw_adjustment a =
  Ok (fold_left (fun mesh c => add mesh (scale (corner_height_change a m c) (influence cfg c)))
        corner_keys m).
Proof.
  unfold estimate_bed_after_screw_adjustment, get_ideal_plane, generate_ideal_plane.
  rewrite mesh_set. simpl. unfold corner_height_change.
  repeat (destruct (corner_action a m (ideal_plane m) _)). reflexivity.
Qed.

Lemma add_influence_shape (mesh : Mesh) (c : Corner) :
  has_shape rows cols mesh ->
  has_shape rows cols (add mesh (scale (corner_height_change a m c) (influence cfg c))).
Proof.
  intros H. apply has_shape_mesh_zip; [exact H|]. apply has_shape_mesh_map, influence_shape.
Qed.

Lemma get_add_influence (mesh : Mesh) (c : Corner) (i j : nat) :
  has_shape rows cols mesh -> (i < rows)%nat -> (j < cols)%nat ->
  get (add mesh (scale (corner_height_change a m c) (influence cfg c))) i j =
  get mesh i j + corner_height_change a m c * radial cfg c i j.
Proof.
  intros H Hi Hj. unfold add, scale.
  rewrite (get_mesh_zip _ rows cols), (get_mesh_map _ rows cols), get_influence;
    auto using influence_shape, has_shape_mesh_map.
Qed.

Lemma find_optimal_strategy_eq :
  let simulated :=
    fold_left (fun mesh c => add mesh (scale (corner_height_change a m c) (influence cfg c)))
      corner_keys m in
  let needs_tape := Qgtb (max_abs_deviation simulated) (tape_threshold a) in
  find_optimal_strategy a =
  Ok (mkStrategy (max_abs_deviation m) (max_abs_deviation simulated)
        (Qgtb (max_abs_deviation m) (screw_threshold a)) needs_tape
        (if negb needs_tape then max_abs_deviation simulated else tape_threshold a)
        simulated).
Proof.
  unfold find_optimal_strategy. rewrite mesh_set, estimate_bed_after_screw_adjustment_eq.
  reflexivity.
Qed.

(** C7, as the analyzer computes it. [find_optimal_strategy] returns; the
    mesh it simulates is the bed's mesh plus, for each of the four corners,
    the corner's height change scaled at every grid point by the radial
    influence [max(0, 1 - distance / diagonal)]; [needs_tape] holds exactly
    when the deviation of that mesh exceeds the tape threshold; the expected
    final deviation is that deviation when tape is not needed and the tape
    threshold when it is. *)
Theorem find_optimal_strategy_spec :
  exists r,
    find_optimal_strategy a = Ok r /\
    has_shape rows cols (simulated_bed_after_screws r) /\
    (forall i j, (i < rows)%nat -> (j < cols)%nat ->
       get (simulated_bed_after_screws r) i j ==
       get m i j + corner_height_change a m front_left * radial cfg front_left i j
                 + corner_height_change a m front_right * radial cfg front_right i j
                 + corner_height_change a m back_left * radial cfg back_left i j
                 + corner_height_change a m back_right * radial cfg back_right i j) /\
    deviation_after_screws r = max_abs_deviation (simulated_bed_after_screws r) /\
    (needs_tape r = true <-> tape_threshold a < deviation_after_screws r) /\
    (needs_tape r = false -> expected_final_deviation r = deviation_after_screws r) /\
    (needs_tape r = true -> expected_final_deviation r = tape_threshold a).
Proof.
  eexists. split; [apply find_optimal_strategy_eq|]. unfold corner_keys.
  cbn [fold_left simulated_bed_after_screws deviation_after_screws needs_tape
       expected_final_deviation].
  split; [|split; [|split; [|split; [|split]]]].
  - auto using add_influence_shape.
  - intros i j Hi Hj.
    rewrite !get_add_influence by auto using add_influence_shape. reflexivity.
  - reflexivity.
  - apply Qgtb_gt.
  - intros H. now rewrite H.
  - intros H. now rewrite H.
Qed.

End AnalyzerFacts.

(** The adjustments that the Screw Solver computes for a bed are those of
    the analyzer's [actions], when both hold the same bed and screw
    configuration: the two simulations differ in the influence maps only. *)
Lemma solver_adjustments_are_corner_actions (a : DeviationAnalyzer.DeviationAnalyzer)
  (s : ScrewSolver.ScrewSolver) (m ideal_plane : Mesh) (l : list ScrewSolver.ScrewAdjustment) :
  ScrewSolver.bed s = DeviationAnalyzer.bed a ->
  ScrewSolver.screw_config s = DeviationAnalyzer.screw_config a ->
  Bed.mesh_data (DeviationAnalyzer.bed a) = Some m ->
  ScrewSolver.calculate_adjustments s ideal_plane = Ok l ->
  forall adj, In adj l ->
    (ScrewSolver.minutes adj, ScrewSolver.direction adj)
    = DeviationAnalyzer.corner_action a m ideal_plane (ScrewSolver.corner adj).
Proof.
  intros Hb Hc Hm. unfold ScrewSolver.calculate_adjustments. rewrite Hb, Hm.
  intros H adj Hadj.
  assert (Hgen : forall c, In adj (ScrewSolver.adjustment_for s m ideal_plane c) ->
            (ScrewSolver.minutes adj, ScrewSolver.direction adj)
            = DeviationAnalyzer.corner_action a m ideal_plane (ScrewSolver.corner adj)).
  { intros c Hin. unfold ScrewSolver.adjustment_for in Hin.
    unfold DeviationAnalyzer.corner_action. rewrite Hb, Hc in Hin.
    destruct (Bed.corners (Bed.config (DeviationAnalyzer.bed a)) c) as [cx cy] eqn:Ec.
    destruct (Screw.calculate_adjustment _ _ _) as [mins dir] eqn:E.
    destruct (Qgtb mins 0); [|contradiction].
    destruct Hin as [<-|[]]. simpl. now rewrite Ec, E. }
  assert (El : l = py_sorted
                 (fun x y => key_ltb (ScrewSolver.sort_key x) (ScrewSolver.sort_key y))
                 (flat_map (ScrewSolver.adjustment_for s m ideal_plane) Bed.corner_keys))
    by congruence.
  rewrite El in Hadj.
  apply (Permutation_in _ (Permutation_sym (py_sorted_perm _ _))) in Hadj.
  apply in_flat_map in Hadj. destruct Hadj as (c & _ & Hadj). now apply (Hgen c).
Qed.

(** The mesh that [find_optimal_strategy] reports is the one that
    [estimate_bed_after_screw_adjustment] returns. *)
Lemma find_optimal_strategy_mesh (a : DeviationAnalyzer.DeviationAnalyzer)
  (r : DeviationAnalyzer.Strategy) :
  DeviationAnalyzer.find_optimal_strategy a = Ok r ->
  DeviationAnalyzer.estimate_bed_after_screw_adjustment a
  = Ok (DeviationAnalyzer.simulated_bed_after_screws r).
Proof.
  unfold DeviationAnalyzer.find_optimal_strategy.
  destruct (Bed.mesh_data (DeviationAnalyzer.bed a)); [|discriminate].
  destruct (DeviationAnalyzer.estimate_bed_after_screw_adjustment a); [|discriminate].
  simpl. intros H. injection H as <-. reflexivity.
Qed.

(** The two simulations on [Example3], compared at the front-right corner
    by evaluation. *)
Lemma example3_simulations :
  match DeviationAnalyzer.estimate_bed_after_screw_adjustment Example3.analyzer,
        DeviationAnalyzer.spec_estimate_bed_after_screw_adjustment
          Example3.analyzer Example3.solver with
  | Ok m, Ok v => Qeq_bool (Np.get m 0 4) (12 # 100) && Qeq_bool (Np.get v 0 4) (20 # 100)
  | _, _ => false
  end = true.
Proof. vm_compute. reflexivity. Qed.

Lemma find_optimal_strategy_spec_witness :
  Bed.mesh_data (DeviationAnalyzer.bed Example3.analyzer) = Some Example3.mesh0 /\
  Np.has_shape 4 5 Example3.mesh0 /\
  exists r,
    DeviationAnalyzer.find_optimal_strategy Example3.analyzer = Ok r /\
    Np.has_shape 4 5 (DeviationAnalyzer.simulated_bed_after_screws r) /\
    (DeviationAnalyzer.needs_tape r = true <->
     DeviationAnalyzer.tape_threshold Example3.analyzer
     < DeviationAnalyzer.deviation_after_screws r).
Proof.
  assert (Hm : Bed.mesh_data (DeviationAnalyzer.bed Example3.analyzer) = Some Example3.mesh0)
    by reflexivity.
  assert (Hs : Np.has_shape 4 5 Example3.mesh0) by (apply has_shapeb_spec; reflexivity).
  split; [exact Hm|]. split; [exact Hs|].
  destruct (find_optimal_strategy_spec Example3.analyzer Example3.mesh0 Hm Hs)
    as (r & Hr & Hsh & _ & _ & Ht & _).
  exists r. split; [exact Hr|]. split; [exact Hsh | exact Ht].
Defined.

(** C7, as it is stated, fails on [Example3]: at the front-right corner
    [(0, 4)] the analyzer's simulation gives 0.12 where the Screw Solver's
    simulation of the same four adjustments gives 0.2.  The cell lies at
    distances 4, 0, 5 and 3 from the corners and the diagonal is 5, so only
    square roots of perfect squares enter the comparison. *)
Lemma find_optimal_strategy_counterexample :
  exists r via_solver,
    DeviationAnalyzer.find_optimal_strategy Example3.analyzer = Ok r /\
    DeviationAnalyzer.spec_estimate_bed_after_screw_adjustment
      Example3.analyzer Example3.solver = Ok via_solver /\
    Np.get (DeviationAnalyzer.simulated_bed_after_screws r) 0 4 == 12 # 100 /\
    Np.get via_solver 0 4 == 20 # 100 /\
    ~ Np.mesh_eq (DeviationAnalyzer.simulated_bed_after_screws r) via_solver.
Proof.
  pose proof (find_optimal_strategy_eq Example3.analyzer Example3.mesh0 eq_refl) as Hfos.
  cbv zeta in Hfos. revert Hfos.
  match goal with |- _ = Ok ?s -> _ => generalize s end.
  intros r Hfos.
  pose proof example3_simulations as H.
  rewrite (find_optimal_strategy_mesh _ _ Hfos) in H.
  destruct (DeviationAnalyzer.spec_estimate_bed_after_screw_adjustment
              Example3.analyzer Example3.solver) as [v|]; [|discriminate H].
  apply andb_true_iff in H. destruct H as [Hr Hv].
  apply Qeq_bool_iff in Hr, Hv.
  exists r, v. split; [exact Hfos|]. split; [reflexivity|].
  split; [exact Hr|]. split; [exact Hv|].
  intros E. apply (mesh_eq_get _ _ 0 4) in E. rewrite Hr, Hv in E. discriminate E.
Qed.

(** ** The workflow returns *)

Section WorkflowReturns.
Import Bed Models Calculators Engine.

Lemma build_screw_stage_returns (analyzer : DeviationAnalyzer.DeviationAnalyzer)
  (solver : ScrewSolver.ScrewSolver) (base_mesh ma ms : Mesh) (flag : bool) :
  mesh_data (DeviationAnalyzer.bed analyzer) = Some ma ->
  mesh_data (ScrewSolver.bed solver) = Some ms ->
  exists stage mesh_after,
    build_screw_stage analyzer solver base_mesh flag = Ok (stage, mesh_after).
Proof.
  intros Ha Hs. unfold build_screw_stage. destruct (negb flag); [eauto|].
  unfold DeviationAnalyzer.get_ideal_plane, generate_ideal_plane,
    ScrewSolver.calculate_adjustments.
  rewrite Ha, Hs. cbn [bind].
  destruct (py_sorted _ _) as [|adj l]; cbn [bind]; [eauto|].
  rewrite simulate_sequence_some. cbn [bind]. eauto.
Qed.

(** Once the bed, the analyzer's bed and the solver's bed have their mesh
    (in the application they are one bed), [compute_workflow] returns a
    [WorkflowData]. *)
Lemma compute_workflow_returns (bed : Bed.Bed)
  (analyzer : DeviationAnalyzer.DeviationAnalyzer) (solver : ScrewSolver.ScrewSolver)
  (tc : TapeCalculator.TapeCalculator) (settings : Settings) (m ma ms : Mesh) :
  mesh_data bed = Some m ->
  mesh_data (DeviationAnalyzer.bed analyzer) = Some ma ->
  mesh_data (ScrewSolver.bed solver) = Some ms ->
  exists wd, compute_workflow bed analyzer solver tc settings = Ok wd.
Proof.
  intros Hm Ha Hs. unfold compute_workflow. rewrite Hm.
  destruct (build_belt_stage_returns solver bed settings m m
              (get_or (enable_belt (workflow settings)) true) Hm)
    as (belt & m1 & ->). cbn [bind].
  destruct (build_screw_stage_returns analyzer solver m1 ma ms
              (get_or (enable_screws (workflow settings)) true) Ha Hs)
    as (screw & m2 & ->). cbn [bind].
  destruct (build_tape_stage _ _ _ _). destruct (build_temperature_stage _ _ _ _ _).
  eauto.
Qed.

End WorkflowReturns.

(** * Further properties of the code *)

(** ** hardware/screw.py: the effect of an adjustment *)

Section ScrewEffect.
Import Screw.
Variable cfg : ScrewConfig.
Hypothesis pitch_pos : 0 < pitch cfg.

Lemma MM_PER_MINUTE_pos : 0 < MM_PER_MINUTE cfg.
Proof. unfold MM_PER_MINUTE. apply Qlt_shift_div_l; lra. Qed.

Lemma Qmin_div_mult (x y k : Q) : 0 < k -> Qmin (x / k) (y / k) * k == Qmin x y.
Proof.
  intros Hk. assert (Hi : 0 < / k) by now apply Qinv_lt_0_compat.
  destruct (Qlt_le_dec y x) as [H|H].
  - rewrite (Q.min_r x y) by lra. rewrite Q.min_r.
    + field. lra.
    + unfold Qdiv. apply Qmult_le_compat_r; lra.
  - rewrite (Q.min_l x y) by exact H. rewrite Q.min_l.
    + field. lra.
    + unfold Qdiv. apply Qmult_le_compat_r; lra.
Qed.

(** X1. Turning a screw by the computed minutes in the computed direction
    moves the corner towards the target by [min(|diff|, max_adjust)]; when
    the difference is within [max_adjust] the corner lands on the target. *)
Theorem adjustment_reaches_target (current target : Q) :
  min_adjust cfg <= Qabs (current - target) ->
  let '(minutes, direction) := calculate_adjustment cfg current target in
  let change := height_change_from_minutes cfg minutes direction in
  (0 < current - target -> change == - Qmin (Qabs (current - target)) (max_adjust cfg)) /\
  (current - target <= 0 -> change == Qmin (Qabs (current - target)) (max_adjust cfg)) /\
  (Qabs (current - target) <= max_adjust cfg -> current + change == target).
Proof.
  intros Hmin. rewrite (calculate_adjustment_above cfg _ _ Hmin).
  pose proof (Qmin_div_mult (Qabs (current - target)) (max_adjust cfg) _ MM_PER_MINUTE_pos)
    as Hm.
  unfold height_change_from_minutes.
  destruct (Qgtb (current - target) 0) eqn:E; simpl; rewrite Hm.
  - apply Qgtb_gt in E. split; [reflexivity|]. split; [lra|].
    intros Hle. rewrite Q.min_l by exact Hle. rewrite Qabs_pos by lra. ring.
  - apply Qgtb_le in E. split; [lra|]. split; [reflexivity|].
    intros Hle. rewrite Q.min_l by exact Hle. rewrite Qabs_neg by lra. ring.
Qed.

End ScrewEffect.

Lemma adjustment_reaches_target_witness :
  0 < Screw.pitch Screw.default_config /\
  Screw.min_adjust Screw.default_config <= Qabs ((1 # 2) - 0) /\
  (1 # 2) + Screw.height_change_from_minutes Screw.default_config
              (fst (Screw.calculate_adjustment Screw.default_config (1 # 2) 0))
              (snd (Screw.calculate_adjustment Screw.default_config (1 # 2) 0)) == 0.
Proof.
  assert (Hp : 0 < Screw.pitch Screw.default_config) by reflexivity.
  assert (Hm : Screw.min_adjust Screw.default_config <= Qabs ((1 # 2) - 0))
    by (vm_compute; discriminate).
  split; [exact Hp|]. split; [exact Hm|].
  pose proof (adjustment_reaches_target Screw.default_config Hp (1 # 2) 0 Hm) as H.
  destruct (Screw.calculate_adjustment Screw.default_config (1 # 2) 0) as [minutes direction].
  apply H. vm_compute. discriminate.
Defined.

(** X2. Degrees and minutes describe the same turn: converting minutes to
    degrees and taking the height change from degrees gives the height
    change from the minutes. *)
Theorem degrees_agree_with_minutes (cfg : Screw.ScrewConfig) (minutes : Q)
  (direction : Screw.RotationDirection) :
  Screw.height_change_from_degrees cfg (Screw.minutes_to_degrees minutes) direction
  == Screw.height_change_from_minutes cfg minutes direction.
Proof.
  unfold Screw.height_change_from_degrees, Screw.height_change_from_minutes,
    Screw.minutes_to_degrees, Screw.MM_PER_DEGREE, Screw.MM_PER_MINUTE.
  destruct (Screw.RotationDirection_eqb direction Screw.CLOCKWISE); field.
Qed.

(** ** hardware/bed.py: queries on an assigned mesh *)

Section BedQueries.
Import Np Bed.

(** X3. After a successful [set_mesh_data] the configuration is unchanged
    and [get_point_height] returns the assigned cell for indices inside the
    grid and raises the out-of-range error for all others (negative ones
    included). *)
Theorem set_then_get_point (b b' : Bed) (data : Mesh) :
  set_mesh_data b data = Ok b' ->
  config b' = config b /\
  mesh_data b' = Some data /\
  has_shape (mesh_points_x (config b)) (mesh_points_y (config b)) data /\
  forall x y : Z,
    ((0 <= x < Z.of_nat (mesh_points_x (config b)))%Z /\
     (0 <= y < Z.of_nat (mesh_points_y (config b)))%Z ->
     get_point_height b' x y = Ok (get data (Z.to_nat x) (Z.to_nat y))) /\
    (~ ((0 <= x < Z.of_nat (mesh_points_x (config b)))%Z /\
        (0 <= y < Z.of_nat (mesh_points_y (config b)))%Z) ->
     get_point_height b' x y = Raise OutOfRangeError).
Proof.
  unfold set_mesh_data. destruct (has_shapeb _ _ data) eqn:E; [|discriminate].
  intros H. injection H as <-. apply has_shapeb_spec in E.
  split; [reflexivity|]. split; [reflexivity|]. split; [exact E|].
  intros x y. unfold get_point_height. simpl.
  destruct ((0 <=? x)%Z && (x <? Z.of_nat (mesh_points_x (config b)))%Z
            && (0 <=? y)%Z && (y <? Z.of_nat (mesh_points_y (config b)))%Z) eqn:R.
  - split; [reflexivity|]. intros Hn. exfalso. apply Hn.
    rewrite !andb_true_iff, !Z.leb_le, !Z.ltb_lt in R. lia.
  - split; [|reflexivity]. intros Hr. exfalso.
    rewrite !andb_false_iff, !Z.leb_gt, !Z.ltb_ge in R. lia.
Qed.

End BedQueries.

Lemma set_then_get_point_witness :
  exists b',
    Bed.set_mesh_data (Bed.init Example1.cfg) Example1.mesh0 = Ok b' /\
    Bed.get_point_height b' 0 2 = Ok 1 /\
    Bed.get_point_height b' (-1) 2 = Raise OutOfRangeError.
Proof.
  assert (H : Bed.set_mesh_data (Bed.init Example1.cfg) Example1.mesh0
              = Ok (Bed.mkBed Example1.cfg (Some Example1.mesh0))) by reflexivity.
  eexists. split; [exact H|].
  destruct (set_then_get_point _ _ _ H) as (_ & _ & _ & Hg).
  split.
  - apply (proj1 (Hg 0%Z 2%Z)). simpl. lia.
  - apply (proj2 (Hg (-1)%Z 2%Z)). simpl. lia.
Defined.

(** ** Reductions over arrays *)

Section ReductionFacts.
Import Np.

Lemma qsum_const (l : list Q) (v : Q) :
  qsum (map (fun _ => v) l) == inject_Z (Z.of_nat (length l)) * v.
Proof.
  induction l as [|x l IH]; [simpl; ring|].
  change (length (x :: l)) with (S (length l)).
  rewrite Nat2Z.inj_succ. unfold Z.succ. rewrite inject_Z_plus. simpl qsum.
  rewrite IH. ring.
Qed.

Lemma size_pos_nonzero (r c : nat) :
  (0 < r)%nat -> (0 < c)%nat -> ~ inject_Z (Z.of_nat (r * c)) == 0.
Proof.
  intros Hr Hc. change 0 with (inject_Z 0). rewrite inject_Z_injective. nia.
Qed.

Lemma mean_full_like (r c : nat) (m : Mesh) (v : Q) :
  has_shape r c m -> (0 < r)%nat -> (0 < c)%nat -> mean (full_like m v) == v.
Proof.
  intros Hm Hr Hc. unfold mean, list_mean. fold (size (full_like m v)).
  rewrite (size_has_shape r c) by now apply has_shape_mesh_map.
  unfold full_like, mesh_map, flat. rewrite <- concat_map, qsum_const.
  fold (flat m) (size m). rewrite (size_has_shape r c m Hm).
  field. now apply size_pos_nonzero.
Qed.

Lemma qsum_zip_plus (l l' : list Q) :
  length l = length l' -> qsum (zip_with Qplus l l') == qsum l + qsum l'.
Proof.
  revert l'. induction l as [|x l IH]; intros [|y l'] H; simpl in *; try discriminate.
  - ring.
  - rewrite IH by lia. ring.
Qed.

Lemma qsum_add (r c : nat) (a b : Mesh) :
  has_shape r c a -> has_shape r c b ->
  qsum (flat (add a b)) == qsum (flat a) + qsum (flat b).
Proof.
  unfold flat, add, mesh_zip. intros [La Fa] [Lb Fb]. subst r. revert b Lb Fb.
  induction Fa as [|ra a Hra _ IH]; intros [|rb b] Lb Fb; simpl in *; try discriminate.
  - ring.
  - inversion Fb; subst. rewrite !qsum_app, qsum_zip_plus by congruence.
    rewrite IH by (auto; lia). ring.
Qed.

Lemma mean_add (r c : nat) (a b : Mesh) :
  has_shape r c a -> has_shape r c b -> mean (add a b) == mean a + mean b.
Proof.
  intros Ha Hb. unfold mean, list_mean. fold (size (add a b)) (size a) (size b).
  rewrite (size_has_shape r c (add a b)) by now apply has_shape_mesh_zip.
  rewrite (size_has_shape r c a), (size_has_shape r c b) by assumption.
  rewrite (qsum_add r c) by assumption.
  unfold Qdiv. ring.
Qed.

Lemma fold_max_ge (l : list Q) (x : Q) :
  x <= fold_left Qmax l x /\ forall y, In y l -> y <= fold_left Qmax l x.
Proof.
  revert x. induction l as [|z l IH]; intros x; simpl.
  - split; [apply Qle_refl | intros ? []].
  - destruct (IH (Qmax x z)) as [H1 H2]. split.
    + eapply Qle_trans; [apply Q.le_max_l | exact H1].
    + intros y [<-|Hy]; [|now apply H2].
      eapply Qle_trans; [apply Q.le_max_r | exact H1].
Qed.

Lemma fold_min_le (l : list Q) (x : Q) :
  fold_left Qmin l x <= x /\ forall y, In y l -> fold_left Qmin l x <= y.
Proof.
  revert x. induction l as [|z l IH]; intros x; simpl.
  - split; [apply Qle_refl | intros ? []].
  - destruct (IH (Qmin x z)) as [H1 H2]. split.
    + eapply Qle_trans; [exact H1 | apply Q.le_min_l].
    + intros y [<-|Hy]; [|now apply H2].
      eapply Qle_trans; [exact H1 | apply Q.le_min_r].
Qed.

Lemma Qmax_either (x z : Q) : Qmax x z = x \/ Qmax x z = z.
Proof. unfold Qmax, GenericMinMax.gmax. destruct (x ?= z); auto. Qed.

Lemma Qmin_either (x z : Q) : Qmin x z = x \/ Qmin x z = z.
Proof. unfold Qmin, GenericMinMax.gmin. destruct (x ?= z); auto. Qed.

Lemma fold_max_in (l : list Q) (x : Q) : In (fold_left Qmax l x) (x :: l).
Proof.
  revert x. induction l as [|z l IH]; intros x; simpl; [now left|].
  destruct (IH (Qmax x z)) as [H|H]; [|now right; right].
  rewrite <- H. destruct (Qmax_either x z) as [E|E]; rewrite E; auto.
Qed.

Lemma fold_min_in (l : list Q) (x : Q) : In (fold_left Qmin l x) (x :: l).
Proof.
  revert x. induction l as [|z l IH]; intros x; simpl; [now left|].
  destruct (IH (Qmin x z)) as [H|H]; [|now right; right].
  rewrite <- H. destruct (Qmin_either x z) as [E|E]; rewrite E; auto.
Qed.

Lemma list_max_ge (l : list Q) (y : Q) : In y l -> y <= list_max l.
Proof.
  destruct l as [|x l]; [intros []|]. simpl.
  intros [<-|H]; [apply (proj1 (fold_max_ge _ _)) | now apply (proj2 (fold_max_ge _ _))].
Qed.

Lemma list_min_le (l : list Q) (y : Q) : In y l -> list_min l <= y.
Proof.
  destruct l as [|x l]; [intros []|]. simpl.
  intros [<-|H]; [apply (proj1 (fold_min_le _ _)) | now apply (proj2 (fold_min_le _ _))].
Qed.

Lemma list_max_in (l : list Q) : l <> [] -> In (list_max l) l.
Proof. destruct l; [contradiction|]. intros _. apply fold_max_in. Qed.

Lemma list_min_in (l : list Q) : l <> [] -> In (list_min l) l.
Proof. destruct l; [contradiction|]. intros _. apply fold_min_in. Qed.

Lemma list_min_le_max (l : list Q) : list_min l <= list_max l.
Proof.
  destruct l as [|x l]; [apply Qle_refl|].
  eapply Qle_trans; [apply list_min_le | apply list_max_ge]; now left.
Qed.

Lemma slice_one {A} (k : nat) (l : list A) (d : A) :
  (k < length l)%nat -> slice k (k + 1) l = [nth k l d].
Proof.
  unfold slice. replace (k + 1 - k)%nat with 1%nat by lia.
  revert l. induction k as [|k IH]; intros [|x l] H; simpl in *; try lia.
  - reflexivity.
  - apply IH. lia.
Qed.

End ReductionFacts.

(** ** hardware/bed.py: the ideal plane and the corners *)

Section PlaneFacts.
Import Np Bed.
Variable b : Bed.
Variable m : Mesh.
Let rows := mesh_points_x (config b).
Let cols := mesh_points_y (config b).
Hypothesis mesh_set : mesh_data b = Some m.
Hypothesis mesh_shape : has_shape rows cols m.
Hypothesis rows_pos : (0 < rows)%nat.
Hypothesis cols_pos : (0 < cols)%nat.

(** X4. The ideal plane of a bed is flat at the mean of its mesh, and the
    deviation map, the mesh minus that plane, has mean zero. *)
Theorem ideal_plane_is_mean_level :
  exists plane deviation_map,
    generate_ideal_plane b = Ok plane /\
    calculate_deviation_map b = Ok deviation_map /\
    has_shape rows cols plane /\
    has_shape rows cols deviation_map /\
    (forall i j, (i < rows)%nat -> (j < cols)%nat ->
       get plane i j = mean m /\ get deviation_map i j = get m i j - mean m) /\
    mean plane == mean m /\
    mean deviation_map == 0.
Proof.
  unfold generate_ideal_plane, calculate_deviation_map. rewrite mesh_set.
  assert (Hp : has_shape rows cols (ideal_plane m)) by now apply has_shape_mesh_map.
  eexists. eexists. split; [reflexivity|]. split; [reflexivity|].
  split; [exact Hp|]. split; [now apply has_shape_mesh_zip|].
  assert (Hmean : mean (ideal_plane m) == mean m) by now apply (mean_full_like rows cols).
  split; [|split; [exact Hmean|]].
  - intros i j Hi Hj. unfold sub.
    rewrite (get_mesh_zip _ rows cols) by assumption.
    unfold ideal_plane, full_like. rewrite (get_mesh_map _ rows cols) by assumption.
    split; reflexivity.
  - rewrite (mean_sub rows cols) by assumption. rewrite Hmean. ring.
Qed.

(** X5. With an averaging radius of 0 the height of a corner is the mesh
    value at the corner's own index. *)
Theorem corner_height_radius_zero (corner : string) (c : Corner) :
  corner_of_name corner = Some c ->
  exists h,
    get_corner_height b corner 0 = Ok h /\
    h == get m (fst (corners (config b) c)) (snd (corners (config b) c)).
Proof.
  intros Hc. unfold get_corner_height. rewrite mesh_set, Hc.
  eexists. split; [reflexivity|]. unfold corner_height.
  destruct (corners (config b) c) as [x y] eqn:E. fold rows cols. simpl fst. simpl snd.
  assert (Hx : (x < rows)%nat /\ (y < cols)%nat).
  { destruct c; simpl in E; injection E as <- <-; fold rows cols; lia. }
  destruct Hx as [Hx Hy].
  replace (Nat.max 0 (x - 0)) with x by lia.
  replace (Nat.min rows (x + 0 + 1)) with (x + 1)%nat by lia.
  replace (Nat.max 0 (y - 0)) with y by lia.
  replace (Nat.min cols (y + 0 + 1)) with (y + 1)%nat by lia.
  unfold block. rewrite (slice_one x m []) by (destruct mesh_shape; lia).
  simpl map. rewrite (slice_one y _ 0) by (rewrite (has_shape_row rows cols); auto).
  unfold mean, list_mean, get. simpl. field.
Qed.

End PlaneFacts.

Lemma ideal_plane_is_mean_level_witness :
  Bed.mesh_data Example1.bed0 = Some Example1.mesh0 /\
  Np.has_shape 3 3 Example1.mesh0 /\
  exists plane,
    Bed.generate_ideal_plane Example1.bed0 = Ok plane /\
    Np.mean plane == Np.mean Example1.mesh0.
Proof.
  assert (Hm : Bed.mesh_data Example1.bed0 = Some Example1.mesh0) by reflexivity.
  assert (Hs : Np.has_shape 3 3 Example1.mesh0) by (apply has_shapeb_spec; reflexivity).
  split; [exact Hm|]. split; [exact Hs|].
  destruct (ideal_plane_is_mean_level Example1.bed0 Example1.mesh0 Hm Hs)
    as (plane & d & Hp & _ & _ & _ & _ & Hmean & _); [simpl; lia | simpl; lia |].
  exists plane. split; [exact Hp | exact Hmean].
Defined.

Lemma corner_height_radius_zero_witness :
  Bed.mesh_data Example1.bed0 = Some Example1.mesh0 /\
  Np.has_shape 3 3 Example1.mesh0 /\
  Bed.corner_of_name "front_right" = Some Bed.front_right /\
  exists h, Bed.get_corner_height Example1.bed0 "front_right" 0 = Ok h /\ h == 1.
Proof.
  assert (Hm : Bed.mesh_data Example1.bed0 = Some Example1.mesh0) by reflexivity.
  assert (Hs : Np.has_shape 3 3 Example1.mesh0) by (apply has_shapeb_spec; reflexivity).
  assert (Hc : Bed.corner_of_name "front_right" = Some Bed.front_right) by reflexivity.
  split; [exact Hm|]. split; [exact Hs|]. split; [exact Hc|].
  destruct (corner_height_radius_zero Example1.bed0 Example1.mesh0 Hm Hs) with
    (corner := "front_right"%string) (c := Bed.front_right) as (h & Hh & Hv);
    [simpl; lia | simpl; lia | exact Hc |].
  exists h. split; [exact Hh | exact Hv].
Defined.

(** ** hardware/bed.py: [simulate_adjustment] *)

Section BedSimulation.
Import Np Bed.
Variable b : Bed.

(** One turn of the loop of [Bed.simulate_adjustment]. *)
Let step (adjusted_mesh : Mesh) (item : string * Q) : Mesh :=
  let '(corner, adjustment) := item in
  match corner_of_name corner with
  | None => adjusted_mesh
  | Some c => add adjusted_mesh (scale adjustment (adjustment_influence (config b) c))
  end.

Lemma simulate_adjustment_fold (m : Mesh) (l : list (string * Q)) :
  mesh_data b = Some m -> simulate_adjustment b l = Ok (fold_left step l m).
Proof.
  intros Hm. unfold simulate_adjustment. rewrite Hm. reflexivity.
Qed.

(** X6. [Bed.simulate_adjustment] raises before a mesh is assigned; on an
    assigned mesh an empty dictionary returns the mesh as it is, and an entry
    whose key is not one of the four corner names has no effect. *)
Theorem bed_simulation_ignores_unknown_corners :
  (mesh_data b = None -> forall l, simulate_adjustment b l = Raise DataNotSetError) /\
  (forall m, mesh_data b = Some m ->
     simulate_adjustment b [] = Ok m /\
     forall l1 l2 corner adjustment,
       corner_of_name corner = None ->
       simulate_adjustment b (l1 ++ (corner, adjustment) :: l2)
       = simulate_adjustment b (l1 ++ l2)).
Proof.
  split.
  - intros Hn l. unfold simulate_adjustment. now rewrite Hn.
  - intros m Hm. split; [now rewrite (simulate_adjustment_fold m)|].
    intros l1 l2 corner adjustment Hc.
    rewrite !(simulate_adjustment_fold m) by exact Hm.
    rewrite !fold_left_app. simpl. now rewrite Hc.
Qed.

End BedSimulation.

Lemma bed_simulation_ignores_unknown_corners_witness :
  Bed.mesh_data Example1.bed0 = Some Example1.mesh0 /\
  Bed.corner_of_name "centre" = None /\
  Bed.simulate_adjustment Example1.bed0 [("centre"%string, 1)] = Ok Example1.mesh0.
Proof.
  assert (Hm : Bed.mesh_data Example1.bed0 = Some Example1.mesh0) by reflexivity.
  assert (Hc : Bed.corner_of_name "centre" = None) by reflexivity.
  split; [exact Hm|]. split; [exact Hc|].
  destruct (proj2 (bed_simulation_ignores_unknown_corners Example1.bed0) _ Hm) as [H0 H].
  rewrite <- H0. exact (H [] [] "centre"%string 1 Hc).
Defined.

Section AnalyzerIsBedSimulation.
Import Np Bed DeviationAnalyzer.

Lemma adjustment_influence_eq (cfg : BedConfig) (c : Corner) :
  adjustment_influence cfg c = influence cfg c.
Proof.
  unfold adjustment_influence, influence, radial, grid_distance, max_distance.
  destruct (corners cfg c). reflexivity.
Qed.

Lemma corner_of_name_corner_name (c : Corner) :
  corner_of_name (Calculators.corner_name c) = Some c.
Proof. now destruct c. Qed.

(** X7. The analyzer's post-screw estimate is [Bed.simulate_adjustment]
    applied to the dictionary of the four corners' height changes: the two
    pieces of code build the same influence matrices. *)
Theorem estimate_is_bed_simulation (a : DeviationAnalyzer) (m : Mesh) :
  mesh_data (bed a) = Some m ->
  estimate_bed_after_screw_adjustment a
  = simulate_adjustment (bed a)
      (map (fun c => (Calculators.corner_name c, corner_height_change a m c)) corner_keys).
Proof.
  intros Hm.
  unfold estimate_bed_after_screw_adjustment, get_ideal_plane, generate_ideal_plane,
    simulate_adjustment.
  rewrite Hm. simpl. unfold corner_height_change.
  rewrite !adjustment_influence_eq.
  repeat (destruct (corner_action a m (ideal_plane m) _)). reflexivity.
Qed.

End AnalyzerIsBedSimulation.

Lemma estimate_is_bed_simulation_witness :
  Bed.mesh_data (DeviationAnalyzer.bed Example3.analyzer) = Some Example3.mesh0 /\
  DeviationAnalyzer.estimate_bed_after_screw_adjustment Example3.analyzer
  = Bed.simulate_adjustment Example3.bed0
      (map (fun c => (Calculators.corner_name c,
                      DeviationAnalyzer.corner_height_change Example3.analyzer
                        Example3.mesh0 c))
           Bed.corner_keys).
Proof.
  assert (Hm : Bed.mesh_data (DeviationAnalyzer.bed Example3.analyzer) = Some Example3.mesh0)
    by reflexivity.
  split; [exact Hm|]. exact (estimate_is_bed_simulation Example3.analyzer Example3.mesh0 Hm).
Defined.

(** ** algorithms/screw_solver.py: the adjustments and their simulation *)

Section AdjustmentFacts.
Import Np Bed Screw ScrewSolver.
Variable s : ScrewSolver.

(** The absolute deviation of a corner that an adjustment records. *)
Let deviation_of (a : ScrewAdjustment) : Q := Qabs (current_height a - target_height a).

Lemma adjustment_for_fields (m ideal_plane : Mesh) (c : Corner) (adj : ScrewAdjustment) :
  In adj (adjustment_for s m ideal_plane c) ->
  corner adj = c /\
  0 < minutes adj /\
  degrees adj = minutes adj * 6 /\
  turns adj = minutes adj / 60 /\
  priority adj = _calculate_priority (deviation_of adj) /\
  current_height adj = corner_height (config (bed s)) m c 1 /\
  (minutes adj, direction adj)
  = calculate_adjustment (screw_config s) (current_height adj) (target_height adj).
Proof.
  unfold adjustment_for. destruct (corners (config (bed s)) c) as [cx cy].
  destruct (calculate_adjustment _ _ _) as [mins dir] eqn:E.
  destruct (Qgtb mins 0) eqn:G; [|intros []].
  intros [<-|[]]. simpl. apply Qgtb_gt in G. rewrite E. repeat split; auto.
Qed.

Lemma adjustment_for_corners (m ideal_plane : Mesh) (c : Corner) :
  map corner (adjustment_for s m ideal_plane c) = [c]
  \/ adjustment_for s m ideal_plane c = [].
Proof.
  unfold adjustment_for. destruct (corners (config (bed s)) c) as [cx cy].
  destruct (calculate_adjustment _ _ _) as [mins dir].
  destruct (Qgtb mins 0); [left | right]; reflexivity.
Qed.

Lemma _calculate_priority_range (d : Q) : (1 <= _calculate_priority d <= 4)%Z.
Proof.
  unfold _calculate_priority.
  repeat (match goal with |- context [if ?b then _ else _] => destruct b end); lia.
Qed.

Lemma unsorted_adjustments_nodup (m ideal_plane : Mesh) :
  NoDup (map corner (flat_map (adjustment_for s m ideal_plane) corner_keys)) /\
  (length (flat_map (adjustment_for s m ideal_plane) corner_keys) <= 4)%nat.
Proof.
  unfold corner_keys. cbn [flat_map]. rewrite !map_app, !length_app.
  destruct (adjustment_for_corners m ideal_plane front_left) as [H1|H1];
    destruct (adjustment_for_corners m ideal_plane front_right) as [H2|H2];
    destruct (adjustment_for_corners m ideal_plane back_left) as [H3|H3];
    destruct (adjustment_for_corners m ideal_plane back_right) as [H4|H4];
    rewrite ?H1, ?H2, ?H3, ?H4;
    repeat match goal with
           | H : map corner ?l = [_] |- _ =>
               assert (length l = 1%nat) by (rewrite <- (length_map corner), H; reflexivity);
               revert H
           end; intros; simpl;
    (split; [repeat constructor; simpl; intuition discriminate | lia]).
Qed.

(** X8. [calculate_adjustments] returns at most one adjustment per corner
    and never one of zero minutes; each carries six degrees per minute, a
    sixtieth of a turn per minute and a priority between 1 and 4 read off
    its deviation; the list is ordered by priority, then by deviation from
    the largest down. *)
Theorem calculate_adjustments_wellformed (ideal_plane : Mesh) (l : list ScrewAdjustment) :
  calculate_adjustments s ideal_plane = Ok l ->
  NoDup (map corner l) /\
  (length l <= 4)%nat /\
  (forall adj, In adj l ->
     0 < minutes adj /\
     degrees adj = minutes adj * 6 /\
     turns adj = minutes adj / 60 /\
     (1 <= priority adj <= 4)%Z /\
     priority adj = _calculate_priority (Qabs (current_height adj - target_height adj)) /\
     (minutes adj, direction adj)
     = calculate_adjustment (screw_config s) (current_height adj) (target_height adj)) /\
  StronglySorted
    (fun a b => (priority a < priority b)%Z \/
                (priority a = priority b /\
                 Qabs (current_height b - target_height b)
                 <= Qabs (current_height a - target_height a))) l.
Proof.
  unfold calculate_adjustments. destruct (mesh_data (bed s)) as [m|]; [|discriminate].
  set (ltb := fun a b => key_ltb (sort_key a) (sort_key b)).
  set (raw := flat_map (adjustment_for s m ideal_plane) corner_keys).
  intros H. assert (El : l = py_sorted ltb raw) by congruence. clear H. subst l.
  pose proof (py_sorted_perm ltb raw) as Hperm.
  destruct (unsorted_adjustments_nodup m ideal_plane) as [Hnd Hlen]. fold raw in Hnd, Hlen.
  split; [|split; [|split]].
  - apply (Permutation_NoDup (Permutation_map corner Hperm) Hnd).
  - now rewrite <- (Permutation_length Hperm).
  - intros adj Hadj. apply (Permutation_in _ (Permutation_sym Hperm)) in Hadj.
    apply in_flat_map in Hadj. destruct Hadj as (c & _ & Hadj).
    destruct (adjustment_for_fields _ _ _ _ Hadj) as (_ & H1 & H2 & H3 & H4 & _ & H6).
    repeat split; auto; rewrite H4; apply _calculate_priority_range.
  - assert (Hs : StronglySorted (fun a b => ltb b a = false) (py_sorted ltb raw)).
    { apply py_sorted_sorted.
      - intros a b. apply key_ltb_asym.
      - intros a b c. unfold ltb. apply key_le_trans. }
    clear -Hs. induction Hs as [|a l _ IH Ha]; constructor; [exact IH|].
    eapply Forall_impl; [|exact Ha]. intros b Hb. unfold ltb in Hb.
    apply key_ltb_false in Hb. unfold sort_key in Hb. cbn [fst snd] in Hb.
    destruct Hb as [Hb|[Hb1 Hb2]]; [left; exact Hb | right; split; [auto | lra]].
Qed.

End AdjustmentFacts.

Lemma calculate_adjustments_wellformed_witness :
  exists l,
    ScrewSolver.calculate_adjustments Example3.solver (Bed.ideal_plane Example3.mesh0) = Ok l /\
    NoDup (map ScrewSolver.corner l) /\
    (length l <= 4)%nat.
Proof.
  assert (H : exists l, ScrewSolver.calculate_adjustments Example3.solver
                          (Bed.ideal_plane Example3.mesh0) = Ok l)
    by (unfold ScrewSolver.calculate_adjustments; simpl; eauto).
  destruct H as [l Hl]. exists l. split; [exact Hl|].
  destruct (calculate_adjustments_wellformed Example3.solver _ l Hl) as (H1 & H2 & _).
  split; [exact H1 | exact H2].
Defined.

Section WeightBounds.
Import Np Bed ScrewSolver.
Variable cfg : BedConfig.
Let rows := mesh_points_x cfg.
Let cols := mesh_points_y cfg.

Lemma linspace_unit (n i : nat) :
  (2 <= n)%nat -> (i < n)%nat ->
  linspace 0 1 n i == inject_Z (Z.of_nat i) / inject_Z (Z.of_nat n - 1) /\
  0 <= linspace 0 1 n i <= 1.
Proof.
  intros Hn Hi.
  assert (Hd : 0 < inject_Z (Z.of_nat n - 1)).
  { change 0 with (inject_Z 0). rewrite <- Zlt_Qlt. lia. }
  assert (E : linspace 0 1 n i == inject_Z (Z.of_nat i) / inject_Z (Z.of_nat n - 1)).
  { unfold linspace. field. lra. }
  split; [exact E|]. rewrite E. split.
  - apply Qle_shift_div_l; [exact Hd|]. rewrite Qmult_0_l.
    change 0 with (inject_Z 0). rewrite <- Zle_Qle. lia.
  - apply Qle_shift_div_r; [exact Hd|]. rewrite Qmult_1_l.
    rewrite <- Zle_Qle. lia.
Qed.

Lemma linspace_ends (n : nat) :
  (2 <= n)%nat -> linspace 0 1 n 0 == 0 /\ linspace 0 1 n (n - 1) == 1.
Proof.
  intros Hn.
  assert (Hd : 0 < inject_Z (Z.of_nat n - 1)).
  { change 0 with (inject_Z 0). rewrite <- Zlt_Qlt. lia. }
  split.
  - unfold linspace. simpl inject_Z. field. lra.
  - unfold linspace. rewrite Nat2Z.inj_sub by lia. simpl Z.of_nat. field. lra.
Qed.

(** X9. Every corner weight lies between 0 and 1, on every grid. *)
Theorem corner_weights_in_unit_interval (c : Corner) (i j : nat) :
  (i < rows)%nat -> (j < cols)%nat ->
  0 <= get (_compute_corner_weights cfg c) i j <= 1.
Proof.
  intros Hi Hj.
  destruct (Nat.ltb rows 2 || Nat.ltb cols 2) eqn:D.
  - unfold _compute_corner_weights. fold rows cols. rewrite D.
    unfold ones. rewrite get_mesh_tab by assumption. split; discriminate.
  - apply orb_false_iff in D. destruct D as [Dr Dc].
    apply Nat.ltb_ge in Dr, Dc.
    rewrite (get_corner_weight cfg c i j Dr Dc Hi Hj).
    rewrite (get_bilinear cfg c i j Hi Hj). fold rows cols. cbv zeta.
    destruct (linspace_unit rows i Dr Hi) as [_ [R0 R1]].
    destruct (linspace_unit cols j Dc Hj) as [_ [C0 C1]].
    destruct c; split; nra.
Qed.

(** X10. On a grid of at least 2x2 points a corner's weight map is 1 at the
    corner itself and 0 at the three other corners. *)
Theorem corner_weight_at_corners (c c' : Corner) :
  (2 <= rows)%nat -> (2 <= cols)%nat ->
  get (_compute_corner_weights cfg c) (fst (corners cfg c')) (snd (corners cfg c'))
  == if Corner_eqb c c' then 1 else 0.
Proof.
  intros Hr Hc.
  destruct (linspace_ends rows Hr) as [R0 R1].
  destruct (linspace_ends cols Hc) as [C0 C1].
  assert (Hx : (fst (corners cfg c') < rows)%nat /\ (snd (corners cfg c') < cols)%nat).
  { destruct c'; simpl; fold rows cols; lia. }
  destruct Hx as [Hx Hy].
  rewrite (get_corner_weight cfg c _ _ Hr Hc Hx Hy), (get_bilinear cfg c _ _ Hx Hy).
  fold rows cols. cbv zeta.
  destruct c, c'; simpl fst; simpl snd; fold rows cols;
    rewrite ?R0, ?R1, ?C0, ?C1; reflexivity.
Qed.

End WeightBounds.

Lemma corner_weights_in_unit_interval_witness :
  0 <= Np.get (ScrewSolver._compute_corner_weights Example1.cfg Bed.front_left) 1 1 <= 1.
Proof.
  apply (corner_weights_in_unit_interval Example1.cfg Bed.front_left 1 1); simpl; lia.
Defined.

Lemma corner_weight_at_corners_witness :
  Np.get (ScrewSolver._compute_corner_weights Example1.cfg Bed.front_left) 0 0 == 1 /\
  Np.get (ScrewSolver._compute_corner_weights Example1.cfg Bed.front_left) 2 2 == 0.
Proof.
  split.
  - apply (corner_weight_at_corners Example1.cfg Bed.front_left Bed.front_left); simpl; lia.
  - apply (corner_weight_at_corners Example1.cfg Bed.front_left Bed.back_right); simpl; lia.
Defined.

(** *** The simulation in closed form *)

Section MeshEqFacts.
Import Np.

Lemma qsum_proper (l l' : list Q) : Forall2 Qeq l l' -> qsum l == qsum l'.
Proof.
  induction 1 as [|x y l l' Hxy _ IH]; simpl; [reflexivity|]. now rewrite Hxy, IH.
Qed.

Lemma flat_proper (a b : Mesh) : mesh_eq a b -> Forall2 Qeq (flat a) (flat b).
Proof.
  unfold flat. induction 1 as [|ra rb a b Hr _ IH]; simpl; [constructor|].
  now apply Forall2_app.
Qed.

Lemma mean_proper (a b : Mesh) : mesh_eq a b -> mean a == mean b.
Proof.
  intros H. apply flat_proper in H. unfold mean, list_mean.
  rewrite (qsum_proper _ _ H), (Forall2_length H). reflexivity.
Qed.

Lemma fold_max_proper (l l' : list Q) (x x' : Q) :
  Forall2 Qeq l l' -> x == x' -> fold_left Qmax l x == fold_left Qmax l' x'.
Proof.
  intros H. revert x x'. induction H as [|y y' l l' Hy _ IH]; intros x x' Hx; simpl.
  - exact Hx.
  - apply IH. now rewrite Hx, Hy.
Qed.

Lemma list_max_proper (l l' : list Q) : Forall2 Qeq l l' -> list_max l == list_max l'.
Proof.
  intros H. destruct H as [|x x' t t' Hx H]; simpl; [reflexivity|].
  now apply fold_max_proper.
Qed.

Lemma mesh_map_proper (f g : Q -> Q) (a b : Mesh) :
  (forall x y, x == y -> f x == g y) -> mesh_eq a b -> mesh_eq (mesh_map f a) (mesh_map g b).
Proof.
  intros Hf H. unfold mesh_map.
  induction H as [|ra rb a b Hr _ IH]; simpl; constructor; [|exact IH].
  induction Hr; simpl; constructor; auto.
Qed.

End MeshEqFacts.

Section AdditiveSimulation.
Import Np Bed Screw ScrewSolver.
Variable s : ScrewSolver.
Let rows := mesh_points_x (config (bed s)).
Let cols := mesh_points_y (config (bed s)).

(** The height change of an adjustment. *)
Let change (a : ScrewAdjustment) : Q :=
  height_change_from_minutes (screw_config s) (minutes a) (direction a).

Lemma adjusted_shape (m : Mesh) (a : ScrewAdjustment) :
  has_shape rows cols m -> has_shape rows cols (adjusted s m a).
Proof.
  intros H. apply has_shape_mesh_zip; [exact H|].
  apply has_shape_mesh_map, corner_weights_shape.
Qed.

Lemma get_adjusted (m : Mesh) (a : ScrewAdjustment) (i j : nat) :
  has_shape rows cols m -> (i < rows)%nat -> (j < cols)%nat ->
  get (adjusted s m a) i j = get m i j + change a * get (corner_weights s (corner a)) i j.
Proof.
  intros H Hi Hj. unfold adjusted, add, scale.
  rewrite (get_mesh_zip _ rows cols)
    by (auto; apply has_shape_mesh_map, corner_weights_shape).
  rewrite (get_mesh_map _ rows cols) by (auto; apply corner_weights_shape).
  reflexivity.
Qed.

Lemma fold_adjusted_additive (l : list ScrewAdjustment) (m : Mesh) :
  has_shape rows cols m ->
  has_shape rows cols (fold_left (adjusted s) l m) /\
  forall i j, (i < rows)%nat -> (j < cols)%nat ->
    get (fold_left (adjusted s) l m) i j ==
    get m i j + qsum (map (fun a => change a * get (corner_weights s (corner a)) i j) l).
Proof.
  revert m. induction l as [|a l IH]; intros m Hm; simpl.
  - split; [exact Hm|]. intros. ring.
  - destruct (IH _ (adjusted_shape m a Hm)) as [Hs Hg]. split; [exact Hs|].
    intros i j Hi Hj. rewrite (Hg i j Hi Hj), get_adjusted by assumption. ring.
Qed.

(** X11. The simulation of a sequence of adjustments is additive: on a base
    mesh of the grid's shape it returns a mesh of that shape whose every
    cell is the base cell plus the sum, over the adjustments, of the height
    change times the weight of the adjusted corner at that cell. *)
Theorem simulate_sequence_additive (l : list ScrewAdjustment) (base_mesh : Mesh) :
  has_shape rows cols base_mesh ->
  exists out,
    simulate_sequence s l (Some base_mesh) = Ok out /\
    has_shape rows cols out /\
    forall i j, (i < rows)%nat -> (j < cols)%nat ->
      get out i j ==
      get base_mesh i j
      + qsum (map (fun a =>
                     height_change_from_minutes (screw_config s) (minutes a) (direction a)
                     * get (corner_weights s (corner a)) i j) l).
Proof.
  intros Hm. exists (fold_left (adjusted s) l base_mesh).
  split; [apply simulate_sequence_some|]. now apply fold_adjusted_additive.
Qed.

Lemma max_abs_deviation_proper (a b : Mesh) :
  mesh_eq a b -> max_abs_deviation a == max_abs_deviation b.
Proof.
  intros H. unfold max_abs_deviation, Np.max.
  apply list_max_proper, flat_proper, mesh_map_proper.
  - intros x y E. now rewrite E.
  - unfold sub_scalar. apply mesh_map_proper; [|exact H].
    intros x y E. now rewrite E, (mean_proper a b H).
Qed.

(** X12. [estimate_total_improvement] raises when the bed has no mesh; on a
    bed with a mesh it returns, it is 0 for an empty list of adjustments,
    and it does not depend on the order of the adjustments. *)
Theorem estimate_total_improvement_order (l l' : list ScrewAdjustment) :
  (mesh_data (bed s) = None -> estimate_total_improvement s l = Raise MeshNotAvailable) /\
  (forall m, mesh_data (bed s) = Some m ->
     (exists v, estimate_total_improvement s [] = Ok v /\ v == 0) /\
     (Permutation l l' ->
      exists v v',
        estimate_total_improvement s l = Ok v /\
        estimate_total_improvement s l' = Ok v' /\
        v == v')).
Proof.
  unfold estimate_total_improvement. split.
  - intros Hn. rewrite Hn. unfold simulate_sequence, mesh_source. rewrite Hn. reflexivity.
  - intros m Hm. rewrite Hm, !simulate_sequence_some. cbn [bind]. split.
    + eexists. split; [reflexivity|]. simpl. ring.
    + intros Hp. eexists. eexists. split; [reflexivity|]. split; [reflexivity|].
      rewrite (max_abs_deviation_proper _ _
                 (fold_adjusted_perm s l l' Hp m m (mesh_eq_refl m))).
      reflexivity.
Qed.

End AdditiveSimulation.

Lemma simulate_sequence_additive_witness :
  let a := ScrewSolver.mkScrewAdjustment Bed.front_left 30 180 Screw.CLOCKWISE 1 0 1 (1 # 2) in
  Np.has_shape 3 3 Example1.mesh0 /\
  exists out,
    ScrewSolver.simulate_sequence Example1.solver [a] (Some Example1.mesh0) = Ok out /\
    Np.has_shape 3 3 out.
Proof.
  intros a.
  assert (Hs : Np.has_shape 3 3 Example1.mesh0) by (apply has_shapeb_spec; reflexivity).
  split; [exact Hs|].
  destruct (simulate_sequence_additive Example1.solver [a] Example1.mesh0 Hs)
    as (out & Ho & Hsh & _).
  exists out. split; [exact Ho | exact Hsh].
Defined.

Lemma estimate_total_improvement_order_witness :
  let a := ScrewSolver.mkScrewAdjustment Bed.front_left 30 180 Screw.CLOCKWISE 1 0 1 (1 # 2) in
  let b := ScrewSolver.mkScrewAdjustment Bed.back_right 12 72 Screw.COUNTERCLOCKWISE 0 1 1 (1 # 5) in
  Bed.mesh_data (ScrewSolver.bed Example1.solver) = Some Example1.mesh0 /\
  Permutation [a; b] [b; a] /\
  exists v v',
    ScrewSolver.estimate_total_improvement Example1.solver [a; b] = Ok v /\
    ScrewSolver.estimate_total_improvement Example1.solver [b; a] = Ok v' /\
    v == v'.
Proof.
  intros a b.
  assert (Hm : Bed.mesh_data (ScrewSolver.bed Example1.solver) = Some Example1.mesh0)
    by reflexivity.
  assert (Hp : Permutation [a; b] [b; a]) by apply perm_swap.
  split; [exact Hm|]. split; [exact Hp|].
  exact (proj2 (proj2 (estimate_total_improvement_order Example1.solver [a; b] [b; a])
                  Example1.mesh0 Hm) Hp).
Defined.

(** ** algorithms/tape_calculator.py: layers and stacking *)

Section LayerFacts.
Import TapeCalculator.
Variable t : TapeCalculator.
Hypothesis thickness_pos : 0 < tape_thickness t.

Lemma layers_for_ge_1 (d : Q) : (1 <= layers_for t d)%Z.
Proof. unfold layers_for. lia. Qed.

(** X13. For a positive deficit the layers of tape cover it, and by less
    than one layer too much: [diff <= layers * tape_thickness < diff +
    tape_thickness]. *)
Theorem layers_cover_deficit (diff : Q) :
  0 < diff ->
  (1 <= layers_for t diff)%Z /\
  diff <= inject_Z (layers_for t diff) * tape_thickness t /\
  inject_Z (layers_for t diff) * tape_thickness t < diff + tape_thickness t.
Proof.
  intros Hd. split; [apply layers_for_ge_1|].
  assert (Hq : 0 < diff / tape_thickness t) by (apply Qlt_shift_div_l; lra).
  pose proof (Qle_ceiling (diff / tape_thickness t)) as Hc.
  pose proof (Qceiling_lt (diff / tape_thickness t)) as Hl.
  assert (Hpos : (1 <= Qceiling (diff / tape_thickness t))%Z).
  { assert (H0 : inject_Z 0 < inject_Z (Qceiling (diff / tape_thickness t)))
      by (eapply Qlt_le_trans; [exact Hq | exact Hc]).
    rewrite <- Zlt_Qlt in H0. lia. }
  unfold layers_for. rewrite Z.max_r by exact Hpos.
  set (L := Qceiling (diff / tape_thickness t)) in *.
  assert (E : diff == diff / tape_thickness t * tape_thickness t) by (field; lra).
  unfold Z.sub in Hl. rewrite inject_Z_plus in Hl.
  change (inject_Z (- (1))) with (- (1)) in Hl.
  set (q := diff / tape_thickness t) in *.
  split.
  - rewrite E at 1. apply Qmult_le_compat_r; [exact Hc | lra].
  - assert (Hm : (inject_Z L + - (1)) * tape_thickness t < q * tape_thickness t)
      by (apply Qmult_lt_compat_r; [exact thickness_pos | exact Hl]).
    rewrite <- E in Hm.
    setoid_replace ((inject_Z L + - (1)) * tape_thickness t)
      with (inject_Z L * tape_thickness t - tape_thickness t) in Hm by ring.
    lra.
Qed.

(** X14. The layer count never decreases when the deficit grows; in
    particular doubling a non-negative deficit never decreases it. *)
Theorem layers_monotone (d d' : Q) :
  d <= d' -> (layers_for t d <= layers_for t d')%Z.
Proof.
  intros H. unfold layers_for. apply Z.max_le_compat_l, Qceiling_resp_le.
  unfold Qdiv. apply Qmult_le_compat_r; [exact H|].
  apply Qlt_le_weak, Qinv_lt_0_compat, thickness_pos.
Qed.

End LayerFacts.

Lemma layers_cover_deficit_witness :
  0 < TapeCalculator.tape_thickness Example2.tape /\
  0 < 13 # 100 /\
  (13 # 100) <= inject_Z (TapeCalculator.layers_for Example2.tape (13 # 100))
                * TapeCalculator.tape_thickness Example2.tape.
Proof.
  assert (Ht : 0 < TapeCalculator.tape_thickness Example2.tape) by reflexivity.
  assert (Hd : 0 < 13 # 100) by reflexivity.
  split; [exact Ht|]. split; [exact Hd|].
  exact (proj1 (proj2 (layers_cover_deficit Example2.tape Ht (13 # 100) Hd))).
Defined.

Lemma layers_monotone_witness :
  0 < TapeCalculator.tape_thickness Example2.tape /\
  (13 # 100) <= 26 # 100 /\
  (TapeCalculator.layers_for Example2.tape (13 # 100)
   <= TapeCalculator.layers_for Example2.tape (26 # 100))%Z.
Proof.
  assert (Ht : 0 < TapeCalculator.tape_thickness Example2.tape) by reflexivity.
  assert (Hd : (13 # 100) <= 26 # 100) by (vm_compute; discriminate).
  split; [exact Ht|]. split; [exact Hd|].
  exact (layers_monotone Example2.tape Ht _ _ Hd).
Defined.

Section StackingFacts.
Import Np Bed TapeCalculator.
Variable t : TapeCalculator.

(** The height that a spot adds to the cell [(i, j)]. *)
Let raise_at (i j : nat) (spot : TapeSpot) : Q :=
  if covers t spot i j then inject_Z (layers spot) * tape_thickness t else 0.

Lemma get_apply_spot (m : Mesh) (spot : TapeSpot) (i j : nat) :
  (i < length m)%nat -> (j < length (nth i m []))%nat ->
  get (apply_spot t m spot) i j == get m i j + raise_at i j spot.
Proof.
  intros Hi Hj. unfold apply_spot, raise_at, covers. rewrite get_add_block.
  apply Nat.ltb_lt in Hi, Hj. rewrite Hi, Hj. simpl.
  destruct (in_range _ _ i); simpl; [|ring].
  destruct (in_range _ _ j); simpl; ring.
Qed.

Lemma get_apply_spots (spots : list TapeSpot) (m : Mesh) (i j : nat) :
  (i < length m)%nat -> (j < length (nth i m []))%nat ->
  get (apply_spots t m spots) i j == get m i j + qsum (map (raise_at i j) spots).
Proof.
  unfold apply_spots. revert m.
  induction spots as [|s spots IH]; intros m Hi Hj; simpl; [ring|].
  destruct (apply_spot_rows t m s) as [Sl Sr].
  rewrite IH by (rewrite ?Sl, ?Sr; assumption).
  rewrite get_apply_spot by assumption. ring.
Qed.

Lemma apply_spots_rows (spots : list TapeSpot) (m : Mesh) :
  length (apply_spots t m spots) = length m /\
  forall i, length (nth i (apply_spots t m spots) []) = length (nth i m []).
Proof.
  unfold apply_spots. revert m. induction spots as [|s spots IH]; intros m; simpl.
  - auto.
  - destruct (IH (apply_spot t m s)) as [H1 H2].
    destruct (apply_spot_rows t m s) as [Sl Sr].
    split; [congruence|]. intros i. now rewrite H2.
Qed.

Lemma qsum_perm (l l' : list Q) : Permutation l l' -> qsum l == qsum l'.
Proof.
  induction 1 as [|x l l' _ IH|x y l|l1 l2 l3 _ IH1 _ IH2]; simpl.
  - reflexivity.
  - now rewrite IH.
  - ring.
  - now rewrite IH1.
Qed.

Lemma get_outside (m : Mesh) (i j : nat) :
  ~ ((i < length m)%nat /\ (j < length (nth i m []))%nat) -> get m i j = 0.
Proof.
  intros H. unfold get.
  destruct (Nat.lt_ge_cases i (length m)) as [Hi|Hi].
  - apply nth_overflow. lia.
  - rewrite (nth_overflow m []) by exact Hi. now destruct j.
Qed.

(** X15. Tape stacks additively: every cell of the mesh returned by
    [apply_spots] is the base cell plus [layers * tape_thickness] for each
    spot whose clamped 3x3 neighbourhood holds the cell; hence the order of
    the spots does not matter. *)
Theorem apply_spots_stacks (base_mesh : Mesh) (spots spots' : list TapeSpot) :
  (forall i j, (i < length base_mesh)%nat -> (j < length (nth i base_mesh []))%nat ->
     get (apply_spots t base_mesh spots) i j ==
     get base_mesh i j
     + qsum (map (fun spot => if covers t spot i j
                              then inject_Z (layers spot) * tape_thickness t else 0)
                 spots)) /\
  (Permutation spots spots' ->
   forall i j, get (apply_spots t base_mesh spots) i j
               == get (apply_spots t base_mesh spots') i j).
Proof.
  split; [intros i j Hi Hj; now apply get_apply_spots|].
  intros Hp i j.
  destruct (apply_spots_rows spots base_mesh) as [L1 R1].
  destruct (apply_spots_rows spots' base_mesh) as [L2 R2].
  destruct (Nat.lt_ge_cases i (length base_mesh)) as [Hi|Hi].
  - destruct (Nat.lt_ge_cases j (length (nth i base_mesh []))) as [Hj|Hj].
    + rewrite !get_apply_spots by assumption.
      now rewrite (qsum_perm _ _ (Permutation_map (raise_at i j) Hp)).
    + rewrite !get_outside; [reflexivity | rewrite R2; lia | rewrite R1; lia].
  - rewrite !get_outside; [reflexivity | rewrite L2; lia | rewrite L1; lia].
Qed.

Lemma covers_spec (spot : TapeSpot) (i j : nat) :
  covers t spot i j = true <-> in_neighbourhood t spot i j.
Proof.
  unfold covers, in_neighbourhood. rewrite andb_true_iff, !in_range_spec. tauto.
Qed.

End StackingFacts.

Lemma apply_spots_stacks_witness :
  let a := TapeCalculator.mkTapeSpot 1 1 3 (13 # 100) 3 12100 in
  let b := TapeCalculator.mkTapeSpot 0 1 1 (5 # 100) 3 12100 in
  Permutation [a; b] [b; a] /\
  forall i j, Np.get (TapeCalculator.apply_spots Example1.tape Example1.mesh0 [a; b]) i j
              == Np.get (TapeCalculator.apply_spots Example1.tape Example1.mesh0 [b; a]) i j.
Proof.
  intros a b.
  assert (Hp : Permutation [a; b] [b; a]) by apply perm_swap.
  split; [exact Hp|].
  exact (proj2 (apply_spots_stacks Example1.tape Example1.mesh0 [a; b] [b; a]) Hp).
Defined.

(** ** algorithms/tape_calculator.py: [optimize_tape_layout] *)

Section OptimizeFacts.
Import Np Bed TapeCalculator.
Variable t : TapeCalculator.
Variable spots : list TapeSpot.

(** What every spot of the optimized list satisfies. *)
Let good (o : TapeSpot) : Prop :=
  (1 <= layers o)%Z /\
  (exists s, In s spots /\ coord o = coord s) /\
  (exists s, In s spots /\ priority o = priority s).

Lemma adjacent_refl (n : nat) : adjacent n n = true.
Proof. unfold adjacent. rewrite Nat.sub_diag. reflexivity. Qed.

Lemma fold_min_in_Z (l : list Z) (p : Z) : In (fold_left Z.min l p) (p :: l).
Proof.
  revert p. induction l as [|z l IH]; intros p; simpl; [now left|].
  destruct (IH (Z.min p z)) as [H|H]; [|now right; right].
  rewrite <- H. destruct (Z.min_spec p z) as [[_ E]|[_ E]]; rewrite E; auto.
Qed.

Lemma py_min_by_in {A} (key : A -> Q) (l : list A) (b : A) :
  py_min_by key l = Some b -> In b l.
Proof. intros H. now apply py_min_by_least in H. Qed.

Lemma optimize_step_inv (st : list TapeSpot * list (nat * nat)) (spot : TapeSpot) :
  In spot spots ->
  Forall good (fst st) ->
  let st' := optimize_step t spots st spot in
  Forall good (fst st') /\
  (length (fst st) <= length (fst st') <= S (length (fst st)))%nat /\
  (in_used (snd st) spot = false -> length (fst st') = S (length (fst st))).
Proof.
  intros Hin Hgood. destruct st as [optimized used]. unfold optimize_step.
  cbn [fst snd] in *.
  destruct (in_used used spot) eqn:U; cbn [fst snd].
  { split; [exact Hgood|]. split; [lia | discriminate]. }
  set (nearby := filter _ spots).
  assert (Hn : In spot nearby).
  { apply filter_In. split; [exact Hin|]. now rewrite !adjacent_refl, U. }
  assert (Hsub : forall s, In s nearby -> In s spots).
  { intros s Hs. apply filter_In in Hs. tauto. }
  destruct nearby as [|n0 rest] eqn:En; [contradiction|]. cbn [fst snd].
  rewrite <- En in *. clear En.
  rewrite length_app. simpl length.
  split; [|split; [lia | intros _; lia]].
  apply Forall_app. split; [exact Hgood|]. constructor; [|constructor].
  unfold good. cbn [layers coord x y priority].
  split; [apply layers_for_ge_1|]. split.
  - destruct (Nat.ltb 1 (length nearby)).
    + destruct (py_min_by _ nearby) as [c|] eqn:Ec.
      * exists c. split; [apply Hsub; eapply py_min_by_in; exact Ec | reflexivity].
      * exists spot. auto.
    + exists spot. auto.
  - unfold z_min. destruct (map priority nearby) as [|p ps] eqn:Ep.
    + exists spot. auto.
    + pose proof (fold_min_in_Z ps p) as Hm. rewrite <- Ep in Hm.
      apply in_map_iff in Hm. destruct Hm as (s & Hs1 & Hs2).
      exists s. split; [now apply Hsub | now symmetry].
Qed.

Lemma optimize_fold_inv (l : list TapeSpot) (st : list TapeSpot * list (nat * nat)) :
  (forall s, In s l -> In s spots) ->
  Forall good (fst st) ->
  let st' := fold_left (optimize_step t spots) l st in
  Forall good (fst st') /\
  (length (fst st) <= length (fst st') <= length (fst st) + length l)%nat.
Proof.
  revert st. induction l as [|s l IH]; intros st Hl Hgood; simpl.
  - split; [exact Hgood | lia].
  - destruct (optimize_step_inv st s (Hl s (or_introl eq_refl)) Hgood) as (H1 & H2 & _).
    destruct (IH (optimize_step t spots st s) (fun s' H => Hl s' (or_intror H)) H1)
      as [H3 H4].
    split; [exact H3 | lia].
Qed.

Lemma optimize_tape_layout_facts :
  let out := optimize_tape_layout t spots in
  (length out <= length spots)%nat /\
  (spots = [] <-> out = []) /\
  (forall o, In o out ->
     (1 <= layers o)%Z /\
     (exists s, In s spots /\ coord o = coord s) /\
     (exists s, In s spots /\ priority o = priority s)).
Proof.
  intros out. subst out. unfold optimize_tape_layout.
  destruct (optimize_fold_inv spots ([], []) (fun s H => H) (Forall_nil _)) as [Hg Hl].
  cbn [fst length] in Hl. split; [lia|]. split.
  - split.
    + intros E. destruct (fst _) eqn:F; [reflexivity|]. rewrite E in Hl. simpl in Hl. lia.
    + intros E.
      assert (Hcase : spots = [] \/ exists s0 rest, spots = s0 :: rest)
        by (destruct spots; eauto).
      destruct Hcase as [E0|(s0 & rest & Es)]; [exact E0|]. exfalso.
      assert (Hin : In s0 spots) by (rewrite Es; now left).
      rewrite Es in E at 2. cbn [fold_left] in E.
      destruct (optimize_step_inv ([], []) s0 Hin (Forall_nil _)) as (H1 & _ & H3).
      specialize (H3 eq_refl). cbv zeta in H3.
      destruct (optimize_fold_inv rest (optimize_step t spots ([], []) s0)) as [_ H5].
      * intros s' Hs'. rewrite Es. now right.
      * exact H1.
      * cbv zeta in H5. rewrite E in H5. cbn [fst length] in H3, H5. lia.
  - intros o Ho. rewrite Forall_forall in Hg. exact (Hg o Ho).
Qed.

(** X16. [optimize_tape_layout] returns at most as many spots as it is
    given, and at least one unless it is given none; every returned spot has
    at least one layer, lies on the cell of one of the given spots and
    carries the priority of one of them. *)
Theorem optimize_tape_layout_invariants :
  let out := optimize_tape_layout t spots in
  (length out <= length spots)%nat /\
  (spots = [] <-> out = []) /\
  (forall o, In o out ->
     (1 <= layers o)%Z /\
     (exists s, In s spots /\ coord o = coord s) /\
     (exists s, In s spots /\ priority o = priority s)).
Proof. exact optimize_tape_layout_facts. Qed.

End OptimizeFacts.

Lemma optimize_tape_layout_invariants_witness :
  exists o,
    In o (TapeCalculator.optimize_tape_layout Example2.tape [Example4.spot]) /\
    (1 <= TapeCalculator.layers o)%Z /\
    TapeCalculator.coord o = TapeCalculator.coord Example4.spot.
Proof.
  destruct (optimize_tape_layout_invariants Example2.tape [Example4.spot])
    as (_ & Hnil & Hall).
  destruct (TapeCalculator.optimize_tape_layout Example2.tape [Example4.spot])
    as [|o out] eqn:E.
  - destruct Hnil as [_ Hnil]. discriminate (Hnil eq_refl).
  - exists o. destruct (Hall o (or_introl eq_refl)) as (Hl & (s & [<-|[]] & Hc) & _).
    split; [now left|]. split; [exact Hl | exact Hc].
Defined.

(** ** workflow/calculators.py: the tape stage *)

Section TapeStageFacts.
Import Np Bed Models Calculators TapeCalculator.
Variable t : TapeCalculator.
Variable settings : Settings.

Lemma find_low_spots_nil (mesh : Mesh) :
  find_low_spots t mesh = [] <->
  forall cell, In cell (grid_cells (config (bed t))) -> is_low t mesh cell = false.
Proof.
  unfold find_low_spots.
  set (raw := flat_map (spot_at t mesh (mean mesh)) (grid_cells (config (bed t)))).
  pose proof (py_sorted_perm (fun a b => key_ltb (sort_key a) (sort_key b)) raw) as Hp.
  pose proof (spot_at_coords t mesh (grid_cells (config (bed t)))) as Hc. fold raw in Hc.
  split.
  - intros E. rewrite E in Hp. apply Permutation_sym, Permutation_nil in Hp.
    rewrite Hp in Hc. simpl in Hc. intros cell Hcell.
    destruct (is_low t mesh cell) eqn:L; [|reflexivity].
    assert (Hin : In cell (filter (is_low t mesh) (grid_cells (config (bed t)))))
      by (apply filter_In; auto).
    rewrite <- Hc in Hin. contradiction.
  - intros H.
    assert (Hf : filter (is_low t mesh) (grid_cells (config (bed t))) = []).
    { destruct (filter _ _) as [|c l] eqn:F; [reflexivity|].
      assert (Hin : In c (c :: l)) by now left.
      rewrite <- F in Hin. apply filter_In in Hin. destruct Hin as [Hin L].
      rewrite (H c Hin) in L. discriminate. }
    rewrite Hf in Hc. apply map_eq_nil in Hc. rewrite Hc. reflexivity.
Qed.

(** X17. The enabled tape stage has no actions exactly when no grid cell
    off the corner screws lies below the mean by more than the threshold;
    it then hands its input mesh on unchanged, with the deviation of its
    baseline and the warning that nothing is to be taped. *)
Theorem tape_stage_without_low_cells (base_mesh : Mesh) :
  let stage := fst (build_tape_stage t base_mesh settings true) in
  let mesh_after := snd (build_tape_stage t base_mesh settings true) in
  (actions stage = [] <->
   forall cell, In cell (grid_cells (config (bed t))) -> is_low t base_mesh cell = false) /\
  (actions stage = [] ->
   mesh_after = base_mesh /\ mesh stage = base_mesh /\
   enabled stage = true /\
   baseline stage = Some (deviation stage) /\
   warnings stage = ["visual_rec.tape_no_adjustments"%string]).
Proof.
  unfold build_tape_stage. cbn [negb].
  set (spots := optimize_tape_layout t (find_low_spots t base_mesh)).
  assert (Hnil : spots = [] <-> find_low_spots t base_mesh = []).
  { symmetry. apply (optimize_tape_layout_facts t (find_low_spots t base_mesh)). }
  cbn [fst snd actions mesh enabled baseline deviation warnings].
  assert (Hact : _build_tape_actions spots (Calculators.tape_thickness (hardware settings)) = []
                 <-> spots = []).
  { unfold _build_tape_actions. split; [apply map_eq_nil | intros ->; reflexivity]. }
  split.
  - rewrite Hact, Hnil. apply find_low_spots_nil.
  - intros H. apply Hact in H. rewrite H. repeat split.
Qed.

Lemma apply_spots_increases (base_mesh : Mesh) (spots : list TapeSpot) :
  (forall s, In s spots -> (1 <= layers s)%Z) ->
  0 <= TapeCalculator.tape_thickness t ->
  forall i j, get base_mesh i j <= get (apply_spots t base_mesh spots) i j.
Proof.
  intros Hl Ht. unfold apply_spots. revert base_mesh.
  induction spots as [|s spots IH]; intros base_mesh i j; simpl; [apply Qle_refl|].
  eapply Qle_trans; [|apply IH; intros s' H; apply Hl; now right].
  apply apply_spot_increases; [apply Hl; now left | exact Ht].
Qed.

(** X18. With a non-negative tape thickness the tape stage never lowers a
    cell: the spots it applies are those of [optimize_tape_layout], which
    always carry at least one layer. *)
Theorem tape_stage_never_lowers (base_mesh : Mesh) (enabled_flag : bool) :
  0 <= TapeCalculator.tape_thickness t ->
  forall i j,
    get base_mesh i j
    <= get (snd (build_tape_stage t base_mesh settings enabled_flag)) i j.
Proof.
  intros Ht i j. unfold build_tape_stage.
  destruct (negb enabled_flag); cbn [snd]; [apply Qle_refl|].
  destruct (optimize_tape_layout t (find_low_spots t base_mesh)) as [|s l] eqn:E;
    [apply Qle_refl|].
  rewrite <- E. apply apply_spots_increases; [|exact Ht].
  intros o Ho. now apply (optimize_tape_layout_facts t (find_low_spots t base_mesh)).
Qed.

End TapeStageFacts.

Lemma tape_stage_never_lowers_witness :
  0 <= TapeCalculator.tape_thickness Example2.tape /\
  forall i j,
    Np.get Example2.mesh0 i j
    <= Np.get (snd (Calculators.build_tape_stage Example2.tape Example2.mesh0
                      Example1.settings true)) i j.
Proof.
  assert (Ht : 0 <= TapeCalculator.tape_thickness Example2.tape) by (vm_compute; discriminate).
  split; [exact Ht|].
  exact (tape_stage_never_lowers Example2.tape Example1.settings Example2.mesh0 true Ht).
Defined.

Lemma tape_stage_without_low_cells_witness :
  (forall cell, In cell (TapeCalculator.grid_cells (Bed.config (TapeCalculator.bed Example2.tape))) ->
     TapeCalculator.is_low Example2.tape Example4.level_mesh cell = false) /\
  Models.actions (fst (Calculators.build_tape_stage Example2.tape Example4.level_mesh
                         Example1.settings true)) = [] /\
  snd (Calculators.build_tape_stage Example2.tape Example4.level_mesh
         Example1.settings true) = Example4.level_mesh.
Proof.
  assert (Hlow : forall cell,
            In cell (TapeCalculator.grid_cells (Bed.config (TapeCalculator.bed Example2.tape))) ->
            TapeCalculator.is_low Example2.tape Example4.level_mesh cell = false).
  { assert (Hb : forallb (fun cell => negb (TapeCalculator.is_low Example2.tape
                                              Example4.level_mesh cell))
                   (TapeCalculator.grid_cells (Bed.config (TapeCalculator.bed Example2.tape)))
                 = true) by reflexivity.
    intros cell Hin. rewrite forallb_forall in Hb. apply negb_true_iff. now apply Hb. }
  split; [exact Hlow|].
  destruct (tape_stage_without_low_cells Example2.tape Example1.settings Example4.level_mesh)
    as [Hiff Hthen].
  pose proof (proj2 Hiff Hlow) as Hnil.
  split; [exact Hnil|]. exact (proj1 (Hthen Hnil)).
Defined.

(** ** workflow: how the stages chain *)

Section StageChain.
Import Np Bed Models Calculators Engine.

Lemma compute_stage_deviation_nonneg (mesh : Mesh) : 0 <= compute_stage_deviation mesh.
Proof.
  unfold compute_stage_deviation, Np.max, Np.min.
  pose proof (list_min_le_max (flat mesh)). lra.
Qed.

Lemma build_belt_stage_facts bed solver settings base flag stage mesh_after :
  build_belt_stage bed solver settings base flag = Ok (stage, mesh_after) ->
  stage_of stage base mesh_after flag.
Proof.
  unfold build_belt_stage, stage_of. destruct flag; cbn [negb].
  - intros H. apply bind_ok in H. destruct H as (d & _ & H).
    destruct (_apply_belt_adjustments base solver d). inversion H; subst; clear H.
    cbn. repeat split; auto; discriminate.
  - intros H. inversion H; subst; clear H. cbn. repeat split; auto; discriminate.
Qed.

Lemma build_screw_stage_facts analyzer solver base flag stage mesh_after :
  build_screw_stage analyzer solver base flag = Ok (stage, mesh_after) ->
  stage_of stage base mesh_after flag.
Proof.
  unfold build_screw_stage, stage_of. destruct flag; cbn [negb].
  - intros H.
    apply bind_ok in H. destruct H as (p & _ & H).
    apply bind_ok in H. destruct H as (adj & _ & H).
    apply bind_ok in H. destruct H as (m & _ & H).
    inversion H; subst; clear H. cbn. repeat split; auto; discriminate.
  - intros H. inversion H; subst; clear H. cbn. repeat split; auto; discriminate.
Qed.

Lemma build_tape_stage_facts tc base settings flag :
  stage_of (fst (build_tape_stage tc base settings flag)) base
           (snd (build_tape_stage tc base settings flag)) flag.
Proof.
  unfold build_tape_stage, stage_of. destruct flag; cbn; repeat split; auto; discriminate.
Qed.

Lemma build_temperature_stage_facts bed base env tm :
  let stage := fst (build_temperature_stage bed base env true tm) in
  let mesh_after := snd (build_temperature_stage bed base env true tm) in
  mesh stage = mesh_after /\
  deviation stage = compute_stage_deviation mesh_after /\
  baseline stage = Some (compute_stage_deviation base) /\
  (enabled stage = true <->
   1 # 1000000 < Qabs (deviation stage - compute_stage_deviation base)).
Proof.
  unfold build_temperature_stage. cbn. repeat split; auto.
  - intros H. now apply Qgtb_gt.
  - intros H. now apply Qgtb_gt.
Qed.

Lemma compute_workflow_stages bed analyzer solver tc settings wd :
  compute_workflow bed analyzer solver tc settings = Ok wd ->
  exists m belt m1 screw m2,
    mesh_data bed = Some m /\
    build_belt_stage bed solver settings m
      (get_or (enable_belt (workflow settings)) true) = Ok (belt, m1) /\
    build_screw_stage analyzer solver m1
      (get_or (enable_screws (workflow settings)) true) = Ok (screw, m2) /\
    stages wd =
      [compute_initial_stage m; belt; screw;
       fst (build_tape_stage tc m2 settings (get_or (enable_tape (workflow settings)) true));
       fst (build_temperature_stage bed
              (snd (build_tape_stage tc m2 settings
                      (get_or (enable_tape (workflow settings)) true)))
              (environment settings) true (thermal_model settings))].
Proof.
  unfold compute_workflow. destruct (mesh_data bed) as [m|]; [|discriminate].
  intros H.
  apply bind_ok in H. destruct H as ([belt m1] & Hb & H).
  apply bind_ok in H. destruct H as ([screw m2] & Hs & H).
  exists m, belt, m1, screw, m2. split; [reflexivity|]. split; [exact Hb|].
  split; [exact Hs|].
  destruct (build_tape_stage tc m2 settings _) as [tape m3]. cbn [fst snd].
  destruct (build_temperature_stage bed m3 _ true _) as [temp m4]. cbn [fst].
  inversion H; subst; clear H. reflexivity.
Qed.

(** X19. In a returned [WorkflowData] the five stages stand in their fixed
    order; the initial stage holds the bed's mesh and has no baseline; the
    baseline of every later stage is the deviation of the stage before it;
    and the deviation of every stage is max - min of its own mesh, hence
    never negative. *)
Theorem workflow_stages_chain bed analyzer solver tc settings wd :
  compute_workflow bed analyzer solver tc settings = Ok wd ->
  exists s0 s1 s2 s3 s4,
    stages wd = [s0; s1; s2; s3; s4] /\
    map key (stages wd)
    = ["initial"; "after_belts"; "after_screws"; "after_tape"; "after_temperature"]%string /\
    mesh_data bed = Some (mesh s0) /\
    baseline s0 = None /\
    baseline s1 = Some (deviation s0) /\
    baseline s2 = Some (deviation s1) /\
    baseline s3 = Some (deviation s2) /\
    baseline s4 = Some (deviation s3) /\
    forall s, In s (stages wd) ->
      deviation s = compute_stage_deviation (mesh s) /\ 0 <= deviation s.
Proof.
  intros H.
  destruct (compute_workflow_inv _ _ _ _ _ _ H) as (m' & rest & _ & Hst' & Hkeys & _).
  destruct (compute_workflow_stages _ _ _ _ _ _ H)
    as (m & belt & m1 & screw & m2 & Hm & Hb & Hs & Hst).
  pose proof (build_belt_stage_facts _ _ _ _ _ _ _ Hb) as (B1 & B2 & B3 & _).
  pose proof (build_screw_stage_facts _ _ _ _ _ _ Hs) as (S1 & S2 & S3 & _).
  pose proof (build_tape_stage_facts tc m2 settings
                (get_or (enable_tape (workflow settings)) true)) as (T1 & T2 & T3 & _).
  set (tp := build_tape_stage tc m2 settings _) in *.
  pose proof (build_temperature_stage_facts bed (snd tp) (environment settings)
                (thermal_model settings)) as (E1 & E2 & E3 & _).
  set (te := build_temperature_stage bed (snd tp) _ true _) in *.
  exists (compute_initial_stage m), belt, screw, (fst tp), (fst te).
  split; [exact Hst|]. split.
  { rewrite Hst'. cbn [map]. rewrite Hkeys. reflexivity. }
  split; [exact Hm|]. split; [reflexivity|]. split; [exact B3|].
  split; [rewrite S3, B2; reflexivity|].
  split; [rewrite T3, S2; reflexivity|].
  split; [rewrite E3, T2; reflexivity|].
  assert (Hdev : forall s, In s (stages wd) ->
                   deviation s = compute_stage_deviation (mesh s)).
  { rewrite Hst. intros s [<-|[<-|[<-|[<-|[<-|[]]]]]].
    - reflexivity.
    - now rewrite B1.
    - now rewrite S1.
    - now rewrite T1.
    - now rewrite E1. }
  intros s Hin. split; [now apply Hdev|].
  rewrite (Hdev s Hin). apply compute_stage_deviation_nonneg.
Qed.

(** X20. A stage switched off in the workflow flags blocks nothing: it is
    reported as not enabled, with no actions and the deviation of the stage
    before it, and its mesh is exactly the mesh of the stage before it. *)
Theorem disabled_stages_pass_through bed analyzer solver tc settings wd :
  compute_workflow bed analyzer solver tc settings = Ok wd ->
  exists s0 s1 s2 s3 s4,
    stages wd = [s0; s1; s2; s3; s4] /\
    (enable_belt (workflow settings) = Some false ->
     mesh s1 = mesh s0 /\ deviation s1 = deviation s0 /\
     enabled s1 = false /\ actions s1 = []) /\
    (enable_screws (workflow settings) = Some false ->
     mesh s2 = mesh s1 /\ deviation s2 = deviation s1 /\
     enabled s2 = false /\ actions s2 = []) /\
    (enable_tape (workflow settings) = Some false ->
     mesh s3 = mesh s2 /\ deviation s3 = deviation s2 /\
     enabled s3 = false /\ actions s3 = []).
Proof.
  intros H.
  destruct (compute_workflow_stages _ _ _ _ _ _ H)
    as (m & belt & m1 & screw & m2 & Hm & Hb & Hs & Hst).
  pose proof (build_belt_stage_facts _ _ _ _ _ _ _ Hb) as (B1 & B2 & B3 & B4 & _).
  pose proof (build_screw_stage_facts _ _ _ _ _ _ Hs) as (S1 & S2 & S3 & S4 & _).
  pose proof (build_tape_stage_facts tc m2 settings
                (get_or (enable_tape (workflow settings)) true)) as (T1 & T2 & T3 & T4 & _).
  set (tp := build_tape_stage tc m2 settings _) in *.
  do 5 eexists. split; [exact Hst|]. split; [|split].
  - intros F. rewrite F in B4. destruct (B4 eq_refl) as (Q1 & Q2 & Q3 & _).
    rewrite B1, B2, Q1. cbn. auto.
  - intros F. rewrite F in S4. destruct (S4 eq_refl) as (Q1 & Q2 & Q3 & _).
    rewrite S1, S2, B1, B2, Q1. auto.
  - intros F. rewrite F in T4. destruct (T4 eq_refl) as (Q1 & Q2 & Q3 & _).
    rewrite T1, T2, S1, S2, Q1. auto.
Qed.

End StageChain.

Lemma workflow_stages_chain_witness :
  exists wd,
    Example1.run = Ok wd /\
    map Models.key (Engine.stages wd)
    = ["initial"; "after_belts"; "after_screws"; "after_tape"; "after_temperature"]%string.
Proof.
  destruct (compute_workflow_returns Example1.bed0 Example1.analyzer Example1.solver
              Example1.tape Example1.settings Example1.mesh0 Example1.mesh0 Example1.mesh0
              eq_refl eq_refl eq_refl) as [wd Hwd].
  exists wd. split; [exact Hwd|].
  destruct (workflow_stages_chain _ _ _ _ _ wd Hwd) as (s0 & s1 & s2 & s3 & s4 & _ & Hk & _).
  exact Hk.
Defined.

Lemma disabled_stages_pass_through_witness :
  exists wd s0 s1 s2 s3 s4,
    Example1.run = Ok wd /\
    Engine.stages wd = [s0; s1; s2; s3; s4] /\
    Models.mesh s2 = Models.mesh s1 /\ Models.mesh s3 = Models.mesh s2.
Proof.
  destruct (compute_workflow_returns Example1.bed0 Example1.analyzer Example1.solver
              Example1.tape Example1.settings Example1.mesh0 Example1.mesh0 Example1.mesh0
              eq_refl eq_refl eq_refl) as [wd Hwd].
  destruct (disabled_stages_pass_through _ _ _ _ _ wd Hwd)
    as (s0 & s1 & s2 & s3 & s4 & Hst & _ & Hs & Ht).
  exists wd, s0, s1, s2, s3, s4. split; [exact Hwd|]. split; [exact Hst|].
  split; [apply Hs | apply Ht]; reflexivity.
Defined.

(** ** workflow/calculators.py: the temperature stage *)

Section TemperatureFacts.
Import Np Bed Models Calculators.
Variable bed : Bed.Bed.
Variable env : Environment.
Variable tm : option ThermalModel.

Lemma shape_has_shape (r c : nat) (m : Mesh) :
  has_shape r c m -> (0 < r)%nat -> shape m = (r, c).
Proof.
  intros [Hl Hf] Hr. unfold shape. destruct m as [|row m]; simpl in *; [lia|].
  inversion Hf; subst. reflexivity.
Qed.

Lemma radius_sq_shape (r c : nat) (m : Mesh) :
  has_shape r c m -> (0 < r)%nat -> has_shape r c (radius_sq (config bed) m).
Proof.
  intros Hm Hr. unfold radius_sq. destruct (get_mm_per_point (config bed)).
  rewrite (shape_has_shape r c m Hm Hr). apply has_shape_mesh_tab.
Qed.

Lemma recentred_mean (r c : nat) (m warp : Mesh) :
  has_shape r c m -> has_shape r c warp -> (0 < r)%nat -> (0 < c)%nat ->
  has_shape r c (add m (sub_scalar warp (mean warp))) /\
  mean (add m (sub_scalar warp (mean warp))) == mean m.
Proof.
  intros Hm Hw Hr Hc.
  assert (Hs : has_shape r c (sub_scalar warp (mean warp))) by now apply has_shape_mesh_map.
  split; [now apply has_shape_mesh_zip|].
  rewrite (mean_add r c), (mean_sub_scalar r c) by assumption. ring.
Qed.

(** X21. The thermal warp is re-centred before it is added: whatever the
    temperatures and the plate model, the mesh returned by
    [_apply_temperature_effect] has the shape and the mean of the mesh it
    was given. *)
Theorem temperature_effect_keeps_mean (r c : nat) (mesh : Mesh) :
  has_shape r c mesh -> (0 < r)%nat -> (0 < c)%nat ->
  has_shape r c (_apply_temperature_effect bed mesh env tm) /\
  mean (_apply_temperature_effect bed mesh env tm) == mean mesh.
Proof.
  intros Hm Hr Hc.
  pose proof (radius_sq_shape r c mesh Hm Hr) as Hrs.
  assert (H0 : has_shape r c (full_like mesh 0)) by now apply has_shape_mesh_map.
  unfold _apply_temperature_effect. cbv zeta.
  repeat match goal with
         | |- context [if ?b then _ else _] => destruct b
         end;
    first [ split; [exact Hm | reflexivity]
          | apply recentred_mean; auto;
            repeat first [ exact H0 | exact Hrs
                         | apply has_shape_mesh_zip | apply has_shape_mesh_map ] ].
Qed.

(** X22. Without a thermal model and with a target temperature within
    0.001 of the measurement temperature (both default to 25 when the
    environment does not give them), the temperature stage returns its input
    mesh and is reported as not enabled, with the warning that nothing
    changes. *)
Theorem temperature_stage_idle (base_mesh : Mesh) :
  thermal_model_is_empty (get_or tm empty_thermal_model) = true ->
  Qabs (get_or (env_target_temp env) (get_or (env_measurement_temp env) 25)
        - get_or (env_measurement_temp env) 25) < 1 # 1000 ->
  let stage := fst (build_temperature_stage bed base_mesh env true tm) in
  snd (build_temperature_stage bed base_mesh env true tm) = base_mesh /\
  mesh stage = base_mesh /\
  enabled stage = false /\
  baseline stage = Some (deviation stage) /\
  actions stage = [] /\
  warnings stage = ["visual_rec.temperature_no_adjustments"%string].
Proof.
  intros He Ht.
  assert (E : _apply_temperature_effect bed base_mesh env tm = base_mesh).
  { unfold _apply_temperature_effect. cbv zeta.
    destruct (get_or tm empty_thermal_model) as [n mt tt cf pt st ap ast bu].
    unfold thermal_model_is_empty in He. cbn in He.
    destruct n, mt, tt, cf, pt, st, ap, ast, bu; try discriminate He.
    cbn [measurement_temp target_temp get_or thermal_model_is_empty].
    apply Qltb_lt in Ht. cbn [get_or] in Ht. rewrite Ht. reflexivity. }
  unfold build_temperature_stage. cbn [fst snd mesh enabled baseline actions warnings deviation].
  rewrite E.
  assert (Z0 : Qgtb (Qabs (compute_stage_deviation base_mesh
                           - compute_stage_deviation base_mesh)) (1 # 1000000) = false).
  { apply Qgtb_le.
    setoid_replace (compute_stage_deviation base_mesh - compute_stage_deviation base_mesh)
      with 0 by ring.
    discriminate. }
  rewrite Z0. repeat split.
Qed.

End TemperatureFacts.

Lemma temperature_effect_keeps_mean_witness :
  Np.has_shape 3 3 Example1.mesh0 /\
  Np.mean (Calculators._apply_temperature_effect Example1.bed0 Example1.mesh0
             (Calculators.mkEnvironment (Some 25) (Some 60) (Some (1 # 100000))) None)
  == Np.mean Example1.mesh0.
Proof.
  assert (Hs : Np.has_shape 3 3 Example1.mesh0) by (apply has_shapeb_spec; reflexivity).
  split; [exact Hs|].
  apply (temperature_effect_keeps_mean Example1.bed0 _ None 3 3 Example1.mesh0 Hs); lia.
Defined.

Lemma temperature_stage_idle_witness :
  let env := Calculators.mkEnvironment None None None in
  Calculators.thermal_model_is_empty
    (Calculators.get_or None Calculators.empty_thermal_model) = true /\
  Models.enabled (fst (Calculators.build_temperature_stage Example1.bed0 Example1.mesh0
                         env true None)) = false.
Proof.
  intros env.
  assert (He : Calculators.thermal_model_is_empty
                 (Calculators.get_or None Calculators.empty_thermal_model) = true)
    by reflexivity.
  split; [exact He|].
  apply (temperature_stage_idle Example1.bed0 env None Example1.mesh0 He). reflexivity.
Defined.

(** ** workflow/calculators.py: the belt actions *)

Section BeltActionFacts.
Import Np Bed Models Calculators.
Variable bed : Bed.Bed.
Variable solver : ScrewSolver.ScrewSolver.
Variable mesh : Mesh.
Variable threshold tooth_mm : Q.
Hypothesis mesh_set : mesh_data bed = Some mesh.

Let left_front : Q := get mesh 0 0.
Let right_front : Q := get mesh 0 (snd (shape mesh) - 1).
Let back_center : Q := get mesh (fst (shape mesh) - 1) (snd (shape mesh) / 2).
Let lr_diff : Q := right_front - left_front.
Let back_diff : Q := back_center - (left_front + right_front) / 2.

Lemma belt_teeth_covers (diff : Q) :
  (1 <= belt_teeth diff tooth_mm)%Z /\
  (0 < tooth_mm -> Qabs diff <= inject_Z (belt_teeth diff tooth_mm) * tooth_mm).
Proof.
  unfold belt_teeth. split; [lia|]. intros Ht.
  pose proof (Qle_ceiling (Qabs diff / tooth_mm)) as Hc.
  assert (Hz : inject_Z (Qceiling (Qabs diff / tooth_mm))
               <= inject_Z (Z.max 1 (Qceiling (Qabs diff / tooth_mm))))
    by (rewrite <- Zle_Qle; lia).
  assert (E : Qabs diff == Qabs diff / tooth_mm * tooth_mm) by (field; lra).
  rewrite E at 1. apply Qmult_le_compat_r; [|lra].
  eapply Qle_trans; [exact Hc | exact Hz].
Qed.

(** What holds of an entry of the dictionary of belt actions. *)
Let belt_entry (k : string) (a : StageAction) : Prop :=
  identifier a = k /\ kind a = "belt"%string /\
  exists n, teeth a = Some n /\ (1 <= n)%Z /\
            magnitude_mm a = Some (inject_Z n * tooth_mm) /\
            ((k = "front_left"%string /\ 0 < lr_diff /\ threshold < Qabs lr_diff /\
              direction a = Some "up"%string /\
              (0 < tooth_mm -> Qabs lr_diff <= inject_Z n * tooth_mm)) \/
             (k = "front_right"%string /\ lr_diff <= 0 /\ threshold < Qabs lr_diff /\
              direction a = Some "up"%string /\
              (0 < tooth_mm -> Qabs lr_diff <= inject_Z n * tooth_mm)) \/
             (k = "back"%string /\ threshold < Qabs back_diff /\
              direction a = Some (if Qltb back_diff 0 then "up" else "down")%string /\
              (0 < tooth_mm -> Qabs back_diff <= inject_Z n * tooth_mm))).

Lemma belt_adjustments_facts (l : list (string * StageAction)) :
  _calculate_belt_adjustments bed solver threshold tooth_mm = Ok l ->
  (l = [] <-> Qabs lr_diff <= threshold /\ Qabs back_diff <= threshold) /\
  (length l <= 2)%nat /\
  (forall k a, In (k, a) l -> belt_entry k a).
Proof.
  unfold _calculate_belt_adjustments. rewrite mesh_set.
  destruct (shape mesh) as [rows cols] eqn:Es.
  assert (Elr : get mesh 0 (cols - 1) - get mesh 0 0 = lr_diff).
  { unfold lr_diff, right_front, left_front. rewrite ?Es. reflexivity. }
  assert (Eb : get mesh (rows - 1) (cols / 2) - (get mesh 0 0 + get mesh 0 (cols - 1)) / 2
               = back_diff).
  { unfold back_diff, back_center, right_front, left_front. rewrite ?Es. reflexivity. }
  cbv zeta. rewrite Elr, Eb. intros H.
  assert (El : forall l0, Ok l0 = Ok l -> l0 = l) by (intros l0 E; now injection E).
  apply El in H. clear El. subst l.
  destruct (belt_teeth_covers lr_diff) as [T1 T2].
  destruct (belt_teeth_covers back_diff) as [T3 T4].
  assert (Hfront : forall a,
            a = (let teeth := belt_teeth lr_diff tooth_mm in
                 let target_corner :=
                   (if Qgtb lr_diff 0 then "front_left" else "front_right")%string in
                 mkStageAction "belt" target_corner (_format_corner_name target_corner)
                   (Some "up"%string) (Some (inject_Z teeth * tooth_mm)) (Some teeth)
                   None None
                   [("sign"%string, MFloat 1); ("gain"%string, MFloat FRONT_SHAFT_GAIN);
                    ("raw_difference"%string, MFloat lr_diff);
                    ("load_bias"%string, MStr "front")]) ->
            threshold < Qabs lr_diff ->
            belt_entry (if Qgtb lr_diff 0 then "front_left" else "front_right")%string a).
  { intros a -> G. unfold belt_entry. cbv zeta.
    cbn [identifier kind teeth magnitude_mm direction].
    split; [reflexivity|]. split; [reflexivity|]. eexists. split; [reflexivity|].
    split; [exact T1|]. split; [reflexivity|].
    destruct (Qgtb lr_diff 0) eqn:G0; [apply Qgtb_gt in G0 | apply Qgtb_le in G0].
    - left. auto.
    - right. left. auto. }
  assert (Hback : forall a,
            a = (let teeth := belt_teeth back_diff tooth_mm in
                 let direction := (if Qltb back_diff 0 then "up" else "down")%string in
                 mkStageAction "belt" "back" (_format_corner_name "back_center")
                   (Some direction) (Some (inject_Z teeth * tooth_mm)) (Some teeth)
                   None None
                   [("sign"%string, MFloat (if String.eqb direction "up" then 1 else -1));
                    ("gain"%string, MFloat BACK_SHAFT_GAIN);
                    ("raw_difference"%string, MFloat back_diff);
                    ("load_bias"%string, MStr "support")]) ->
            threshold < Qabs back_diff ->
            belt_entry "back" a).
  { intros a -> G. unfold belt_entry. cbv zeta.
    cbn [identifier kind teeth magnitude_mm direction].
    split; [reflexivity|]. split; [reflexivity|]. eexists. split; [reflexivity|].
    split; [exact T3|]. split; [reflexivity|]. right. right. auto. }
  destruct (Qgtb (Qabs lr_diff) threshold) eqn:G1;
    [apply Qgtb_gt in G1 | apply Qgtb_le in G1];
    (destruct (Qgtb (Qabs back_diff) threshold) eqn:G2;
     [apply Qgtb_gt in G2 | apply Qgtb_le in G2]); cbn [app length].
  - split; [split; [intros E; discriminate E | intros [A B]; exfalso; lra]|].
    split; [lia|].
    intros k a [E|[E|[]]]; injection E as <- <-.
    + now apply Hfront.
    + now apply Hback.
  - split; [split; [intros E; discriminate E | intros [A B]; exfalso; lra]|].
    split; [lia|].
    intros k a [E|[]]; injection E as <- <-. now apply Hfront.
  - split; [split; [intros E; discriminate E | intros [A B]; exfalso; lra]|].
    split; [lia|].
    intros k a [E|[]]; injection E as <- <-. now apply Hback.
  - split; [split; [intros _; split; assumption | reflexivity]|].
    split; [lia|]. intros k a [].
Qed.

(** X23. The belt actions: there is none exactly when the two front corners
    differ by at most the threshold and the back centre differs from the
    front average by at most the threshold; there are at most two; a front
    action raises the lower front corner; every action moves by a whole
    number of teeth, at least one, and with a positive tooth pitch by at
    least the difference it answers. *)
Theorem belt_adjustments_spec (l : list (string * StageAction)) :
  _calculate_belt_adjustments bed solver threshold tooth_mm = Ok l ->
  (l = [] <-> Qabs lr_diff <= threshold /\ Qabs back_diff <= threshold) /\
  (length l <= 2)%nat /\
  (forall k a, In (k, a) l ->
     identifier a = k /\ kind a = "belt"%string /\
     exists n, teeth a = Some n /\ (1 <= n)%Z /\
               magnitude_mm a = Some (inject_Z n * tooth_mm) /\
               ((k = "front_left"%string /\ 0 < lr_diff /\ threshold < Qabs lr_diff /\
                 direction a = Some "up"%string /\
                 (0 < tooth_mm -> Qabs lr_diff <= inject_Z n * tooth_mm)) \/
                (k = "front_right"%string /\ lr_diff <= 0 /\ threshold < Qabs lr_diff /\
                 direction a = Some "up"%string /\
                 (0 < tooth_mm -> Qabs lr_diff <= inject_Z n * tooth_mm)) \/
                (k = "back"%string /\ threshold < Qabs back_diff /\
                 direction a = Some (if Qltb back_diff 0 then "up" else "down")%string /\
                 (0 < tooth_mm -> Qabs back_diff <= inject_Z n * tooth_mm)))).
Proof. exact (belt_adjustments_facts l). Qed.

End BeltActionFacts.

Lemma belt_adjustments_spec_witness :
  Bed.mesh_data Example1.bed0 = Some Example1.mesh0 /\
  exists l,
    Calculators._calculate_belt_adjustments Example1.bed0 Example1.solver (19 # 100) (4 # 10)
    = Ok l /\
    (length l <= 2)%nat.
Proof.
  assert (Hm : Bed.mesh_data Example1.bed0 = Some Example1.mesh0) by reflexivity.
  split; [exact Hm|].
  destruct (Calculators._calculate_belt_adjustments Example1.bed0 Example1.solver
              (19 # 100) (4 # 10)) as [l|] eqn:E; [|discriminate E].
  exists l. split; [reflexivity|].
  exact (proj1 (proj2 (belt_adjustments_spec Example1.bed0 Example1.solver Example1.mesh0
                         (19 # 100) (4 # 10) Hm l E))).
Defined.

(** ** workflow/calculators.py: the belt stage on a level bed *)

Section BeltStageFacts.
Import Np Bed Models Calculators.
Variable bed : Bed.Bed.
Variable solver : ScrewSolver.ScrewSolver.
Variable settings : Settings.
Variable bed_mesh : Mesh.
Hypothesis mesh_set : mesh_data bed = Some bed_mesh.

Let threshold : Q :=
  get_or (belt_threshold (thresholds settings)) (screw_threshold (thresholds settings)).
Let lr_diff : Q := get bed_mesh 0 (snd (shape bed_mesh) - 1) - get bed_mesh 0 0.
Let back_diff : Q :=
  get bed_mesh (fst (shape bed_mesh) - 1) (snd (shape bed_mesh) / 2)
  - (get bed_mesh 0 0 + get bed_mesh 0 (snd (shape bed_mesh) - 1)) / 2.

Lemma dict_get_map {A} (g : A -> A) (d : list (string * A)) (k : string) :
  dict_get (map (fun '(k', a) => (k', g a)) d) k = option_map g (dict_get d k).
Proof.
  induction d as [|[k' a] d IH]; simpl; [reflexivity|].
  destruct (String.eqb k' k); [reflexivity | exact IH].
Qed.

Lemma belt_actions_nil (d : list (string * StageAction)) :
  (forall k a, In (k, a) d ->
     k = "front_left"%string \/ k = "front_right"%string \/ k = "back"%string) ->
  flat_map (fun k => match dict_get d k with
                     | Some a => [a]
                     | None => []
                     end)
           ["front_left"; "front_right"; "back"]%string = [] ->
  d = [].
Proof.
  intros Hk H. destruct d as [|[k a] d]; [reflexivity|]. exfalso.
  destruct (Hk k a (or_introl eq_refl)) as [-> | [-> | ->]]; simpl in H;
    try discriminate H.
  all: repeat match type of H with
              | context [if ?b then _ else _] => destruct b; simpl in H; try discriminate H
              | context [match dict_get ?d ?k with _ => _ end] =>
                  destruct (dict_get d k); simpl in H; try discriminate H
              end.
Qed.

Lemma _apply_belt_adjustments_keys (base : Mesh) (d : list (string * StageAction)) :
  let '(m, d2) := _apply_belt_adjustments base solver d in
  (d = [] -> m = base /\ d2 = []) /\
  (d <> [] -> d2 <> []) /\
  (forall k a, In (k, a) d2 -> exists a', In (k, a') d).
Proof.
  unfold _apply_belt_adjustments. destruct d as [|e d'].
  - split; [auto|]. split; [intros H; now contradiction H|]. intros k a [].
  - split; [discriminate|]. split; [intros _; discriminate|].
    intros k a Hin. apply in_map_iff in Hin. destruct Hin as ([k' a'] & E & Hin).
    injection E as <- _. now exists a'.
Qed.

(** X24. The enabled belt stage has no actions exactly when the two front
    corners of the bed's mesh differ by at most the belt threshold (the
    screw threshold when none is set) and the back centre differs from the
    front average by at most it; the stage then hands its input mesh on
    unchanged with the warning that no belt adjustment is needed. *)
Theorem belt_stage_on_level_bed (mesh_before mesh_after : Mesh) (stage : StageResult) :
  build_belt_stage bed solver settings mesh_before true = Ok (stage, mesh_after) ->
  (actions stage = [] <-> Qabs lr_diff <= threshold /\ Qabs back_diff <= threshold) /\
  (actions stage = [] ->
   mesh_after = mesh_before /\ deviation stage = compute_stage_deviation mesh_before /\
   warnings stage = ["visual_rec.belt_no_adjustments"%string]).
Proof.
  unfold build_belt_stage. cbn [negb]. intros H.
  apply bind_ok in H. destruct H as (d & Hd & H).
  destruct (belt_adjustments_facts bed solver bed_mesh _ _ mesh_set d Hd) as (Hnil & Hlen & Hent).
  fold threshold in Hnil. fold lr_diff in Hnil. fold back_diff in Hnil.
  assert (Hkeys : forall k a, In (k, a) d ->
            k = "front_left"%string \/ k = "front_right"%string \/ k = "back"%string).
  { intros k a Hin. destruct (Hent k a Hin) as (_ & _ & n & _ & _ & _ & Hc).
    destruct Hc as [[-> _] | [[-> _] | [-> _]]]; auto. }
  pose proof (_apply_belt_adjustments_keys mesh_before d) as Hap.
  destruct (_apply_belt_adjustments mesh_before solver d) as [m d2].
  destruct Hap as (Hap0 & Hap1 & Hap2).
  inversion H; subst; clear H. cbn [actions warnings deviation Models.mesh].
  assert (Hd2 : forall k a, In (k, a) d2 ->
            k = "front_left"%string \/ k = "front_right"%string \/ k = "back"%string).
  { intros k a Hin. destruct (Hap2 k a Hin) as [a' Hin']. now apply (Hkeys k a'). }
  set (acts := _ ++ _ ++ _ ++ []).
  assert (Hacts : acts = [] <-> d = []).
  { split.
    - intros E. pose proof (belt_actions_nil d2 Hd2 E) as E2.
      destruct d as [|e d']; [reflexivity|]. exfalso. apply Hap1; [discriminate | exact E2].
    - intros E. destruct (Hap0 E) as [_ ->]. reflexivity. }
  split.
  - rewrite Hacts. exact Hnil.
  - intros E. assert (E' := E). apply Hacts in E'. destruct (Hap0 E') as [-> _].
    rewrite E. auto.
Qed.

End BeltStageFacts.

Lemma belt_stage_on_level_bed_witness :
  Bed.mesh_data Example1.bed0 = Some Example1.mesh0 /\
  exists stage mesh_after,
    Calculators.build_belt_stage Example1.bed0 Example1.solver Example1.settings
      Example1.mesh0 true = Ok (stage, mesh_after) /\
    (Models.actions stage = [] -> mesh_after = Example1.mesh0).
Proof.
  assert (Hm : Bed.mesh_data Example1.bed0 = Some Example1.mesh0) by reflexivity.
  split; [exact Hm|].
  destruct (build_belt_stage_returns Example1.solver Example1.bed0 Example1.settings
              Example1.mesh0 Example1.mesh0 true Hm) as (stage & mesh_after & H).
  exists stage, mesh_after. split; [exact H|].
  intros E.
  exact (proj1 (proj2 (belt_stage_on_level_bed Example1.bed0 Example1.solver
                         Example1.settings Example1.mesh0 Hm Example1.mesh0 mesh_after
                         stage H) E)).
Defined.

(** ** The dialog's choice of the stage to present *)

Section DialogFacts.
Import Models Engine Dialog.
Variable workflow : WorkflowData.

Let actionable (s : StageResult) : bool := not_initial s && enabled s && has_actions s.

Lemma not_initial_spec (s : StageResult) :
  not_initial s = true <-> key s <> "initial"%string.
Proof.
  unfold not_initial. rewrite negb_true_iff. split.
  - intros H E. rewrite E in H. discriminate.
  - intros H. apply String.eqb_neq. exact H.
Qed.

Lemma py_min_by_filter {A} (f : A -> bool) (key : A -> Q) (l : list A) (b : A) :
  py_min_by key (filter f l) = Some b ->
  In b l /\ f b = true /\ forall y, In y l -> f y = true -> key b <= key y.
Proof.
  intros H. apply py_min_by_least in H. destruct H as [Hin Hle].
  apply filter_In in Hin. destruct Hin as [Hin Hf].
  split; [exact Hin|]. split; [exact Hf|].
  intros y Hy Hfy. apply Hle, filter_In. auto.
Qed.

(** X25. The dialog's [_best_stage] never returns the initial stage: what it
    returns is a stage of the workflow whose key is not 'initial'; when some
    such stage is enabled and has actions, it returns one of those, of least
    deviation among them; it returns nothing only when every stage is the
    initial one. *)
Theorem dialog_best_stage_never_initial :
  (forall s, _best_stage workflow = Some s ->
     In s (stages workflow) /\ key s <> "initial"%string) /\
  (forall s, _best_stage workflow = Some s ->
     (exists s', In s' (stages workflow) /\ actionable s' = true) ->
     actionable s = true /\
     forall s', In s' (stages workflow) -> actionable s' = true ->
                deviation s <= deviation s') /\
  (_best_stage workflow = None <->
   forall s, In s (stages workflow) -> key s = "initial"%string).
Proof.
  unfold _best_stage. fold actionable.
  destruct (filter actionable (stages workflow)) as [|a0 l0] eqn:Fa.
  - destruct (filter (fun stage => not_initial stage && enabled stage) (stages workflow))
      as [|c0 l1] eqn:Fc.
    + split; [|split].
      * intros s H. apply find_some in H. destruct H as [Hin Hn].
        split; [exact Hin | now apply not_initial_spec].
      * intros s _ (s' & Hin & Hs'). exfalso.
        assert (Hf : In s' (filter actionable (stages workflow))) by (apply filter_In; auto).
        rewrite Fa in Hf. contradiction.
      * split.
        -- intros Hnone s Hin. destruct (string_dec (key s) "initial") as [E|E]; [exact E|].
           exfalso. apply not_initial_spec in E.
           now rewrite (find_none _ _ Hnone s Hin) in E.
        -- intros Hall. destruct (find not_initial (stages workflow)) as [s|] eqn:Ff;
             [|reflexivity].
           apply find_some in Ff. destruct Ff as [Hin Hn]. apply not_initial_spec in Hn.
           exfalso. apply Hn, Hall, Hin.
    + rewrite <- Fc. split; [|split].
      * intros s H. apply py_min_by_filter in H. destruct H as (Hin & Hf & _).
        apply andb_true_iff in Hf. destruct Hf as [Hn _].
        split; [exact Hin | now apply not_initial_spec].
      * intros s _ (s' & Hin & Hs'). exfalso.
        assert (Hf : In s' (filter actionable (stages workflow))) by (apply filter_In; auto).
        rewrite Fa in Hf. contradiction.
      * split.
        -- intros Hnone. exfalso. rewrite Fc in Hnone. discriminate Hnone.
        -- intros Hall. exfalso.
           assert (Hin : In c0 (filter (fun stage => not_initial stage && enabled stage)
                                  (stages workflow))) by (rewrite Fc; now left).
           apply filter_In in Hin. destruct Hin as [Hin Hf].
           apply andb_true_iff in Hf. destruct Hf as [Hn _].
           apply not_initial_spec in Hn. apply Hn, Hall, Hin.
  - rewrite <- Fa. split; [|split].
    + intros s H. apply py_min_by_filter in H. destruct H as (Hin & Hf & _).
      unfold actionable in Hf. rewrite !andb_true_iff in Hf. destruct Hf as [[Hn _] _].
      split; [exact Hin | now apply not_initial_spec].
    + intros s H _. apply py_min_by_filter in H. destruct H as (_ & Hf & Hle).
      split; [exact Hf | exact Hle].
    + split.
      * intros Hnone. exfalso. rewrite Fa in Hnone. discriminate Hnone.
      * intros Hall. exfalso.
        assert (Hin : In a0 (filter actionable (stages workflow))) by (rewrite Fa; now left).
        apply filter_In in Hin. destruct Hin as [Hin Hf].
        unfold actionable in Hf. rewrite !andb_true_iff in Hf. destruct Hf as [[Hn _] _].
        apply not_initial_spec in Hn. apply Hn, Hall, Hin.
Qed.

End DialogFacts.

Lemma dialog_best_stage_never_initial_witness :
  Dialog._best_stage Example4.workflow = Some Example4.belt_stage /\
  In Example4.belt_stage (Engine.stages Example4.workflow) /\
  Models.key Example4.belt_stage <> "initial"%string.
Proof.
  assert (Hb : Dialog._best_stage Example4.workflow = Some Example4.belt_stage) by reflexivity.
  split; [exact Hb|].
  exact (proj1 (dialog_best_stage_never_initial Example4.workflow) _ Hb).
Defined.

(** ** algorithms/deviation_analyzer.py: statistics and the levelling stage *)

Section StatsFacts.
Import Np Bed Screw DeviationAnalyzer.
Variable a : DeviationAnalyzer.

Lemma Qabs_diff_bound (h h' mu d : Q) :
  Qabs (h - mu) <= d -> Qabs (h' - mu) <= d -> h - h' <= 2 * d.
Proof.
  intros H1 H2.
  pose proof (Qle_Qabs (h - mu)) as A1.
  pose proof (Qle_Qabs (- (h' - mu))) as A2. rewrite Qabs_opp in A2. lra.
Qed.

(** X26. [get_stats] and [analyze_leveling_stage] raise before a mesh is
    assigned.  On an assigned mesh they return, and: the corner deviations
    are those of the four corners, none negative and none above the maximum
    deviation; screws are needed exactly when the deviation is critical;
    tape is needed exactly when some corner is problematic; with a tape
    threshold not above the screw threshold, needing screws implies needing
    tape; and the spread between the corners is never negative and at most
    twice the maximum deviation. *)
Theorem leveling_stage_spec :
  (mesh_data (bed a) = None ->
   get_stats a = Raise DataNotSetError /\ analyze_leveling_stage a = Raise DataNotSetError) /\
  (forall m, mesh_data (bed a) = Some m ->
   exists stats stage,
     get_stats a = Ok stats /\
     analyze_leveling_stage a = Ok stage /\
     mean_height stats = mean m /\
     map fst (corner_deviations stats) = corner_keys /\
     (forall c d, In (c, d) (corner_deviations stats) -> 0 <= d <= max_deviation stats) /\
     needs_screw_adjustment stage = has_critical_deviation stats /\
     (has_critical_deviation stats = true <-> screw_threshold a < max_deviation stats) /\
     (stage_needs_tape stage = true <-> problematic_corners stage <> []) /\
     (tape_threshold a <= screw_threshold a ->
      needs_screw_adjustment stage = true -> stage_needs_tape stage = true) /\
     0 <= max_corner_diff stage <= 2 * max_deviation stats /\
     (can_use_screws stage = true <-> max_corner_diff stage <= max_adjust (screw_config a))).
Proof.
  split.
  - intros Hn. unfold analyze_leveling_stage, get_stats. rewrite Hn. split; reflexivity.
  - intros m Hm. unfold analyze_leveling_stage, get_stats. rewrite Hm. cbn [bind].
    set (h := fun c => corner_height (config (bed a)) m c (corner_averaging_size a)).
    set (devs := map (fun c => (c, Qabs (h c - mean m))) corner_keys).
    set (heights := map h corner_keys).
    set (maxdev := list_max (map snd devs)).
    eexists. eexists. split; [reflexivity|]. split; [reflexivity|].
    cbn [mean_height corner_deviations max_deviation has_critical_deviation
         needs_screw_adjustment stage_needs_tape problematic_corners max_corner_diff
         can_use_screws].
    fold h. fold devs. fold heights. fold maxdev.
    assert (Hdev : forall c d, In (c, d) devs -> 0 <= d <= maxdev).
    { intros c d Hin. split.
      - unfold devs in Hin. apply in_map_iff in Hin. destruct Hin as (c' & E & _).
        assert (Ed : d = Qabs (h c' - mean m)) by congruence.
        rewrite Ed. apply Qabs_nonneg.
      - apply list_max_ge. apply in_map_iff. exists (c, d). auto. }
    assert (Hh : forall x, In x heights -> Qabs (x - mean m) <= maxdev).
    { intros x Hx. unfold heights in Hx. apply in_map_iff in Hx.
      destruct Hx as (c & <- & Hc). apply (Hdev c).
      unfold devs. apply in_map_iff. exists c. auto. }
    split; [reflexivity|]. split; [reflexivity|]. split; [exact Hdev|].
    split; [reflexivity|]. split; [apply Qgtb_gt|].
    split; [|split; [|split; [|apply Qle_bool_iff]]].
    + rewrite Qgtb_gt. split.
      * intros Hgt E. apply map_eq_nil in E.
        assert (Hin : In maxdev (map snd devs)) by (apply list_max_in; discriminate).
        apply in_map_iff in Hin. destruct Hin as ([c d] & Ed & Hin). simpl in Ed. subst d.
        assert (Hf : In (c, maxdev) (filter (fun cd => Qgtb (snd cd) (tape_threshold a)) devs)).
        { apply filter_In. split; [exact Hin|]. now apply Qgtb_gt. }
        apply (@in_nil _ (c, maxdev)). rewrite <- E. exact Hf.
      * intros Hne.
        destruct (filter (fun cd => Qgtb (snd cd) (tape_threshold a)) devs)
          as [|[c d] l] eqn:F;
          [exfalso; apply Hne; exact (f_equal (map fst) F)|].
        assert (Hin : In (c, d) (filter (fun cd => Qgtb (snd cd) (tape_threshold a)) devs))
          by (rewrite F; now left).
        apply filter_In in Hin. destruct Hin as [Hin Hgt]. apply Qgtb_gt in Hgt.
        cbn [snd] in Hgt. destruct (Hdev c d Hin) as [_ Hle].
        apply Qlt_le_trans with d; assumption.
    + intros Hthr Hs. apply Qgtb_gt in Hs. apply Qgtb_gt. lra.
    + assert (Hmax : In (list_max heights) heights) by (apply list_max_in; discriminate).
      assert (Hmin : In (list_min heights) heights) by (apply list_min_in; discriminate).
      pose proof (list_min_le_max heights) as Hle.
      pose proof (Qabs_diff_bound _ _ _ _ (Hh _ Hmax) (Hh _ Hmin)) as Hb.
      change (0 <= list_max heights - list_min heights <= 2 * maxdev).
      split; lra.
Qed.

End StatsFacts.

Lemma leveling_stage_spec_witness :
  Bed.mesh_data (DeviationAnalyzer.bed Example3.analyzer) = Some Example3.mesh0 /\
  exists stats stage,
    DeviationAnalyzer.get_stats Example3.analyzer = Ok stats /\
    DeviationAnalyzer.analyze_leveling_stage Example3.analyzer = Ok stage /\
    0 <= DeviationAnalyzer.max_corner_diff stage
      <= 2 * DeviationAnalyzer.max_deviation stats.
Proof.
  assert (Hm : Bed.mesh_data (DeviationAnalyzer.bed Example3.analyzer) = Some Example3.mesh0)
    by reflexivity.
  split; [exact Hm|].
  destruct (proj2 (leveling_stage_spec Example3.analyzer) _ Hm)
    as (stats & stage & H1 & H2 & _ & _ & _ & _ & _ & _ & _ & H3 & _).
  exists stats, stage. split; [exact H1|]. split; [exact H2 | exact H3].
Defined.

(** ** algorithms/deviation_analyzer.py: the corner actions *)

Section CornerActions.
Import Np Bed Screw DeviationAnalyzer.
Variable a : DeviationAnalyzer.
Variable m : Mesh.
Let rows := mesh_points_x (config (bed a)).
Let cols := mesh_points_y (config (bed a)).
Let cfg := screw_config a.
Hypothesis mesh_set : mesh_data (bed a) = Some m.
Hypothesis mesh_shape : has_shape rows cols m.
Hypothesis rows_pos : (0 < rows)%nat.
Hypothesis cols_pos : (0 < cols)%nat.
Hypothesis pitch_pos : 0 < pitch cfg.
Hypothesis max_adjust_nonneg : 0 <= max_adjust cfg.

Lemma calculate_adjustment_bounds (current target : Q) :
  0 <= fst (calculate_adjustment cfg current target) /\
  fst (calculate_adjustment cfg current target) * MM_PER_MINUTE cfg <= max_adjust cfg.
Proof.
  pose proof (MM_PER_MINUTE_pos cfg pitch_pos) as Hk.
  destruct (Qlt_le_dec (Qabs (current - target)) (min_adjust cfg)) as [H|H].
  - rewrite (calculate_adjustment_below cfg _ _ H). cbn [fst]. split; lra.
  - rewrite (calculate_adjustment_above cfg _ _ H). cbn [fst].
    pose proof (Qmin_div_mult (Qabs (current - target)) (max_adjust cfg) _ Hk) as Hm.
    split.
    + apply Q.min_glb; apply Qle_shift_div_l; try exact Hk; rewrite Qmult_0_l;
        [apply Qabs_nonneg | exact max_adjust_nonneg].
    + rewrite Hm. apply Q.le_min_r.
Qed.

(** X27. [get_corner_actions] gives one action per corner, in the order of
    the corners.  Each action is the screw adjustment from the corner's
    averaged height to the mean height of the mesh: it is never negative,
    never moves the corner by more than [max_adjust], is zero within
    [min_adjust] of the mean, and otherwise turns clockwise exactly when
    the corner is above the mean. *)
Theorem corner_actions_spec :
  exists actions,
    get_corner_actions a = Ok actions /\
    map fst actions = corner_keys /\
    forall c minutes direction, In (c, (minutes, direction)) actions ->
      let height := corner_height (config (bed a)) m c (corner_averaging_size a) in
      (minutes, direction) = calculate_adjustment cfg height (mean m) /\
      0 <= minutes /\
      minutes * MM_PER_MINUTE cfg <= max_adjust cfg /\
      (Qabs (height - mean m) < min_adjust cfg -> minutes == 0) /\
      (min_adjust cfg <= Qabs (height - mean m) ->
       (mean m < height -> direction = CLOCKWISE) /\
       (height <= mean m -> direction = COUNTERCLOCKWISE)).
Proof.
  unfold get_corner_actions, get_ideal_plane, generate_ideal_plane.
  rewrite mesh_set. cbn [bind].
  eexists. split; [reflexivity|]. split.
  - rewrite map_map. rewrite <- (map_id corner_keys) at 2.
    apply map_ext. intros c. now destruct (corners (config (bed a)) c).
  - intros c minutes direction Hin.
    set (height := corner_height (config (bed a)) m c (corner_averaging_size a)).
    apply in_map_iff in Hin. destruct Hin as (c' & E & _).
    destruct (corners (config (bed a)) c') as [x y] eqn:Ec.
    assert (Hx : (x < rows)%nat /\ (y < cols)%nat).
    { destruct c'; simpl in Ec; injection Ec as <- <-; fold rows cols; lia. }
    destruct Hx as [Hx Hy].
    assert (Hg : get (ideal_plane m) x y = mean m).
    { unfold ideal_plane, full_like. now rewrite (get_mesh_map _ rows cols). }
    rewrite Hg in E. fold cfg in E.
    assert (Ecc : c' = c) by congruence. subst c'.
    assert (Ea : calculate_adjustment cfg height (mean m) = (minutes, direction))
      by (unfold height; congruence).
    clear E. split; [now symmetry|].
    pose proof (calculate_adjustment_bounds height (mean m)) as Hb.
    rewrite Ea in Hb. cbn [fst] in Hb. destruct Hb as [Hb1 Hb2].
    split; [exact Hb1|]. split; [exact Hb2|]. split.
    + intros H. rewrite (calculate_adjustment_below cfg _ _ H) in Ea.
      assert (E0 : minutes = 0) by congruence. rewrite E0. reflexivity.
    + intros H. rewrite (calculate_adjustment_above cfg _ _ H) in Ea. split.
      * intros Hgt. assert (Hd : Qgtb (height - mean m) 0 = true) by (apply Qgtb_gt; lra).
        rewrite Hd in Ea. congruence.
      * intros Hle. assert (Hd : Qgtb (height - mean m) 0 = false) by (apply Qgtb_le; lra).
        rewrite Hd in Ea. congruence.
Qed.

End CornerActions.

Lemma corner_actions_spec_witness :
  Bed.mesh_data (DeviationAnalyzer.bed Example3.analyzer) = Some Example3.mesh0 /\
  Np.has_shape 4 5 Example3.mesh0 /\
  0 < Screw.pitch (DeviationAnalyzer.screw_config Example3.analyzer) /\
  0 <= Screw.max_adjust (DeviationAnalyzer.screw_config Example3.analyzer) /\
  exists actions,
    DeviationAnalyzer.get_corner_actions Example3.analyzer = Ok actions /\
    map fst actions = Bed.corner_keys.
Proof.
  assert (Hm : Bed.mesh_data (DeviationAnalyzer.bed Example3.analyzer) = Some Example3.mesh0)
    by reflexivity.
  assert (Hs : Np.has_shape 4 5 Example3.mesh0) by (apply has_shapeb_spec; reflexivity).
  assert (Hp : 0 < Screw.pitch (DeviationAnalyzer.screw_config Example3.analyzer))
    by reflexivity.
  assert (Ha : 0 <= Screw.max_adjust (DeviationAnalyzer.screw_config Example3.analyzer))
    by (simpl; lra).
  split; [exact Hm|]. split; [exact Hs|]. split; [exact Hp|]. split; [exact Ha|].
  destruct (corner_actions_spec Example3.analyzer Example3.mesh0 Hm Hs)
    as (actions & H1 & H2 & _); [simpl; lia | simpl; lia | exact Hp | exact Ha |].
  exists actions. split; [exact H1 | exact H2].
Defined.
